(** * SQLite forensics pipeline: a shallow embedding of [sqlite_forensics.py]

    The development follows the class [SQLiteForensics]: the hasher
    ([calculate_hash]), the metadata collector ([get_file_metadata]), the
    integrity checker ([check_database_integrity]), the schema introspector
    ([get_database_info]), the table exporter ([export_table_data]), the
    free-space estimator ([search_deleted_records]), the per-file driver
    ([analyze_database]), the discovery walker ([find_sqlitedb_files]) and
    the report synthesizer ([generate_report]).

    Everything the script reaches through a library (the file system,
    [hashlib], [sqlite3], the clock, the console) is gathered in a record
    [world]; the script's own effects (open connections, files written,
    directories made) live in a [state] threaded through a small
    state-and-exception monad.  The SQLite engine is not modelled: the
    script hands it the text of a statement, and the world says what comes
    back.  What is printed is not kept; that a [print] can raise is. *)

From Stdlib Require Import ZArith String Ascii List Lia DecimalString.
From Stdlib.Strings Require Import Byte.
From Equations Require Import Equations.
From stdpp Require Import gmap strings list.

Open Scope string_scope.
Open Scope list_scope.

(** ** Python values used by the script *)

(** A caught exception is only ever used through [str(e)].  Only what
    [except Exception] catches is modelled; an interrupt from outside is
    not. *)
Definition exn := string.

(** Python [str]: the UTF-8 bytes of the text. *)
Definition error_prefix : string := "Помилка: ".
Definition export_error_prefix : string := "Помилка експорту: ".

(** A Python [dict] with string keys: insertion ordered, and assigning to a
    key that is already present replaces the value in place. *)
Abbreviation dict V := (list (string * V)) (only parsing).

Fixpoint dict_set {V} (d : dict V) (k : string) (v : V) : dict V :=
  match d with
  | [] => [(k, v)]
  | (k', v') :: d' =>
      if decide (k' = k) then (k', v) :: d' else (k', v') :: dict_set d' k v
  end.

Fixpoint dict_get {V} (d : dict V) (k : string) : option V :=
  match d with
  | [] => None
  | (k', v') :: d' => if decide (k' = k) then Some v' else dict_get d' k
  end.

Definition dict_keys {V} (d : dict V) : list string := map fst d.


(** ** pathlib *)

Module pathlib.

(** A pure POSIX path: [root] is ["/"] (or ["//"]) for an absolute path and
    empty for a relative one, [parts] are the components after the root. *)
Record Path := mkPath { root : string; parts : list string }.

#[global] Instance Path_eq_dec : EqDecision Path.
Proof. solve_decision. Defined.

Definition slash : ascii := "/"%char.
Definition dot : ascii := "."%char.

(** [s.split('/')]: the pieces of [s] between slashes, [acc] being the piece
    read so far. *)
Fixpoint split_go (acc : string) (s : string) : list string :=
  match s with
  | EmptyString => [acc]
  | String c s' =>
      if decide (c = slash) then acc :: split_go "" s'
      else split_go (acc +:+ String c "") s'
  end.

Definition split_slash (s : string) : list string := split_go "" s.

Definition kept (c : string) : bool :=
  negb (bool_decide (c = "")) && negb (bool_decide (c = ".")).

(** Components of a path string: empty components and ["."] are dropped. *)
Definition parse_parts (s : string) : list string :=
  List.filter kept (split_slash s).

(** The root of a path string: exactly two leading slashes are kept as
    they are, one slash or three and more make the root ["/"]. *)
Definition root_of (s : string) : string :=
  if String.prefix "/" s then
    if String.prefix "//" s && negb (String.prefix "///" s) then "//" else "/"
  else "".

(** [Path(s)] *)
Definition of_str (s : string) : Path :=
  mkPath (root_of s) (parse_parts s).

Fixpoint join (sep : string) (l : list string) : string :=
  match l with
  | [] => ""
  | [x] => x
  | x :: l' => x +:+ sep +:+ join sep l'
  end.

(** [str(p)] *)
Definition str (p : Path) : string :=
  match parts p with
  | [] => if decide (root p = "") then "." else root p
  | ps => root p +:+ join "/" ps
  end.

Definition is_absolute (p : Path) : bool := negb (bool_decide (root p = "")).

(** [p / s] *)
Definition truediv (p : Path) (s : string) : Path :=
  let q := of_str s in
  if is_absolute q then q else mkPath (root p) (parts p ++ parts q).

(** [p.name] *)
Definition name (p : Path) : string := List.last (parts p) "".

(** [s.rfind(c)], [None] standing for [-1]. *)
Fixpoint rfind (c : ascii) (s : string) : option nat :=
  match s with
  | EmptyString => None
  | String a s' =>
      match rfind c s' with
      | Some i => Some (S i)
      | None => if decide (a = c) then Some 0 else None
      end
  end.

(** [p.stem]: the name without its last suffix; a leading or a trailing dot
    does not start a suffix. *)
Definition stem_of_name (n : string) : string :=
  match rfind dot n with
  | Some i =>
      if (0 <? i)%nat && (i <? String.length n - 1)%nat
      then String.substring 0 i n else n
  | None => n
  end.

Definition stem (p : Path) : string := stem_of_name (name p).

(** [fnmatch] restricted to literal characters and [*], which is all that
    the discovery patterns use. *)
Fixpoint glob_match (pat : list ascii) (s : list ascii) : bool :=
  match pat with
  | [] => match s with [] => true | _ => false end
  | p :: pat' =>
      if decide (p = "*"%char) then
        (fix skip (s : list ascii) : bool :=
           glob_match pat' s ||
           match s with [] => false | _ :: s' => skip s' end) s
      else
        match s with
        | [] => false
        | c :: s' => bool_decide (c = p) && glob_match pat' s'
        end
  end.

Definition fnmatch (n pattern : string) : bool :=
  glob_match (list_ascii_of_string pattern) (list_ascii_of_string n).

(** A directory tree as the walker sees it: every entry has a name, and a
    directory lists its children in [os.scandir] order. *)
#[warnings="-register-all"]
Inductive entry :=
| File (n : string)
| Dir (n : string) (children : list entry).

Definition entry_name (e : entry) : string :=
  match e with File n => n | Dir n _ => n end.

(** Relative paths of everything below an entry, the way [**] visits them:
    a directory's own children first, then each sub-directory in turn. *)
Fixpoint beneath (e : entry) : list (list string) :=
  match e with
  | File _ => []
  | Dir n cs =>
      map (cons n)
        (map (fun c => [entry_name c]) cs ++ flat_map beneath cs)
  end.

Definition walk (cs : list entry) : list (list string) :=
  map (fun c => [entry_name c]) cs ++ flat_map beneath cs.

(** [p.rglob(pattern)] over the tree [cs] found under [p]. *)
Definition rglob_in (cs : list entry) (p : Path) (pattern : string) : list Path :=
  map (fun rel => mkPath (root p) (parts p ++ rel))
    (List.filter (fun rel => fnmatch (List.last rel "") pattern) (walk cs)).

(** The file-system invariant the walker relies on: no two entries of one
    directory share a name, and a name holds no slash. *)
Definition slash_free (n : string) : bool :=
  forallb (fun c => negb (bool_decide (c = slash))) (list_ascii_of_string n).

Fixpoint wf_entry (e : entry) : bool :=
  slash_free (entry_name e) &&
  match e with
  | File _ => true
  | Dir _ cs => bool_decide (NoDup (map entry_name cs)) && forallb wf_entry cs
  end.

Definition wf_listing (cs : list entry) : bool :=
  bool_decide (NoDup (map entry_name cs)) && forallb wf_entry cs.

End pathlib.

Import pathlib.

(** ** Outcomes of a Python call *)

Inductive outcome (A : Type) :=
| Return (a : A)
| Raise (e : exn).
Arguments Return {A} a.
Arguments Raise {A} e.

(** ** hashlib *)

(** A digest algorithm as [hashlib] offers it: a running state fed with
    [update] and read with [digest].  The two laws are hashlib's contract:
    repeated calls of [update] are equivalent to a single call with the
    concatenation of the arguments.  These are the algorithms whose
    [hexdigest] takes no argument, [md5], [sha1] and [sha256] among them;
    the variable-length [shake_128] and [shake_256] are not of this type. *)
Record Hasher := mkHasher {
  hstate : Type;
  h_init : hstate;
  h_update : hstate -> list byte -> hstate;
  h_digest : hstate -> list byte;
  h_update_app : forall s a b, h_update (h_update s a) b = h_update s (a ++ b);
  h_update_nil : forall s, h_update s [] = s
}.

Definition hex_digit (n : N) : ascii :=
  match n with
  | 0 => "0" | 1 => "1" | 2 => "2" | 3 => "3" | 4 => "4" | 5 => "5"
  | 6 => "6" | 7 => "7" | 8 => "8" | 9 => "9" | 10 => "a" | 11 => "b"
  | 12 => "c" | 13 => "d" | 14 => "e" | _ => "f"
  end%N%char.

Definition hex_byte (b : byte) : string :=
  let n := Byte.to_N b in
  String (hex_digit (n / 16)) (String (hex_digit (n mod 16)) "").

Fixpoint hexlify (bs : list byte) : string :=
  match bs with
  | [] => ""
  | b :: bs' => hex_byte b +:+ hexlify bs'
  end.

(** [h.hexdigest()] *)
Definition hexdigest (H : Hasher) (st : hstate H) : string :=
  hexlify (h_digest H st).

Definition is_lower_hex_char (c : ascii) : bool :=
  let n := nat_of_ascii c in
  ((48 <=? n) && (n <=? 57) || (97 <=? n) && (n <=? 102))%nat.

Definition is_lower_hex (s : string) : bool :=
  forallb is_lower_hex_char (list_ascii_of_string s).

(** A file opened with [open(filepath, 'rb')]: the open may fail; otherwise
    the handle delivers [data], except that the read call number
    [fst bad_read] (counted from 0) raises. *)
Inductive open_result :=
| OpenError (e : exn)
| Opened (data : list byte) (bad_read : option (nat * exn)).

Definition read_fails (bad_read : option (nat * exn)) (k : nat) : option exn :=
  match bad_read with
  | Some (n, e) => if decide (n = k) then Some e else None
  | None => None
  end.

Definition chunk_size : nat := 4096.

(** Keeps the equation of a scrutinee in sight of the termination proof. *)
Definition inspect {A} (a : A) : {b | a = b} := exist _ a eq_refl.

(** [for chunk in iter(lambda: f.read(4096), b""): hash_func.update(chunk)]
    where [rest] is what the handle has not delivered yet and [k] counts
    the read calls made so far. *)
Equations feed (H : Hasher) (bad_read : option (nat * exn)) (k : nat)
    (st : hstate H) (rest : list byte) : outcome (hstate H)
    by wf (length rest) lt :=
  feed H bad_read k st rest with read_fails bad_read k := {
    | Some e := Raise e
    | None with inspect (take chunk_size rest) := {
        | exist _ [] Heq := Return st
        | exist _ (b :: bs) Heq :=
            feed H bad_read (S k) (h_update H st (b :: bs)) (drop chunk_size rest) } }.
Next Obligation.
  intros. rewrite length_drop. destruct rest as [|x rest]; [discriminate|].
  cbn [length]. unfold chunk_size. lia.
Qed.


(** ** sqlite3 *)

(** A value held in a row. *)
Inductive value :=
| VNull
| VInt (z : Z)
| VReal (repr : string)
| VText (s : string)
| VBlob (b : list byte).

(** One row of [PRAGMA table_info]: [cid, name, type, notnull, dflt_value, pk]. *)
Record column := mkColumn {
  cid : Z;
  cname : string;
  ctype : string;
  notnull : Z;
  dflt_value : option string;
  pk : Z
}.

(** The statements of the script, as the text it hands to
    [cursor.execute].  A table name is spliced between single quotes as it
    stands, whatever characters it holds. *)
Definition integrity_check_statement : string := "PRAGMA integrity_check;".
Definition version_statement : string := "SELECT sqlite_version();".
Definition freelist_statement : string := "PRAGMA freelist_count;".

(** ["SELECT name FROM sqlite_master WHERE type='table';"] and the like *)
Definition names_statement (type : string) : string :=
  "SELECT name FROM sqlite_master WHERE type='" +:+ type +:+ "';".

(** [f"SELECT COUNT(*) FROM '{table}';"] *)
Definition count_statement (table : string) : string :=
  "SELECT COUNT(*) FROM '" +:+ table +:+ "';".

(** [f"PRAGMA table_info('{table}');"] *)
Definition table_info_statement (table : string) : string :=
  "PRAGMA table_info('" +:+ table +:+ "');".

(** [f"SELECT * FROM '{table_name}';"] *)
Definition select_all_statement (table_name : string) : string :=
  "SELECT * FROM '" +:+ table_name +:+ "';".

(** [cursor.fetchone()[0]]: [fetchone] is [None] when there is no row. *)
Definition fetchone_0 {A} (rows : list A) : outcome A :=
  match rows with
  | r :: _ => Return r
  | [] => Raise "'NoneType' object is not subscriptable"
  end.

(** ** The records of the report *)

Record stat_result := mkStat {
  st_size : Z;
  st_ctime : Z;
  st_mtime : Z;
  st_atime : Z
}.

(** The dictionary built by [get_file_metadata]; [size_mb], a rounded
    float, is left out. *)
Record metadata := mkMetadata {
  filename : string;
  full_path : string;
  size_bytes : Z;
  created : string;
  modified : string;
  accessed : string;
  md5 : string;
  sha1 : string;
  sha256 : string
}.

(** [tables_info[table]]: the counts and columns, or [{'error': ...}]. *)
Inductive table_entry :=
| TableInfo (row_count : Z) (columns : list column)
| TableError (e : string).

(** The result of [get_database_info]. *)
Inductive database_info :=
| DatabaseInfo (sqlite_version : string) (tables_count : nat)
    (tables : list string) (tables_info : dict table_entry)
    (indexes triggers : list string)
| DatabaseInfoError (e : string).

(** The result of [search_deleted_records]. *)
Inductive deleted_records :=
| Freelist (freelist_pages : Z) (note : string)
| DeletedError (e : string).

(** [db_report]; the key ['exported_tables'] is only set when the
    introspection succeeded. *)
Record db_report := mkDbReport {
  r_metadata : metadata;
  r_integrity : string;
  r_database_info : database_info;
  r_deleted_records : deleted_records;
  r_exported_tables : option (dict string)
}.

(** A value of [full_report['databases']]. *)
Inductive artifact :=
| Analysed (r : db_report)
| Failed (e : string).

Record full_report := mkFullReport {
  analysis_date : string;
  directory : string;
  output_directory : string;
  total_files : nat;
  databases : dict artifact
}.

(** What a file made by the script holds: the rows handed to [csv.writer],
    the dictionary handed to [json.dump], or the narrative that
    [generate_text_report] renders from that dictionary; nothing, for the
    file that [sqlite3.connect] makes where there is none; some beginning
    of a text, when the writing raised after the file was opened. *)
Inductive file_content :=
| CsvFile (rows : list (list value))
| JsonReport (r : full_report)
| TextReport (r : full_report)
| EmptyFile
| Partial (intended : file_content).

(** ** The world outside the script *)

(** Each field answers for the whole run: the files under examination do
    not change while the script runs. *)
Record world := mkWorld {
  (** the directory tree found under a directory *)
  scandir_tree : Path -> list entry;
  (** [filepath.stat()] *)
  os_stat : Path -> outcome stat_result;
  (** [open(filepath, 'rb')] *)
  open_rb : Path -> open_result;
  (** [hashlib.new(hash_type)] *)
  hashlib_new : string -> outcome Hasher;
  (** whether there is a file at the path when the run begins *)
  file_exists : Path -> bool;
  (** why [sqlite3.connect(db_path)] would fail, if it would *)
  connect_error : Path -> option exn;
  (** [cursor.execute(statement)] on a connection to the file, with the
      fetch that follows, for the statements whose rows hold one text:
      the rows, or the exception of the one or the other *)
  sql_text : Path -> string -> outcome (list string);
  (** the same for the statements whose rows hold one integer *)
  sql_int : Path -> string -> outcome (list Z);
  (** the same for [PRAGMA table_info] *)
  sql_table_info : Path -> string -> outcome (list column);
  (** the same for [SELECT *] *)
  sql_rows : Path -> string -> outcome (list (list value));
  (** [datetime.fromtimestamp(t).strftime('%Y-%m-%d %H:%M:%S')], which
      raises on a time that no date stands for *)
  local_time : Z -> outcome string;
  (** [datetime.now().strftime(fmt)] *)
  now_strftime : string -> string;
  (** why [p.mkdir(exist_ok=True)] would fail, if it would *)
  mkdir_error : Path -> option exn;
  (** why [open(p, 'w')] would fail, if it would *)
  open_w_error : Path -> option exn;
  (** why writing the content into the file opened at [p] would fail, if
      it would (text that does not encode, a full disk) *)
  write_error : Path -> file_content -> option exn;
  (** why [print(line)] would fail, if it would (text that the console
      does not encode, a closed pipe) *)
  print_error : string -> option exn;
  (** [p.resolve()] *)
  resolve : Path -> Path;
  (** [Path(__file__).parent.resolve()] *)
  script_dir : Path
}.

(** ** The effects of the script *)

(** A [sqlite3.Connection]. *)
Record connection := mkConnection { c_id : nat; c_path : Path }.

Record state := mkState {
  (** handles of the connections that are open *)
  open_conns : list nat;
  next_conn : nat;
  (** files made so far, by path string *)
  written : gmap string file_content;
  (** directories made so far *)
  made_dirs : gset string
}.

Definition M (A : Type) : Type := state -> outcome A * state.

Definition ret {A} (a : A) : M A := fun s => (Return a, s).

Definition raise {A} (e : exn) : M A := fun s => (Raise e, s).

Definition lift {A} (o : outcome A) : M A := fun s => (o, s).

Definition bind {A B} (m : M A) (k : A -> M B) : M B :=
  fun s =>
    match m s with
    | (Return a, s') => k a s'
    | (Raise e, s') => (Raise e, s')
    end.

(** [try: m except Exception as e: handler(e)]; what [m] did before it
    raised stays done. *)
Definition try_except {A} (m : M A) (handler : exn -> M A) : M A :=
  fun s =>
    match m s with
    | (Return a, s') => (Return a, s')
    | (Raise e, s') => handler e s'
    end.

Declare Scope py_scope.
Delimit Scope py_scope with py.
Notation "x <- m ;; k" := (bind m (fun x => k))
  (at level 100, m at next level, right associativity) : py_scope.
Notation "m ;; k" := (bind m (fun _ => k))
  (at level 100, right associativity) : py_scope.
Open Scope py_scope.

(** [for x in l: acc = body(acc, x)] *)
Fixpoint for_each {A B} (l : list A) (acc : B) (body : B -> A -> M B) : M B :=
  match l with
  | [] => ret acc
  | x :: l' => acc' <- body acc x ;; for_each l' acc' body
  end.

(** ["\n"] *)
Definition nl : string := String (ascii_of_nat 10) "".

(** [c * n] for a one-character string [c] *)
Fixpoint times (n : nat) (c : string) : string :=
  match n with
  | O => ""
  | S n' => c +:+ times n' c
  end.

(** [str(n)] for a length *)
Definition decimal (n : nat) : string := NilZero.string_of_uint (Nat.to_uint n).

Section Forensics.

Variable W : world.

(** *** Primitive effects *)

(** What [print(line)] comes to. *)
Definition said (line : string) : outcome unit :=
  match print_error W line with
  | Some e => Raise e
  | None => Return tt
  end.

(** [print(line)] *)
Definition print (line : string) : M unit := lift (said line).

(** There is a file at [p]: it was there from the start, or the script
    made it. *)
Definition present (s : state) (p : Path) : bool :=
  file_exists W p || bool_decide (is_Some (written s !! str p)).

(** [sqlite3.connect(db_path)], which makes an empty file where there is
    none. *)
Definition sqlite3_connect (db_path : Path) : M connection :=
  fun s =>
    match connect_error W db_path with
    | Some e => (Raise e, s)
    | None =>
        (Return (mkConnection (next_conn s) db_path),
         mkState (next_conn s :: open_conns s) (S (next_conn s))
           (if present s db_path then written s
            else <[ str db_path := EmptyFile ]> (written s))
           (made_dirs s))
    end.

(** [conn.close()] *)
Definition conn_close (conn : connection) : M unit :=
  fun s =>
    (Return tt,
     mkState (List.filter (fun h => negb (bool_decide (h = c_id conn))) (open_conns s))
       (next_conn s) (written s) (made_dirs s)).

(** [cursor.execute(statement)] and the fetch that follows, [answer] being
    the field of the world that the shape of the rows calls for. *)
Definition execute {A} (conn : connection) (answer : Path -> string -> outcome A)
    (statement : string) : M A :=
  fun s =>
    if bool_decide (c_id conn ∈ open_conns s) then (answer (c_path conn) statement, s)
    else (Raise "Cannot operate on a closed database.", s).

(** [p.mkdir(exist_ok=True)] *)
Definition mkdir (p : Path) : M unit :=
  fun s =>
    match mkdir_error W p with
    | Some e => (Raise e, s)
    | None =>
        (Return tt,
         mkState (open_conns s) (next_conn s) (written s) ({[ str p ]} ∪ made_dirs s))
    end.

(** [with open(p, 'w') as f:] followed by the writes that make [content].
    Opening truncates the file; a write that raises leaves what was
    written before it. *)
Definition write_file (p : Path) (content : file_content) : M unit :=
  fun s =>
    match open_w_error W p with
    | Some e => (Raise e, s)
    | None =>
        match write_error W p content with
        | Some e =>
            (Raise e,
             mkState (open_conns s) (next_conn s)
               (<[ str p := Partial content ]> (written s)) (made_dirs s))
        | None =>
            (Return tt,
             mkState (open_conns s) (next_conn s)
               (<[ str p := content ]> (written s)) (made_dirs s))
        end
    end.

(** *** The class [SQLiteForensics] *)

Record SQLiteForensics := mkSelf { directory_path : Path; output_dir : Path }.

(** [__init__] *)
Definition init (directory : string) (out : option string) : M SQLiteForensics :=
  let output :=
    match out with
    | None => truediv (script_dir W) "forensic_report"
    | Some o => of_str o
    end in
  mkdir output ;;
  ret (mkSelf (of_str directory) output).

Definition calculate_hash (filepath : Path) (hash_type : string) : M string :=
  hash_func <- lift (hashlib_new W hash_type) ;;
  try_except
    (st <- lift match open_rb W filepath with
                | OpenError e => Raise e
                | Opened data bad_read => feed hash_func bad_read 0 (h_init hash_func) data
                end ;;
     ret (hexdigest hash_func st))
    (fun e => ret (error_prefix +:+ e)).

(** The entries of the dictionary are evaluated in the order in which they
    are written: the three dates before the three digests. *)
Definition get_file_metadata (filepath : Path) : M metadata :=
  stat <- lift (os_stat W filepath) ;;
  created <- lift (local_time W (st_ctime stat)) ;;
  modified <- lift (local_time W (st_mtime stat)) ;;
  accessed <- lift (local_time W (st_atime stat)) ;;
  md5 <- calculate_hash filepath "md5" ;;
  sha1 <- calculate_hash filepath "sha1" ;;
  sha256 <- calculate_hash filepath "sha256" ;;
  ret (mkMetadata (name filepath) (str filepath) (st_size stat)
         created modified accessed md5 sha1 sha256).

(** The body of the [try] of [check_database_integrity]. *)
Definition check_database_integrity_try (db_path : Path) : M string :=
  conn <- sqlite3_connect db_path ;;
  rows <- execute conn (sql_text W) integrity_check_statement ;;
  result <- lift (fetchone_0 rows) ;;
  conn_close conn ;;
  ret result.

Definition check_database_integrity (db_path : Path) : M string :=
  try_except (check_database_integrity_try db_path)
    (fun e => ret (error_prefix +:+ e)).

(** The body of the inner [try] of [get_database_info], for one table. *)
Definition reflect_table (conn : connection) (tables_info : dict table_entry)
    (table : string) : M (dict table_entry) :=
  rows <- execute conn (sql_int W) (count_statement table) ;;
  row_count <- lift (fetchone_0 rows) ;;
  columns <- execute conn (sql_table_info W) (table_info_statement table) ;;
  ret (dict_set tables_info table (TableInfo row_count columns)).

(** The body of the outer [try] of [get_database_info]. *)
Definition get_database_info_try (db_path : Path) : M database_info :=
  conn <- sqlite3_connect db_path ;;
  rows <- execute conn (sql_text W) version_statement ;;
  sqlite_version <- lift (fetchone_0 rows) ;;
  tables <- execute conn (sql_text W) (names_statement "table") ;;
  tables_info <-
    for_each tables [] (fun tables_info table =>
      try_except (reflect_table conn tables_info table)
        (fun e => ret (dict_set tables_info table (TableError e)))) ;;
  indexes <- execute conn (sql_text W) (names_statement "index") ;;
  triggers <- execute conn (sql_text W) (names_statement "trigger") ;;
  conn_close conn ;;
  ret (DatabaseInfo sqlite_version (length tables) tables tables_info indexes triggers).

Definition get_database_info (db_path : Path) : M database_info :=
  try_except (get_database_info_try db_path)
    (fun e => ret (DatabaseInfoError e)).

(** [output_path / f"{db_path.stem}_{table_name}.csv"] *)
Definition csv_path_of (db_path : Path) (table_name : string) (output_path : Path) : Path :=
  truediv output_path (stem db_path +:+ "_" +:+ table_name +:+ ".csv").

(** The body of the [try] of [export_table_data]. *)
Definition export_table_data_try (db_path : Path) (table_name : string)
    (output_path : Path) : M string :=
  conn <- sqlite3_connect db_path ;;
  rows <- execute conn (sql_rows W) (select_all_statement table_name) ;;
  infos <- execute conn (sql_table_info W) (table_info_statement table_name) ;;
  let columns := map cname infos in
  let csv_path := csv_path_of db_path table_name output_path in
  write_file csv_path (CsvFile (map VText columns :: rows)) ;;
  conn_close conn ;;
  ret (str csv_path).

Definition export_table_data (db_path : Path) (table_name : string)
    (output_path : Path) : M string :=
  try_except (export_table_data_try db_path table_name output_path)
    (fun e => ret (export_error_prefix +:+ e)).

Definition freelist_note : string :=
  "Для глибокого аналізу використовуйте спеціалізовані інструменти".

(** The body of the [try] of [search_deleted_records]. *)
Definition search_deleted_records_try (db_path : Path) : M deleted_records :=
  conn <- sqlite3_connect db_path ;;
  rows <- execute conn (sql_int W) freelist_statement ;;
  freelist_count <- lift (fetchone_0 rows) ;;
  conn_close conn ;;
  ret (Freelist freelist_count freelist_note).

Definition search_deleted_records (db_path : Path) : M deleted_records :=
  try_except (search_deleted_records_try db_path)
    (fun e => ret (DeletedError e)).

(** The body of the loop of [analyze_database] over the tables. *)
Definition export_into (db_path export_dir : Path) (exported_tables : dict string)
    (table : string) : M (dict string) :=
  csv_path <- export_table_data db_path table export_dir ;;
  let exported_tables := dict_set exported_tables table csv_path in
  print ("  Експортовано: " +:+ table) ;;
  ret exported_tables.

Definition analyze_database (self : SQLiteForensics) (db_path : Path) : M db_report :=
  print (nl +:+ times 60 "=") ;;
  print ("Аналіз: " +:+ name db_path) ;;
  print (times 60 "=") ;;
  print "- Збір метаданих файлу..." ;;
  md <- get_file_metadata db_path ;;
  print "- Перевірка цілісності бази даних..." ;;
  integrity <- check_database_integrity db_path ;;
  print "- Аналіз структури бази даних..." ;;
  info <- get_database_info db_path ;;
  print "- Пошук видалених записів..." ;;
  deleted <- search_deleted_records db_path ;;
  exported <-
    match info with
    | DatabaseInfo _ _ tables _ _ _ =>
        print "- Експорт даних таблиць..." ;;
        let export_dir := truediv (output_dir self) "exported_data" in
        mkdir export_dir ;;
        exported_tables <- for_each tables [] (export_into db_path export_dir) ;;
        ret (Some exported_tables)
    | DatabaseInfoError _ => ret None
    end ;;
  ret (mkDbReport md integrity info deleted exported).

Definition patterns : list string := ["*.sqlitedb"; "*.sqlite"; "*.db"; "*.sqlite3"].

Definition find_sqlitedb_files (self : SQLiteForensics) : list Path :=
  flat_map
    (fun pattern =>
       rglob_in (scandir_tree W (directory_path self)) (directory_path self) pattern)
    patterns.

Definition generate_text_report (self : SQLiteForensics) (data : full_report) : M unit :=
  let report_path :=
    truediv (output_dir self)
      ("text_report_" +:+ now_strftime W "%Y%m%d_%H%M%S" +:+ ".txt") in
  write_file report_path (TextReport data) ;;
  print ("Текстовий звіт збережено: " +:+ str (resolve W report_path)).

(** One turn of the loop of [generate_report] over the discovered files:
    the handler prints before it files the error. *)
Definition analyze_into (self : SQLiteForensics) (dbs : dict artifact)
    (db_file : Path) : M (dict artifact) :=
  try_except
    (db_report <- analyze_database self db_file ;;
     ret (dict_set dbs (str db_file) (Analysed db_report)))
    (fun e =>
       print ("Помилка при аналізі " +:+ name db_file +:+ ": " +:+ e) ;;
       ret (dict_set dbs (str db_file) (Failed e))).

Definition generate_report (self : SQLiteForensics) : M (option full_report) :=
  print (nl +:+ times 60 "#") ;;
  print "СУДОВО-ЕКСПЕРТНЕ ДОСЛІДЖЕННЯ SQLite БАЗ ДАНИХ" ;;
  print (times 60 "#") ;;
  print ("Дата дослідження: " +:+ now_strftime W "%Y-%m-%d %H:%M:%S") ;;
  print ("Каталог дослідження: " +:+ str (directory_path self)) ;;
  print ("Папка для звітів: " +:+ str (resolve W (output_dir self))) ;;
  let db_files := find_sqlitedb_files self in
  print (nl +:+ "Знайдено файлів баз даних: " +:+ decimal (length db_files)) ;;
  match db_files with
  | [] =>
      print "Файли SQLite не знайдені!" ;;
      ret None
  | _ =>
      dbs <- for_each db_files [] (analyze_into self) ;;
      let full :=
        mkFullReport (now_strftime W "%Y-%m-%d %H:%M:%S")
          (str (directory_path self)) (str (resolve W (output_dir self)))
          (length db_files) dbs in
      let report_path :=
        truediv (output_dir self)
          ("forensic_report_" +:+ now_strftime W "%Y%m%d_%H%M%S" +:+ ".json") in
      write_file report_path (JsonReport full) ;;
      print (nl +:+ times 60 "=") ;;
      print ("Звіт збережено: " +:+ str (resolve W report_path)) ;;
      print ("Експортовані дані: "
             +:+ str (resolve W (truediv (output_dir self) "exported_data"))) ;;
      print (times 60 "=") ;;
      generate_text_report self full ;;
      ret (Some full)
  end.

End Forensics.

(** ** The entry point *)

(** What [main] takes from outside the class: the constant
    [DIRECTORY_PATH] written in the code, the command line, what the user
    types at the prompt (after [strip()]), and [os.path.exists]. *)
Record invocation := mkInvocation {
  DIRECTORY_PATH : string;
  argv : list string;
  typed : string;
  path_exists : string -> bool
}.

(** The directory [main] settles on: the constant when it is set,
    otherwise the first argument of the command line, otherwise what is
    typed. *)
Definition chosen_directory (inv : invocation) : string :=
  if bool_decide (DIRECTORY_PATH inv = "") then
    match argv inv with
    | _ :: directory :: _ => directory
    | _ => typed inv
    end
  else DIRECTORY_PATH inv.

Definition main (W : world) (inv : invocation) : M unit :=
  print W (nl +:+ times 60 "=") ;;
  print W "ПРОГРАМА СУДОВО-ЕКСПЕРТНОГО ДОСЛІДЖЕННЯ SQLite" ;;
  print W (times 60 "=" +:+ nl) ;;
  let directory := chosen_directory inv in
  (if bool_decide (DIRECTORY_PATH inv = "") then ret tt
   else print W ("Використовується шлях з коду: " +:+ directory)) ;;
  if negb (path_exists inv directory) then
    print W ("ПОМИЛКА: Каталог '" +:+ directory +:+ "' не знайдено!")
  else
    let script_location := script_dir W in
    print W ("Поточна папка скрипту: " +:+ str script_location) ;;
    print W ("Результати будуть збережені в: "
             +:+ str (truediv script_location "forensic_report") +:+ nl) ;;
    forensics <- init W directory None ;;
    generate_report W forensics ;;
    print W (nl +:+ "Дослідження завершено!").

(** ** The vocabulary of the properties *)

(** The console takes every line. *)
Definition console_accepts (W : world) : Prop :=
  forall line, print_error W line = None.

(** The whole-file digest: the contents read at once and fed in a single
    [update]. *)
Definition whole_file_digest (H : Hasher) (contents : list byte) : string :=
  hexdigest H (h_update H (h_init H) contents).

(** The engine's consistency check passes on the file: the first row of
    [PRAGMA integrity_check] is [ok]. *)
Definition check_passes (W : world) (db_path : Path) : Prop :=
  connect_error W db_path = None /\
  exists more, sql_text W db_path integrity_check_statement = Return ("ok" :: more).

(** The engine reports [msg] as the first anomaly of the file. *)
Definition reported_anomaly (W : world) (db_path : Path) (msg : string) : Prop :=
  connect_error W db_path = None /\ msg <> "ok" /\
  exists more, sql_text W db_path integrity_check_statement = Return (msg :: more).

(** The check cannot be made, for the reason [e]: the connection does not
    open, or the statement raises, or it yields no row to read. *)
Definition check_raises (W : world) (db_path : Path) (e : exn) : Prop :=
  connect_error W db_path = Some e \/
  (connect_error W db_path = None /\
   (sql_text W db_path integrity_check_statement = Raise e \/
    (sql_text W db_path integrity_check_statement = Return [] /\
     e = "'NoneType' object is not subscriptable"))).

(** The file is no database, for the reason [e]: the connection does not
    open; or it opens, the library tells its version, and each statement
    that reads the file raises. *)
Definition not_a_database (W : world) (db_path : Path) (e : exn) : Prop :=
  connect_error W db_path = Some e \/
  (connect_error W db_path = None /\
   (exists version more,
      sql_text W db_path version_statement = Return (version :: more)) /\
   sql_text W db_path integrity_check_statement = Raise e /\
   sql_text W db_path (names_statement "table") = Raise e /\
   sql_int W db_path freelist_statement = Raise e).

(** The file opens as a database: the connection opens and the catalog
    can be read. *)
Definition opens_as_database (W : world) (db_path : Path) : Prop :=
  connect_error W db_path = None /\
  exists tables, sql_text W db_path (names_statement "table") = Return tables.

Definition error_wrapped (v : string) : bool := String.prefix error_prefix v.

(** The engine words its findings in English: the text starts with an
    ASCII character. *)
Definition starts_ascii (msg : string) : bool :=
  match msg with
  | EmptyString => true
  | String c _ => (nat_of_ascii c <? 128)%nat
  end.

(** The claim on the verdict as the specification words it: a verdict
    other than [ok] is an anomaly that the engine reported, or the error
    wrapper, and then the file could not be opened as a database. *)
Definition verdict_tells_not_a_database (W : world) (db_path : Path) : Prop :=
  forall s v s',
    check_database_integrity W db_path s = (Return v, s') ->
    v = "ok" \/ reported_anomaly W db_path v \/
    (error_wrapped v = true /\ ~ opens_as_database W db_path).

(** The claim on the connections as the specification words it: whatever
    path the operation takes, the connection it opened on [s] is closed
    when it returns. *)
Definition released_on_every_path {A} (op : M A) (s : state) : Prop :=
  next_conn s ∉ open_conns (snd (op s)).

(** What the script does: [op] ends in the state its [try] body [op_try]
    ends in; when the body runs to its end the connections open afterwards
    are those open before; when the body raises, either [sqlite3.connect]
    itself failed and nothing was opened, or the connection opened by the
    body is still open. *)
Definition released_on_success {A B} (W : world) (db_path : Path)
    (op_try : M A) (op : M B) : Prop :=
  forall s, next_conn s ∉ open_conns s ->
    snd (op s) = snd (op_try s) /\
    match op_try s with
    | (Return _, s') => open_conns s' = open_conns s
    | (Raise e, s') =>
        (connect_error W db_path = Some e /\ s' = s) \/
        open_conns s' = next_conn s :: open_conns s
    end.

(** The claim on the exporter as the specification words it: two distinct
    databases with the same stem are exported to distinct files. *)
Definition exports_never_collide (db1 db2 : Path) (table_name : string)
    (output_path : Path) : Prop :=
  db1 <> db2 -> stem db1 = stem db2 ->
  str (csv_path_of db1 table_name output_path)
  <> str (csv_path_of db2 table_name output_path).

(** The engine counts the rows it returns: what [SELECT COUNT] says of a
    table is the number of rows that [SELECT *] delivers. *)
Definition count_agrees (W : world) (db_path : Path) (table : string) : Prop :=
  forall n more rows,
    sql_int W db_path (count_statement table) = Return (n :: more) ->
    sql_rows W db_path (select_all_statement table) = Return rows ->
    n = Z.of_nat (length rows).

(** The claim on the row count as the specification words it: the data
    rows of an exported table are as many as the [row_count] that
    [get_database_info] reports for it. *)
Definition export_matches_row_count (W : world) (db_path : Path) (table : string)
    (output_path : Path) : Prop :=
  forall s s' v s1 s1' header data_rows version count tables tables_info
         indexes triggers row_count columns,
    export_table_data W db_path table output_path s = (Return v, s') ->
    written s' !! v = Some (CsvFile (header :: data_rows)) ->
    get_database_info W db_path s1
    = (Return (DatabaseInfo version count tables tables_info indexes triggers), s1') ->
    dict_get tables_info table = Some (TableInfo row_count columns) ->
    Z.of_nat (length data_rows) = row_count.


(** The listing of a directory entry. *)
Definition children_of (e : entry) : list entry :=
  match e with File _ => [] | Dir _ cs => cs end.

(** A pattern without [*]. *)
Fixpoint star_free (pat : list ascii) : bool :=
  match pat with
  | [] => true
  | p :: pat' => negb (bool_decide (p = "*"%char)) && star_free pat'
  end.

(** The claim on the walker as the specification words it: no path twice,
    and every path absolute. *)
Definition walker_returns_absolute (W : world) (self : SQLiteForensics) : Prop :=
  NoDup (find_sqlitedb_files W self) /\
  forall p, p ∈ find_sqlitedb_files W self -> is_absolute p = true.

(** The endings that the four patterns of the walker ask for. *)
Definition extensions : list string := [".sqlitedb"; ".sqlite"; ".db"; ".sqlite3"].

(** The name [n] ends with [ext]. *)
Definition ends_with (n ext : string) : Prop :=
  list_ascii_of_string ext `suffix_of` list_ascii_of_string n.

(** ** What the operations compute, read off the world *)

Definition and_then {A B} (o : outcome A) (k : A -> outcome B) : outcome B :=
  match o with
  | Return a => k a
  | Raise e => Raise e
  end.

Definition is_return {A} (o : outcome A) : bool :=
  match o with Return _ => true | Raise _ => false end.

(** The value [calculate_hash] returns, or the exception of [hashlib.new]
    that it lets through. *)
Definition hash_outcome (W : world) (filepath : Path) (hash_type : string) : outcome string :=
  match hashlib_new W hash_type with
  | Raise e => Raise e
  | Return H =>
      Return match open_rb W filepath with
             | OpenError e => error_prefix +:+ e
             | Opened data bad_read =>
                 match feed H bad_read 0 (h_init H) data with
                 | Return st => hexdigest H st
                 | Raise e => error_prefix +:+ e
                 end
             end
  end.

Definition metadata_outcome (W : world) (filepath : Path) : outcome metadata :=
  and_then (os_stat W filepath) (fun stat =>
  and_then (local_time W (st_ctime stat)) (fun created =>
  and_then (local_time W (st_mtime stat)) (fun modified =>
  and_then (local_time W (st_atime stat)) (fun accessed =>
  and_then (hash_outcome W filepath "md5") (fun md5 =>
  and_then (hash_outcome W filepath "sha1") (fun sha1 =>
  and_then (hash_outcome W filepath "sha256") (fun sha256 =>
  Return (mkMetadata (name filepath) (str filepath) (st_size stat)
            created modified accessed md5 sha1 sha256)))))))).

(** The three dates of the metadata, formatted in the order in which the
    dictionary names them. *)
Definition dates_of (W : world) (stat : stat_result) : outcome (string * string * string) :=
  and_then (local_time W (st_ctime stat)) (fun created =>
  and_then (local_time W (st_mtime stat)) (fun modified =>
  and_then (local_time W (st_atime stat)) (fun accessed =>
  Return (created, modified, accessed)))).

(** What the statements of an operation come to, once the connection is
    open. *)
Definition integrity_body (W : world) (db_path : Path) : outcome string :=
  and_then (sql_text W db_path integrity_check_statement) fetchone_0.

Definition table_value (W : world) (db_path : Path) (table : string) : table_entry :=
  match and_then (sql_int W db_path (count_statement table)) fetchone_0 with
  | Raise e => TableError e
  | Return row_count =>
      match sql_table_info W db_path (table_info_statement table) with
      | Raise e => TableError e
      | Return columns => TableInfo row_count columns
      end
  end.

Definition tables_value (W : world) (db_path : Path) (tables : list string)
    (acc : dict table_entry) : dict table_entry :=
  fold_left (fun tables_info table => dict_set tables_info table (table_value W db_path table))
    tables acc.

Definition info_body (W : world) (db_path : Path) : outcome database_info :=
  and_then (and_then (sql_text W db_path version_statement) fetchone_0) (fun version =>
  and_then (sql_text W db_path (names_statement "table")) (fun tables =>
  and_then (sql_text W db_path (names_statement "index")) (fun indexes =>
  and_then (sql_text W db_path (names_statement "trigger")) (fun triggers =>
  Return (DatabaseInfo version (length tables) tables
            (tables_value W db_path tables []) indexes triggers))))).

Definition deleted_body (W : world) (db_path : Path) : outcome deleted_records :=
  and_then (and_then (sql_int W db_path freelist_statement) fetchone_0) (fun n =>
  Return (Freelist n freelist_note)).

(** What the export has to write, when its two statements succeed. *)
Definition export_body (W : world) (db_path : Path) (table_name : string)
    : outcome file_content :=
  and_then (sql_rows W db_path (select_all_statement table_name)) (fun rows =>
  and_then (sql_table_info W db_path (table_info_statement table_name)) (fun infos =>
  Return (CsvFile (map VText (map cname infos) :: rows)))).

(** The value an operation returns: that of its body, or the error made
    of the exception of the connection or of the body. *)
Definition guarded {A} (W : world) (db_path : Path) (body : outcome A)
    (on_error : exn -> A) : A :=
  match connect_error W db_path with
  | Some e => on_error e
  | None => match body with Return a => a | Raise e => on_error e end
  end.

Definition integrity_value (W : world) (db_path : Path) : string :=
  guarded W db_path (integrity_body W db_path) (fun e => error_prefix +:+ e).

Definition info_value (W : world) (db_path : Path) : database_info :=
  guarded W db_path (info_body W db_path) DatabaseInfoError.

Definition deleted_value (W : world) (db_path : Path) : deleted_records :=
  guarded W db_path (deleted_body W db_path) DeletedError.

(** The whole of the export: the statements, then the file. *)
Definition export_outcome (W : world) (db_path : Path) (table_name : string)
    (output_path : Path) : outcome file_content :=
  and_then (export_body W db_path table_name) (fun content =>
  match open_w_error W (csv_path_of db_path table_name output_path) with
  | Some e => Raise e
  | None =>
      match write_error W (csv_path_of db_path table_name output_path) content with
      | Some e => Raise e
      | None => Return content
      end
  end).

Definition export_value (W : world) (db_path : Path) (table_name : string)
    (output_path : Path) : string :=
  guarded W db_path
    (and_then (export_outcome W db_path table_name output_path) (fun _ =>
     Return (str (csv_path_of db_path table_name output_path))))
    (fun e => export_error_prefix +:+ e).

(** The dictionary of the exported tables, filled table by table. *)
Definition exports_value (W : world) (db_path : Path) (tables : list string)
    (output_path : Path) (acc : dict string) : dict string :=
  fold_left
    (fun exported_tables table =>
       dict_set exported_tables table (export_value W db_path table output_path))
    tables acc.

(** The state after [connect]: one more connection, and the file made if
    there was none. *)
Definition connected (W : world) (db_path : Path) (s : state) : state :=
  mkState (next_conn s :: open_conns s) (S (next_conn s))
    (if present W s db_path then written s
     else <[ str db_path := EmptyFile ]> (written s))
    (made_dirs s).

(** The state after [close] on the handle [h]. *)
Definition closed (h : nat) (s : state) : state :=
  mkState (List.filter (fun h' => negb (bool_decide (h' = h))) (open_conns s))
    (next_conn s) (written s) (made_dirs s).

(** The state after an operation that only reads: [close] is reached when
    the body did not raise. *)
Definition after_conn (W : world) (db_path : Path) (reaches_close : bool) (s : state)
    : state :=
  match connect_error W db_path with
  | Some _ => s
  | None =>
      if reaches_close then closed (next_conn s) (connected W db_path s)
      else connected W db_path s
  end.

(** The state with the file at [p] holding [content]. *)
Definition with_file (p : Path) (content : file_content) (s : state) : state :=
  mkState (open_conns s) (next_conn s) (<[ str p := content ]> (written s)) (made_dirs s).

(** The state after an export. *)
Definition after_export (W : world) (db_path : Path) (table_name : string)
    (output_path : Path) (s : state) : state :=
  let csv_path := csv_path_of db_path table_name output_path in
  match connect_error W db_path with
  | Some _ => s
  | None =>
      match export_body W db_path table_name with
      | Raise _ => connected W db_path s
      | Return content =>
          match open_w_error W csv_path with
          | Some _ => connected W db_path s
          | None =>
              match write_error W csv_path content with
              | Some _ => with_file csv_path (Partial content) (connected W db_path s)
              | None =>
                  closed (next_conn s)
                    (with_file csv_path content (connected W db_path s))
              end
          end
      end
  end.

(** The loop over the tables: the dictionary it builds, unless the console
    refuses the line of a table. *)
Fixpoint exports_outcome (W : world) (db_path output_path : Path)
    (tables : list string) (acc : dict string) : outcome (dict string) :=
  match tables with
  | [] => Return acc
  | table :: tables' =>
      and_then (said W ("  Експортовано: " +:+ table)) (fun _ =>
      exports_outcome W db_path output_path tables'
        (dict_set acc table (export_value W db_path table output_path)))
  end.

Definition analysis_outcome (W : world) (self : SQLiteForensics) (db_path : Path)
    : outcome db_report :=
  and_then (said W (nl +:+ times 60 "=")) (fun _ =>
  and_then (said W ("Аналіз: " +:+ name db_path)) (fun _ =>
  and_then (said W (times 60 "=")) (fun _ =>
  and_then (said W "- Збір метаданих файлу...") (fun _ =>
  and_then (metadata_outcome W db_path) (fun md =>
  and_then (said W "- Перевірка цілісності бази даних...") (fun _ =>
  and_then (said W "- Аналіз структури бази даних...") (fun _ =>
  and_then (said W "- Пошук видалених записів...") (fun _ =>
  and_then
    match info_value W db_path with
    | DatabaseInfo _ _ tables _ _ _ =>
        and_then (said W "- Експорт даних таблиць...") (fun _ =>
        match mkdir_error W (truediv (output_dir self) "exported_data") with
        | Some e => Raise e
        | None =>
            and_then
              (exports_outcome W db_path (truediv (output_dir self) "exported_data")
                 tables [])
              (fun exported_tables => Return (Some exported_tables))
        end)
    | DatabaseInfoError _ => Return None
    end (fun exported =>
  Return (mkDbReport md (integrity_value W db_path) (info_value W db_path)
            (deleted_value W db_path) exported)))))))))).

(** The entry that the loop of [generate_report] files for a path. *)
Definition artifact_of (o : outcome db_report) : artifact :=
  match o with
  | Return r => Analysed r
  | Raise e => Failed e
  end.

(** The line of the handler of [generate_report]. *)
Definition handler_line (db_file : Path) (e : exn) : string :=
  "Помилка при аналізі " +:+ name db_file +:+ ": " +:+ e.

(** The loop over the files: the mapping it builds, unless the console
    refuses the line of the handler. *)
Fixpoint entries_outcome (W : world) (self : SQLiteForensics) (db_files : list Path)
    (dbs : dict artifact) : outcome (dict artifact) :=
  match db_files with
  | [] => Return dbs
  | db_file :: db_files' =>
      and_then
        match analysis_outcome W self db_file with
        | Return _ => Return tt
        | Raise e => said W (handler_line db_file e)
        end (fun _ =>
      entries_outcome W self db_files'
        (dict_set dbs (str db_file) (artifact_of (analysis_outcome W self db_file))))
  end.

(** ** A small evidence directory, used to run the definitions *)

Module Sample.

(** Any function of the whole message gives a [Hasher]: buffer, then hash. *)
Definition buffering (f : list byte -> list byte) : Hasher :=
  mkHasher (list byte) [] (fun s b => s ++ b) f
    (fun s a b => eq_sym (app_assoc s a b)) (@app_nil_r byte).

Definition byte_of (n : N) : byte :=
  match Byte.of_N (n mod 256) with Some b => b | None => x00 end.

(** A two-byte checksum: the sum of the bytes and their number. *)
Definition checksum (bs : list byte) : list byte :=
  [byte_of (fold_right (fun b acc => (Byte.to_N b + acc)%N) 0%N bs);
   byte_of (N.of_nat (length bs))].

(** The files of the sample are described by their tables; the answers of
    the engine are read off the description.  [t_broken] is set for a
    table on which every statement raises (a virtual table whose module
    is missing). *)
Record table := mkTable {
  t_name : string;
  t_columns : list column;
  t_rows : list (list value);
  t_broken : option exn
}.

Record database := mkDatabase {
  d_check : list string;
  d_tables : list table;
  d_indexes : list string;
  d_triggers : list string;
  d_freelist : Z
}.

(** A file of the sample as the engine sees it: no database at all, every
    statement that reads it raising, or a database. *)
Inductive image :=
| NotADatabase (e : exn)
| Database (d : database).

(** The table that a statement names, [make] being the way the script
    writes the statement for a table. *)
Definition asked (make : string -> string) (statement : string) (d : database)
    : option table :=
  List.find (fun t => bool_decide (make (t_name t) = statement)) (d_tables d).

Definition unknown_statement : exn := "no such table".

Definition text_rows (i : image) (statement : string) : outcome (list string) :=
  if bool_decide (statement = version_statement) then Return ["3.45.1"]
  else
    match i with
    | NotADatabase e => Raise e
    | Database d =>
        if bool_decide (statement = integrity_check_statement) then Return (d_check d)
        else if bool_decide (statement = names_statement "table")
        then Return (map t_name (d_tables d))
        else if bool_decide (statement = names_statement "index")
        then Return (d_indexes d)
        else if bool_decide (statement = names_statement "trigger")
        then Return (d_triggers d)
        else Raise unknown_statement
    end.

Definition int_rows (i : image) (statement : string) : outcome (list Z) :=
  match i with
  | NotADatabase e => Raise e
  | Database d =>
      if bool_decide (statement = freelist_statement) then Return [d_freelist d]
      else
        match asked count_statement statement d with
        | Some t =>
            match t_broken t with
            | Some e => Raise e
            | None => Return [Z.of_nat (length (t_rows t))]
            end
        | None => Raise unknown_statement
        end
  end.

Definition table_info_rows (i : image) (statement : string) : outcome (list column) :=
  match i with
  | NotADatabase e => Raise e
  | Database d =>
      match asked table_info_statement statement d with
      | Some t =>
          match t_broken t with
          | Some e => Raise e
          | None => Return (t_columns t)
          end
      | None => Return []
      end
  end.

Definition select_rows (i : image) (statement : string) : outcome (list (list value)) :=
  match i with
  | NotADatabase e => Raise e
  | Database d =>
      match asked select_all_statement statement d with
      | Some t =>
          match t_broken t with
          | Some e => Raise e
          | None => Return (t_rows t)
          end
      | None => Raise unknown_statement
      end
  end.

Definition users : table :=
  mkTable "users"
    [mkColumn 0 "id" "INTEGER" 0 None 1; mkColumn 1 "name" "TEXT" 0 None 0]
    [[VInt 1; VText "ann"]; [VInt 2; VText "bob"]; [VInt 3; VText "eve"]]
    None.

Definition empty_log : table :=
  mkTable "log" [mkColumn 0 "line" "TEXT" 0 None 0] [] None.

Definition fts : table :=
  mkTable "fts" [] [] (Some "no such module: fts9").

Definition good_db : database :=
  mkDatabase ["ok"] [users; empty_log; fts] ["idx_users"] [] 0.

Definition other_users : table :=
  mkTable "users"
    [mkColumn 0 "id" "INTEGER" 0 None 1; mkColumn 1 "name" "TEXT" 0 None 0]
    [[VInt 7; VText "zoe"]]
    None.

Definition damaged_db : database :=
  mkDatabase ["*** in database main ***"; "Page 3 is never used"]
    [other_users] [] [] 2.

Definition abs_root : Path := of_str "/evidence".
Definition rel_root : Path := of_str "evidence".

Definition tree : list entry :=
  [Dir "a" [File "app.db"]; Dir "b" [File "app.db"]; File "notes.sqlite";
   File "gone.db"; File "readme.txt"].

Definition is_path (p : Path) (s : string) : bool := bool_decide (str p = s).

(** A path at which there is no file gets an empty database. *)
Definition image_of (p : Path) : image :=
  if is_path p "/evidence/a/app.db" then Database good_db
  else if is_path p "/evidence/b/app.db" then Database damaged_db
  else if is_path p "/evidence/new.db" then Database (mkDatabase ["ok"] [] [] [] 0)
  else NotADatabase "file is not a database".

Definition W : world :=
  {| scandir_tree p := if is_path p "/evidence" || is_path p "evidence" then tree else [];
     os_stat p :=
       if is_path p "/evidence/gone.db"
       then Raise "[Errno 2] No such file or directory: '/evidence/gone.db'"
       else Return (mkStat 8192 1700000000 1700000500 1700000900);
     open_rb p :=
       if is_path p "/evidence/b/app.db" then OpenError "[Errno 13] Permission denied"
       else if is_path p "/evidence/notes.sqlite"
            then Opened ["n"; "o"; "t"; "e"]%byte (Some (1%nat, "[Errno 5] Input/output error"))
            else Opened ["S"; "Q"; "L"; "i"; "t"; "e"]%byte None;
     hashlib_new t :=
       if bool_decide (t = "md5") || bool_decide (t = "sha1") || bool_decide (t = "sha256")
       then Return (buffering checksum)
       else Raise ("unsupported hash type " +:+ t);
     file_exists p :=
       is_path p "/evidence/a/app.db" || is_path p "/evidence/b/app.db"
       || is_path p "/evidence/notes.sqlite" || is_path p "/evidence/readme.txt";
     connect_error p :=
       if is_path p "/evidence/locked.db" then Some "unable to open database file"
       else None;
     sql_text p := text_rows (image_of p);
     sql_int p := int_rows (image_of p);
     sql_table_info p := table_info_rows (image_of p);
     sql_rows p := select_rows (image_of p);
     local_time _ := Return "2023-11-14 22:13:20";
     now_strftime fmt :=
       if bool_decide (fmt = "%Y%m%d_%H%M%S") then "20251107_101500"
       else "2025-11-07 10:15:00";
     mkdir_error _ := None;
     open_w_error _ := None;
     write_error _ _ := None;
     print_error _ := None;
     resolve p := p;
     script_dir := of_str "/opt/tools" |}.

Definition s0 : state := mkState [] 0 ∅ ∅.

Definition self_abs : SQLiteForensics := mkSelf abs_root (of_str "/opt/tools/forensic_report").
Definition self_rel : SQLiteForensics := mkSelf rel_root (of_str "/opt/tools/forensic_report").
Definition self_none : SQLiteForensics := mkSelf (of_str "/empty") (of_str "/opt/tools/forensic_report").

End Sample.

(** ** Variations on the sample directory *)

Module Cases.

(** A world that differs from [W] in the fields given. *)
Definition on_disk (W : world) (open_w : Path -> option exn)
    (write : Path -> file_content -> option exn) (mk : Path -> option exn) : world :=
  {| scandir_tree := scandir_tree W; os_stat := os_stat W; open_rb := open_rb W;
     hashlib_new := hashlib_new W; file_exists := file_exists W;
     connect_error := connect_error W; sql_text := sql_text W; sql_int := sql_int W;
     sql_table_info := sql_table_info W; sql_rows := sql_rows W;
     local_time := local_time W; now_strftime := now_strftime W;
     mkdir_error := mk; open_w_error := open_w; write_error := write;
     print_error := print_error W; resolve := resolve W; script_dir := script_dir W |}.

Definition with_engine (W : world)
    (text : Path -> string -> outcome (list string))
    (int : Path -> string -> outcome (list Z)) : world :=
  {| scandir_tree := scandir_tree W; os_stat := os_stat W; open_rb := open_rb W;
     hashlib_new := hashlib_new W; file_exists := file_exists W;
     connect_error := connect_error W; sql_text := text; sql_int := int;
     sql_table_info := sql_table_info W; sql_rows := sql_rows W;
     local_time := local_time W; now_strftime := now_strftime W;
     mkdir_error := mkdir_error W; open_w_error := open_w_error W;
     write_error := write_error W; print_error := print_error W;
     resolve := resolve W; script_dir := script_dir W |}.

Definition with_library (W : world) (new : string -> outcome Hasher)
    (time : Z -> outcome string) (console : string -> option exn) : world :=
  {| scandir_tree := scandir_tree W; os_stat := os_stat W; open_rb := open_rb W;
     hashlib_new := new; file_exists := file_exists W;
     connect_error := connect_error W; sql_text := sql_text W; sql_int := sql_int W;
     sql_table_info := sql_table_info W; sql_rows := sql_rows W;
     local_time := time; now_strftime := now_strftime W;
     mkdir_error := mkdir_error W; open_w_error := open_w_error W;
     write_error := write_error W; print_error := console;
     resolve := resolve W; script_dir := script_dir W |}.

(** The sample world on a disk that is full when the snapshot is opened. *)
Definition full_disk : world :=
  on_disk Sample.W
    (fun p => if bool_decide (name p = "forensic_report_20251107_101500.json")
              then Some "[Errno 28] No space left on device" else None)
    (write_error Sample.W) (mkdir_error Sample.W).

(** The sample world in which the snapshot opens and its text does not
    encode. *)
Definition no_encoding : world :=
  on_disk Sample.W (open_w_error Sample.W)
    (fun p _ => if bool_decide (name p = "forensic_report_20251107_101500.json")
                then Some "'utf-8' codec can't encode character '\udcff'"
                else None)
    (mkdir_error Sample.W).

(** The sample world in which the report directory cannot be made. *)
Definition no_report_dir : world :=
  on_disk Sample.W (open_w_error Sample.W) (write_error Sample.W)
    (fun p => if bool_decide (name p = "forensic_report")
              then Some "[Errno 13] Permission denied" else None).

(** The sample world with a [hashlib] that knows no algorithm. *)
Definition no_digest : world :=
  with_library Sample.W (fun t => Raise ("unsupported hash type " +:+ t))
    (local_time Sample.W) (print_error Sample.W).

(** The sample world with files stamped in a year that no date reaches. *)
Definition no_date : world :=
  with_library Sample.W (hashlib_new Sample.W)
    (fun _ => Raise "year 33658 is out of range") (print_error Sample.W).

(** The sample world on a console that does not take the name of the
    vanished file. *)
Definition no_console : world :=
  with_library Sample.W (hashlib_new Sample.W) (local_time Sample.W)
    (fun line =>
       if bool_decide (line = "Аналіз: gone.db")
          || String.prefix "Помилка при аналізі gone.db" line
       then Some "'charmap' codec can't encode characters" else None).

(** The sample world in which a page of [/evidence/a/app.db] is damaged:
    the catalog reads, and the consistency check itself raises. *)
Definition malformed_page : world :=
  with_engine Sample.W
    (fun p statement =>
       if Sample.is_path p "/evidence/a/app.db"
          && bool_decide (statement = integrity_check_statement)
       then Raise "database disk image is malformed"
       else sql_text Sample.W p statement)
    (sql_int Sample.W).

(** The sample world in which the index of [users] in
    [/evidence/a/app.db] is damaged: the count is answered from the
    index, which holds no entry, the rows are read from the table. *)
Definition damaged_index : world :=
  with_engine Sample.W (sql_text Sample.W)
    (fun p statement =>
       if Sample.is_path p "/evidence/a/app.db"
          && bool_decide (statement = count_statement "users")
       then Return [0%Z]
       else sql_int Sample.W p statement).

(** [main] with the constant left empty and a directory on the command
    line; only [/evidence] and [/empty] exist. *)
Definition run_on (directory : string) : invocation :=
  mkInvocation "" ["sqlite_forensics.py"; directory] ""
    (fun p => bool_decide (p = "/evidence") || bool_decide (p = "/empty")).

End Cases.

(** * Properties *)

(** ** The definitions at work *)

Example stem_ex1 : stem (of_str "/evidence/a/app.db") = "app".
Proof. reflexivity. Qed.
Example stem_ex2 : stem (of_str "x/.db") = ".db".
Proof. reflexivity. Qed.
Example stem_ex3 : stem (of_str "x/a.tar.gz") = "a.tar".
Proof. reflexivity. Qed.
Example str_ex : str (truediv (of_str "out/./exported_data//") "app_users.csv") = "out/exported_data/app_users.csv".
Proof. reflexivity. Qed.
Example root_ex :
  str (of_str "//server/share") = "//server/share" /\
  str (of_str "///evidence") = "/evidence".
Proof. split; reflexivity. Qed.
Example fnmatch_ex : fnmatch "sms.sqlitedb" "*.sqlitedb" = true /\ fnmatch "sms.sqlitedb" "*.db" = false /\ fnmatch ".db" "*.db" = true.
Proof. repeat split. Qed.
Example walk_ex :
  walk [File "a.db"; Dir "d" [File "b.db"; Dir "e" [File "c"]]; File "z"]
  = [["a.db"]; ["d"]; ["z"]; ["d"; "b.db"]; ["d"; "e"]; ["d"; "e"; "c"]].
Proof. reflexivity. Qed.

(** A file of two chunks and 808 bytes is read in three reads, and a
    fourth read finds the end; a read that would fail only matters when
    the loop gets to it. *)
Example feed_three_chunks :
  feed (Sample.buffering Sample.checksum) None 0 []
    (repeat "a"%byte (chunk_size + chunk_size + 808))
  = Return (repeat "a"%byte (chunk_size + chunk_size + 808)).
Proof. vm_compute. reflexivity. Qed.

Example feed_second_read_fails :
  feed (Sample.buffering Sample.checksum) (Some (1%nat, "io")) 0 [] (repeat "a"%byte 4100)
  = Raise "io" /\
  feed (Sample.buffering Sample.checksum) (Some (2%nat, "io")) 0 [] (repeat "a"%byte 100)
  = Return (repeat "a"%byte 100).
Proof. split; vm_compute; reflexivity. Qed.

(** Without an output directory the reports go under the script's own. *)
Example init_default_output :
  fst (init Sample.W "/evidence" None Sample.s0)
  = Return (mkSelf (of_str "/evidence") (of_str "/opt/tools/forensic_report")).
Proof. reflexivity. Qed.

(** The lines of the script, as they are printed. *)
Example lines_ex :
  decimal 0 = "0" /\ decimal 42 = "42" /\ times 3 "=" = "===" /\
  count_statement "it's" = "SELECT COUNT(*) FROM 'it's';".
Proof. repeat split. Qed.

(** The sample run: the text file and the damaged database are filed, the
    vanished file is an error entry. *)
Example sample_run_entries :
  match fst (generate_report Sample.W Sample.self_abs Sample.s0) with
  | Return (Some r) =>
      map (fun kv => (kv.1, match kv.2 with
                            | Analysed a => r_integrity a
                            | Failed e => "error" end)) (databases r)
  | _ => []
  end
  = [("/evidence/notes.sqlite", "Помилка: file is not a database");
     ("/evidence/gone.db", "error");
     ("/evidence/a/app.db", "ok");
     ("/evidence/b/app.db", "*** in database main ***")].
Proof. vm_compute. reflexivity. Qed.

(** On a console that does not take the name of a file, the analysis of
    that file raises, the handler raises in its turn, and the run ends
    there: no report is returned and none is written. *)
Example sample_run_aborts :
  generate_report Cases.no_console Sample.self_abs Sample.s0
  = (Raise "'charmap' codec can't encode characters",
     snd (analyze_database Cases.no_console Sample.self_abs
            (of_str "/evidence/notes.sqlite") Sample.s0)).
Proof. vm_compute. reflexivity. Qed.

(** ** Strings and paths *)

Lemma list_ascii_of_string_app (a b : string) :
  list_ascii_of_string (a +:+ b) = list_ascii_of_string a ++ list_ascii_of_string b.
Proof. induction a as [|c a IH]; [reflexivity|]. simpl. now rewrite IH. Qed.

Lemma string_app_cons (x : ascii) (a b : string) :
  String x a +:+ b = String x (a +:+ b).
Proof. reflexivity. Qed.

Lemma string_app_assoc (a b c : string) : (a +:+ b) +:+ c = a +:+ (b +:+ c).
Proof.
  induction a as [|x a IH]; [reflexivity|].
  rewrite !string_app_cons. now rewrite IH.
Qed.

Lemma string_app_nil_r (a : string) : a +:+ "" = a.
Proof.
  induction a as [|x a IH]; [reflexivity|].
  rewrite string_app_cons. now rewrite IH.
Qed.

Lemma string_app_inv_tail (a b c : string) : a +:+ c = b +:+ c -> a = b.
Proof.
  intros Heq. apply (f_equal list_ascii_of_string) in Heq.
  rewrite !list_ascii_of_string_app in Heq. apply app_inv_tail in Heq.
  rewrite <- (string_of_list_ascii_of_string a), <- (string_of_list_ascii_of_string b).
  now rewrite Heq.
Qed.

Lemma prefix_app (p e : string) : String.prefix p (p +:+ e) = true.
Proof.
  induction p as [|c p IH]; simpl; [now destruct e|].
  destruct (ascii_dec c c); [exact IH | congruence].
Qed.

Lemma slash_free_app (a b : string) :
  slash_free (a +:+ b) = slash_free a && slash_free b.
Proof. unfold slash_free. now rewrite list_ascii_of_string_app, forallb_app. Qed.

Lemma slash_free_cons (c : ascii) (a : string) :
  slash_free (String c a) = true -> c <> slash /\ slash_free a = true.
Proof.
  unfold slash_free. cbn [list_ascii_of_string forallb]. intros H.
  apply andb_prop in H as [Hc Ha]. apply negb_true_iff, bool_decide_eq_false in Hc.
  now split.
Qed.

(** Splitting goes through a leading piece that holds no slash. *)
Lemma split_go_slash_free (a acc r : string) :
  slash_free a = true -> split_go acc (a +:+ r) = split_go (acc +:+ a) r.
Proof.
  revert acc. induction a as [|c a IH]; intros acc Hfree.
  - change ("" +:+ r) with r. now rewrite string_app_nil_r.
  - unfold slash_free in Hfree. cbn [list_ascii_of_string forallb] in Hfree.
    apply andb_prop in Hfree as [Hc Ha]. apply negb_true_iff, bool_decide_eq_false in Hc.
    rewrite string_app_cons. cbn [split_go].
    destruct (decide (c = slash)) as [|_]; [contradiction|].
    rewrite (IH _ Ha). now rewrite string_app_assoc.
Qed.

(** The piece being read only ever grows at its end. *)
Lemma split_go_acc (acc r : string) :
  exists c0 tl, split_go "" r = c0 :: tl /\ split_go acc r = (acc +:+ c0) :: tl.
Proof.
  revert acc. induction r as [|c r IH]; intros acc.
  - exists "", []. cbn [split_go]. now rewrite string_app_nil_r.
  - cbn [split_go]. destruct (decide (c = slash)).
    + exists "", (split_go "" r). now rewrite string_app_nil_r.
    + destruct (IH (String c "")) as (c0 & tl & H0 & H1).
      destruct (IH (acc +:+ String c "")) as (c0' & tl' & H0' & H1').
      rewrite H0 in H0'. injection H0' as <- <-.
      exists (String c "" +:+ c0), tl. split; [exact H1|].
      rewrite H1'. now rewrite string_app_assoc.
Qed.

Lemma kept_stem (st c0 : string) : kept ((st +:+ "_") +:+ c0) = true.
Proof.
  unfold kept. apply andb_true_intro.
  split; apply negb_true_iff, bool_decide_eq_false;
    destruct st as [|x [|y st]]; cbv [String.append]; discriminate.
Qed.

(** The components of [<stem>_<rest>]: the first one starts with the stem
    and the underscore, the others come from [rest] alone. *)
Lemma parse_parts_stem (st rest : string) :
  slash_free st = true ->
  exists c0 tl,
    (forall st', slash_free st' = true ->
       parse_parts (st' +:+ "_" +:+ rest) = ((st' +:+ "_") +:+ c0) :: tl) /\
    parse_parts (st +:+ "_" +:+ rest) = ((st +:+ "_") +:+ c0) :: tl.
Proof.
  intros Hfree.
  destruct (split_go_acc "" rest) as (c0 & tl & H0 & _).
  exists c0, (List.filter kept tl).
  assert (Hall : forall st', slash_free st' = true ->
            parse_parts (st' +:+ "_" +:+ rest) = ((st' +:+ "_") +:+ c0) :: List.filter kept tl).
  { intros st' Hfree'. unfold parse_parts, split_slash.
    rewrite (split_go_slash_free st' "" _ Hfree').
    change ("" +:+ st') with st'. change ("_" +:+ rest) with (String "_" rest).
    cbn [split_go]. destruct (decide ("_"%char = slash)) as [|_]; [discriminate|].
    destruct (split_go_acc (st' +:+ "_") rest) as (c0' & tl' & H0' & H1').
    rewrite H0 in H0'. injection H0' as <- <-. rewrite H1'.
    cbn [List.filter].
    now rewrite kept_stem. }
  split; [exact Hall | now apply Hall].
Qed.

Lemma stem_name_relative (st rest : string) :
  slash_free st = true -> String.prefix "/" (st +:+ "_" +:+ rest) = false.
Proof.
  destruct st as [|c st]; [reflexivity|].
  unfold slash_free. cbn [list_ascii_of_string forallb]. intros Hfree.
  apply andb_prop in Hfree as [Hc _]. apply negb_true_iff, bool_decide_eq_false in Hc.
  rewrite string_app_cons. cbn [String.prefix].
  destruct (ascii_dec "/" c) as [<-|]; [now contradiction Hc | reflexivity].
Qed.

Lemma join_cons (x : string) (l : list string) :
  l <> [] -> join "/" (x :: l) = x +:+ "/" +:+ join "/" l.
Proof. now destruct l. Qed.

Lemma join_prefix_inj (pre : list string) (h1 h2 : string) (tl : list string) :
  join "/" (pre ++ h1 :: tl) = join "/" (pre ++ h2 :: tl) -> h1 = h2.
Proof.
  induction pre as [|x pre IH]; cbn [app].
  - destruct tl as [|t tl]; [now cbn|].
    rewrite !join_cons by discriminate. apply string_app_inv_tail.
  - rewrite !join_cons by (now destruct pre). intros Heq.
    apply IH. now repeat apply String.app_inj in Heq.
Qed.

(** Two texts that agree up to and after their first slash agree. *)
Lemma first_slash_inj (x y u v : string) :
  slash_free x = true -> slash_free y = true ->
  x +:+ "/" +:+ u = y +:+ "/" +:+ v -> x = y /\ u = v.
Proof.
  revert y. induction x as [|a x IH]; intros [|c y] Hx Hy Heq.
  - change (String "/" u = String "/" v) in Heq. injection Heq as ->. now split.
  - change (String "/" u = String c (y +:+ "/" +:+ v)) in Heq.
    apply slash_free_cons in Hy as [Hc _]. injection Heq as Hhd _. now subst c.
  - change (String a (x +:+ "/" +:+ u) = String "/" v) in Heq.
    apply slash_free_cons in Hx as [Ha _]. injection Heq as Hhd _. now subst a.
  - change (String a (x +:+ "/" +:+ u) = String c (y +:+ "/" +:+ v)) in Heq.
    apply slash_free_cons in Hx as [_ Hx]. apply slash_free_cons in Hy as [_ Hy].
    injection Heq as -> Heq. destruct (IH y Hx Hy Heq) as [-> ->]. now split.
Qed.

Lemma join_slash_free_inj (l1 l2 : list string) :
  l1 <> [] -> l2 <> [] ->
  forallb slash_free l1 = true -> forallb slash_free l2 = true ->
  join "/" l1 = join "/" l2 -> l1 = l2.
Proof.
  revert l2. induction l1 as [|x l1 IH]; intros [|y l2] Hn1 Hn2 Hf1 Hf2 Heq;
    try congruence.
  cbn [forallb] in Hf1, Hf2.
  apply andb_prop in Hf1 as [Hx Hf1]. apply andb_prop in Hf2 as [Hy Hf2].
  destruct l1 as [|x' l1], l2 as [|y' l2].
  - cbn in Heq. now subst.
  - rewrite (join_cons y) in Heq by discriminate. cbn [join] in Heq. subst x.
    rewrite slash_free_app in Hx. apply andb_prop in Hx as [_ Hx].
    rewrite slash_free_app in Hx. discriminate Hx.
  - rewrite (join_cons x) in Heq by discriminate. cbn [join] in Heq. subst y.
    rewrite slash_free_app in Hy. apply andb_prop in Hy as [_ Hy].
    rewrite slash_free_app in Hy. discriminate Hy.
  - rewrite (join_cons x), (join_cons y) in Heq by discriminate.
    apply first_slash_inj in Heq as [-> Heq]; [|assumption..].
    f_equal. now apply IH.
Qed.

Lemma join_common_prefix_inj (base l1 l2 : list string) :
  l1 <> [] -> l2 <> [] ->
  forallb slash_free l1 = true -> forallb slash_free l2 = true ->
  join "/" (base ++ l1) = join "/" (base ++ l2) -> l1 = l2.
Proof.
  intros Hn1 Hn2 Hf1 Hf2. induction base as [|x base IH]; cbn [app].
  - now apply join_slash_free_inj.
  - rewrite !join_cons by (destruct base; [assumption | discriminate]).
    intros Heq. apply IH. now repeat apply String.app_inj in Heq.
Qed.

Lemma str_nonempty_parts (r : string) (ps : list string) (x : string) (tl : list string) :
  str (mkPath r (ps ++ x :: tl)) = r +:+ join "/" (ps ++ x :: tl).
Proof. unfold str. cbn [parts root]. now destruct ps. Qed.

Lemma split_slash_single (n : string) : slash_free n = true -> split_slash n = [n].
Proof.
  intros Hfree. unfold split_slash.
  rewrite <- (string_app_nil_r n) at 1.
  now rewrite (split_go_slash_free n "" "" Hfree).
Qed.

Lemma slash_free_relative (n : string) : slash_free n = true -> String.prefix "/" n = false.
Proof.
  destruct n as [|c n]; [reflexivity|]. intros Hfree.
  apply slash_free_cons in Hfree as [Hc _]. cbn [String.prefix].
  destruct (ascii_dec "/" c) as [<-|]; [now contradiction Hc | reflexivity].
Qed.

Lemma truediv_single (out : Path) (n : string) :
  slash_free n = true -> kept n = true ->
  truediv out n = mkPath (root out) (parts out ++ [n]).
Proof.
  intros Hfree Hkept. unfold truediv, of_str, root_of, is_absolute, parse_parts.
  rewrite (slash_free_relative n Hfree), (split_slash_single n Hfree).
  cbn [root parts List.filter]. rewrite Hkept.
  now rewrite bool_decide_eq_true_2 by reflexivity.
Qed.

Lemma report_name_single (out : Path) (stem_ ts ext : string) (c c' : ascii) (tl : string) :
  stem_ = String c (String c' tl) ->
  slash_free stem_ = true -> slash_free ts = true -> slash_free ext = true ->
  truediv out (stem_ +:+ ts +:+ ext)
  = mkPath (root out) (parts out ++ [stem_ +:+ ts +:+ ext]).
Proof.
  intros -> Hs Hts Hext. apply truediv_single.
  - rewrite !slash_free_app. now rewrite Hs, Hts, Hext.
  - unfold kept. rewrite !string_app_cons.
    now rewrite !bool_decide_eq_false_2 by discriminate.
Qed.

(** ** Dictionaries *)

Lemma dict_get_set_eq {V} (d : dict V) (k : string) (v : V) :
  dict_get (dict_set d k v) k = Some v.
Proof.
  induction d as [|[k' v'] d IH]; cbn [dict_set dict_get].
  - now rewrite decide_True.
  - destruct (decide (k' = k)) as [->|Hne]; cbn [dict_get].
    + now rewrite decide_True.
    + now rewrite decide_False.
Qed.

Lemma dict_get_set_ne {V} (d : dict V) (k k' : string) (v : V) :
  k <> k' -> dict_get (dict_set d k v) k' = dict_get d k'.
Proof.
  intros Hne. induction d as [|[k0 v0] d IH]; cbn [dict_set dict_get].
  - now rewrite decide_False.
  - destruct (decide (k0 = k)) as [->|Hne0]; cbn [dict_get].
    + now rewrite !decide_False.
    + destruct (decide (k0 = k')); [reflexivity | exact IH].
Qed.

Lemma dict_keys_set {V} (d : dict V) (k : string) (v : V) :
  dict_keys (dict_set d k v)
  = if bool_decide (k ∈ dict_keys d) then dict_keys d else dict_keys d ++ [k].
Proof.
  unfold dict_keys. induction d as [|[k' v'] d IH]; [reflexivity|].
  cbn [dict_set]. destruct (decide (k' = k)) as [->|Hne].
  - cbn [map fst]. rewrite bool_decide_eq_true_2 by left. reflexivity.
  - cbn [map fst] in *. rewrite IH.
    destruct (bool_decide (k ∈ map fst d)) eqn:Hk.
    + apply bool_decide_eq_true in Hk.
      rewrite bool_decide_eq_true_2 by (now right). reflexivity.
    + apply bool_decide_eq_false in Hk.
      rewrite bool_decide_eq_false_2; [reflexivity|].
      rewrite elem_of_cons. intros [?|?]; [congruence | contradiction].
Qed.

Lemma dict_set_NoDup {V} (d : dict V) (k : string) (v : V) :
  NoDup (dict_keys d) -> NoDup (dict_keys (dict_set d k v)).
Proof.
  intros Hd. rewrite dict_keys_set.
  destruct (bool_decide (k ∈ dict_keys d)) eqn:Hk; [exact Hd|].
  apply bool_decide_eq_false in Hk.
  apply NoDup_app. split; [exact Hd|]. split; [|apply NoDup_singleton].
  intros x Hx Hx'. apply list_elem_of_singleton in Hx'. now subst x.
Qed.

Lemma dict_set_keys_elem {V} (d : dict V) (k k' : string) (v : V) :
  k' ∈ dict_keys (dict_set d k v) <-> k' = k \/ k' ∈ dict_keys d.
Proof.
  rewrite dict_keys_set. destruct (bool_decide (k ∈ dict_keys d)) eqn:Hk.
  - apply bool_decide_eq_true in Hk. split; [now right|].
    intros [->|?]; assumption.
  - rewrite elem_of_app, list_elem_of_singleton. tauto.
Qed.




(** ** The monad and the connections *)

Ltac unfold_monad :=
  unfold bind, ret, lift, raise, try_except in *.

(** One step of a sequence: the first operation is run by an equation. *)
Ltac step_with H := unfold bind at 1; rewrite H.

Lemma print_run (W : world) (line : string) (s : state) :
  print W line s = (said W line, s).
Proof. reflexivity. Qed.

Lemma said_accepted (W : world) (line : string) :
  console_accepts W -> said W line = Return tt.
Proof. intros Hok. unfold said. now rewrite Hok. Qed.

Lemma said_refused (W : world) (line : string) (e : exn) :
  said W line = Raise e -> print_error W line = Some e.
Proof. unfold said. destruct (print_error W line); [now intros [= ->] | discriminate]. Qed.

Lemma head_is_open (h : nat) (l : list nat) : bool_decide (h ∈ h :: l) = true.
Proof. apply bool_decide_eq_true_2. left. Qed.

(** Right after [sqlite3.connect] a statement gets the answer of the world. *)
Lemma execute_connected {A} (W : world) (p : Path)
    (answer : Path -> string -> outcome A) (statement : string) (s : state) :
  execute (mkConnection (next_conn s) p) answer statement (connected W p s)
  = (answer p statement, connected W p s).
Proof.
  unfold execute, connected. cbn [c_id c_path open_conns]. now rewrite head_is_open.
Qed.

Lemma sqlite3_connect_run (W : world) (p : Path) (s : state) :
  sqlite3_connect W p s
  = match connect_error W p with
    | Some e => (Raise e, s)
    | None => (Return (mkConnection (next_conn s) p), connected W p s)
    end.
Proof. reflexivity. Qed.

(** Closing the connection just opened restores the connections that were
    open before, provided its handle is a fresh one. *)
Lemma close_fresh (h : nat) (l : list nat) :
  h ∉ l -> List.filter (fun h' => negb (bool_decide (h' = h))) (h :: l) = l.
Proof.
  intros Hfresh. cbn [List.filter]. rewrite bool_decide_eq_true_2 by reflexivity.
  cbn [negb]. induction l as [|x l IH]; [reflexivity|].
  cbn [List.filter]. rewrite not_elem_of_cons in Hfresh. destruct Hfresh as [Hx Hl].
  rewrite bool_decide_eq_false_2 by congruence. cbn [negb]. now rewrite IH.
Qed.

(** A file that is there is left alone by [connect]. *)
Lemma connected_written (W : world) (p : Path) (s : state) :
  present W s p = true -> written (connected W p s) = written s.
Proof. intros Hp. unfold connected. cbn [written]. now rewrite Hp. Qed.

Lemma connected_present (W : world) (p q : Path) (s : state) :
  present W s q = true -> present W (connected W p s) q = true.
Proof.
  unfold present, connected. cbn [written]. intros Hq.
  apply orb_true_iff in Hq as [Hq|Hq]; [now rewrite Hq|].
  apply orb_true_iff. right. apply bool_decide_eq_true in Hq.
  apply bool_decide_eq_true.
  destruct (present W s p); [exact Hq|].
  destruct (decide (str p = str q)) as [->|Hne];
    [rewrite lookup_insert_eq; eauto | now rewrite lookup_insert_ne].
Qed.

(** Once [connect] has run, the file is there. *)
Lemma connected_there (W : world) (p : Path) (s : state) :
  present W (connected W p s) p = true.
Proof.
  unfold present at 1. unfold connected. cbn [written].
  destruct (present W s p) eqn:Hp; [exact Hp|].
  apply orb_true_iff. right. apply bool_decide_eq_true.
  rewrite lookup_insert_eq. eauto.
Qed.

(** ** The hasher *)

Lemma chunk_size_pos : (0 < chunk_size)%nat.
Proof. unfold chunk_size. lia. Qed.

Lemma take_chunk_nil (rest : list byte) : take chunk_size rest = [] -> rest = [].
Proof.
  pose proof chunk_size_pos. destruct rest as [|b rest]; [reflexivity|].
  destruct chunk_size; [lia | discriminate].
Qed.

(** Without a failing read the loop feeds exactly the bytes of the file. *)
Lemma feed_whole (H : Hasher) (k : nat) (st : hstate H) (rest : list byte) :
  feed H None k st rest = Return (h_update H st rest).
Proof.
  funelim (feed H None k st rest); try discriminate.
  - pose proof (take_chunk_nil _ Heq) as ->. now rewrite h_update_nil.
  - match goal with IH : feed _ _ _ _ _ = Return _ |- _ => rewrite IH end.
    rewrite h_update_app. f_equal. f_equal.
    rewrite <- Heq. apply take_drop.
Qed.

Lemma hex_byte_lower (b : byte) : is_lower_hex (hex_byte b) = true.
Proof. destruct b; reflexivity. Qed.

Lemma is_lower_hex_app (a b : string) :
  is_lower_hex (a +:+ b) = is_lower_hex a && is_lower_hex b.
Proof. unfold is_lower_hex. now rewrite list_ascii_of_string_app, forallb_app. Qed.

Lemma hexlify_lower (bs : list byte) : is_lower_hex (hexlify bs) = true.
Proof.
  induction bs as [|b bs IH]; [reflexivity|].
  cbn [hexlify]. now rewrite is_lower_hex_app, hex_byte_lower, IH.
Qed.

(** No digest can be taken for an error message, and the other way round:
    the first byte of the prefix is not a hexadecimal digit. *)
Lemma lower_hex_not_error (v : string) :
  is_lower_hex v = true -> String.prefix error_prefix v = false.
Proof.
  destruct v as [|c v]; [reflexivity|].
  unfold is_lower_hex. cbn [list_ascii_of_string forallb]. intros Hc.
  apply andb_prop in Hc as [Hc _].
  unfold error_prefix. cbn [String.prefix].
  destruct (ascii_dec _ c) as [<-|]; [discriminate Hc | reflexivity].
Qed.

Lemma error_not_lower_hex (e : string) : is_lower_hex (error_prefix +:+ e) = false.
Proof. reflexivity. Qed.

(** C5: for every file contents and every digest algorithm hashlib
    provides, the 4096-byte chunked streaming of [calculate_hash] returns
    the lowercase hex digest of the whole contents fed in one piece, it
    leaves the state alone, and hashing the same contents again (the same
    file from another state, or another file with these contents) returns
    the identical digest. *)
Theorem calculate_hash_chunked_equals_whole
    (W : world) (filepath : Path) (hash_type : string) (H : Hasher)
    (contents : list byte) (s : state) :
  hashlib_new W hash_type = Return H ->
  open_rb W filepath = Opened contents None ->
  calculate_hash W filepath hash_type s
    = (Return (whole_file_digest H contents), s) /\
  is_lower_hex (whole_file_digest H contents) = true /\
  (forall (filepath' : Path) (s' : state),
      open_rb W filepath' = Opened contents None ->
      fst (calculate_hash W filepath' hash_type s')
      = fst (calculate_hash W filepath hash_type s)).
Proof.
  intros Hnew Hopen.
  assert (Hrun : forall p t, open_rb W p = Opened contents None ->
            calculate_hash W p hash_type t = (Return (whole_file_digest H contents), t)).
  { intros p t Hp. unfold calculate_hash. unfold_monad.
    rewrite Hnew, Hp, feed_whole. reflexivity. }
  split; [now apply Hrun|]. split; [apply hexlify_lower|].
  intros p' s' Hp'. now rewrite !Hrun.
Qed.

Lemma calculate_hash_chunked_equals_whole_witness :
  calculate_hash Sample.W (of_str "/evidence/a/app.db") "sha256" Sample.s0
  = (Return "3206", Sample.s0).
Proof.
  apply (calculate_hash_chunked_equals_whole Sample.W (of_str "/evidence/a/app.db")
           "sha256" (Sample.buffering Sample.checksum)
           ["S"; "Q"; "L"; "i"; "t"; "e"]%byte Sample.s0);
    reflexivity.
Defined.

(** C9: whatever [calculate_hash] returns is either a lowercase
    hexadecimal digest or a string that begins with the error prefix, and
    never both, so a hash field that holds an error cannot be taken for a
    digest. *)
Theorem calculate_hash_digest_or_error
    (W : world) (filepath : Path) (hash_type : string) (s s' : state) (v : string) :
  calculate_hash W filepath hash_type s = (Return v, s') ->
  (is_lower_hex v = true /\ String.prefix error_prefix v = false) \/
  (String.prefix error_prefix v = true /\ is_lower_hex v = false).
Proof.
  unfold calculate_hash. unfold_monad.
  destruct (hashlib_new W hash_type) as [H|e]; [|discriminate].
  match goal with |- context [match ?o with OpenError _ => _ | _ => _ end] =>
    destruct o as [e|data bad] end.
  - intros [= <- _]. right. split; [apply prefix_app | apply error_not_lower_hex].
  - destruct (feed H bad 0 (h_init H) data) as [st|e]; intros [= <- _].
    + left. split; [apply hexlify_lower | apply lower_hex_not_error, hexlify_lower].
    + right. split; [apply prefix_app | apply error_not_lower_hex].
Qed.

Lemma calculate_hash_digest_or_error_witness :
  (is_lower_hex "3206" = true /\ String.prefix error_prefix "3206" = false) \/
  (String.prefix error_prefix "3206" = true /\ is_lower_hex "3206" = false).
Proof.
  apply (calculate_hash_digest_or_error Sample.W (of_str "/evidence/a/app.db")
           "md5" Sample.s0 Sample.s0 "3206").
  reflexivity.
Defined.


(** ** The operations as functions of the world *)

Lemma calculate_hash_exact (W : world) (filepath : Path) (hash_type : string) (s : state) :
  calculate_hash W filepath hash_type s = (hash_outcome W filepath hash_type, s).
Proof.
  unfold calculate_hash, hash_outcome. unfold_monad.
  destruct (hashlib_new W hash_type) as [H|e]; [|reflexivity].
  destruct (open_rb W filepath) as [e|data bad]; [reflexivity|].
  now destruct (feed H bad 0 (h_init H) data).
Qed.

Lemma get_file_metadata_exact (W : world) (filepath : Path) (s : state) :
  get_file_metadata W filepath s = (metadata_outcome W filepath, s).
Proof.
  unfold get_file_metadata, metadata_outcome. unfold bind, lift, and_then.
  destruct (os_stat W filepath) as [st|e]; [|reflexivity].
  destruct (local_time W (st_ctime st)); [|reflexivity].
  destruct (local_time W (st_mtime st)); [|reflexivity].
  destruct (local_time W (st_atime st)); [|reflexivity].
  rewrite !calculate_hash_exact.
  destruct (hash_outcome W filepath "md5"); [|reflexivity].
  destruct (hash_outcome W filepath "sha1"); [|reflexivity].
  now destruct (hash_outcome W filepath "sha256").
Qed.

(** The body of the integrity check: the connection is closed when the
    statement and the fetch have not raised. *)
Lemma check_database_integrity_try_run (W : world) (db_path : Path) (s : state) :
  check_database_integrity_try W db_path s
  = match connect_error W db_path with
    | Some e => (Raise e, s)
    | None =>
        (integrity_body W db_path,
         if is_return (integrity_body W db_path)
         then closed (next_conn s) (connected W db_path s)
         else connected W db_path s)
    end.
Proof.
  unfold check_database_integrity_try, integrity_body.
  step_with sqlite3_connect_run.
  destruct (connect_error W db_path) as [e|]; [reflexivity|].
  step_with @execute_connected.
  destruct (sql_text W db_path integrity_check_statement) as [rows|e]; [|reflexivity].
  unfold_monad. cbn [and_then]. now destruct (fetchone_0 rows).
Qed.

Lemma check_database_integrity_exact (W : world) (db_path : Path) (s : state) :
  check_database_integrity W db_path s
  = (Return (integrity_value W db_path),
     after_conn W db_path (is_return (integrity_body W db_path)) s).
Proof.
  unfold check_database_integrity, try_except, integrity_value, guarded, after_conn.
  rewrite check_database_integrity_try_run.
  destruct (connect_error W db_path) as [e|]; [reflexivity|].
  now destruct (integrity_body W db_path).
Qed.

Lemma search_deleted_records_try_run (W : world) (db_path : Path) (s : state) :
  search_deleted_records_try W db_path s
  = match connect_error W db_path with
    | Some e => (Raise e, s)
    | None =>
        (deleted_body W db_path,
         if is_return (deleted_body W db_path)
         then closed (next_conn s) (connected W db_path s)
         else connected W db_path s)
    end.
Proof.
  unfold search_deleted_records_try, deleted_body.
  step_with sqlite3_connect_run.
  destruct (connect_error W db_path) as [e|]; [reflexivity|].
  step_with @execute_connected.
  destruct (sql_int W db_path freelist_statement) as [rows|e]; [|reflexivity].
  unfold_monad. cbn [and_then]. now destruct (fetchone_0 rows).
Qed.

Lemma search_deleted_records_exact (W : world) (db_path : Path) (s : state) :
  search_deleted_records W db_path s
  = (Return (deleted_value W db_path),
     after_conn W db_path (is_return (deleted_body W db_path)) s).
Proof.
  unfold search_deleted_records, try_except, deleted_value, guarded, after_conn.
  rewrite search_deleted_records_try_run.
  destruct (connect_error W db_path) as [e|]; [reflexivity|].
  now destruct (deleted_body W db_path).
Qed.

(** The reflection of one table never raises past its own handler and
    leaves the state as it found it. *)
Lemma reflect_table_guarded (W : world) (p : Path) (s : state)
    (tables_info : dict table_entry) (table : string) :
  try_except (reflect_table W (mkConnection (next_conn s) p) tables_info table)
    (fun e => ret (dict_set tables_info table (TableError e)))
    (connected W p s)
  = (Return (dict_set tables_info table (table_value W p table)), connected W p s).
Proof.
  unfold reflect_table, table_value, try_except.
  step_with @execute_connected.
  destruct (sql_int W p (count_statement table)) as [rows|e]; [|reflexivity].
  cbn [and_then]. unfold bind at 1. unfold lift at 1.
  destruct (fetchone_0 rows) as [rc|e]; [|reflexivity].
  step_with @execute_connected.
  now destruct (sql_table_info W p (table_info_statement table)).
Qed.

Lemma reflect_loop_run (W : world) (p : Path) (s : state)
    (tables : list string) (acc : dict table_entry) :
  for_each tables acc (fun tables_info table =>
    try_except (reflect_table W (mkConnection (next_conn s) p) tables_info table)
      (fun e => ret (dict_set tables_info table (TableError e))))
    (connected W p s)
  = (Return (tables_value W p tables acc), connected W p s).
Proof.
  revert acc. induction tables as [|t tables IH]; intros acc.
  - reflexivity.
  - cbn [for_each]. step_with reflect_table_guarded. apply IH.
Qed.

Lemma get_database_info_try_run (W : world) (db_path : Path) (s : state) :
  get_database_info_try W db_path s
  = match connect_error W db_path with
    | Some e => (Raise e, s)
    | None =>
        (info_body W db_path,
         if is_return (info_body W db_path)
         then closed (next_conn s) (connected W db_path s)
         else connected W db_path s)
    end.
Proof.
  unfold get_database_info_try, info_body.
  step_with sqlite3_connect_run.
  destruct (connect_error W db_path) as [e|]; [reflexivity|].
  step_with @execute_connected.
  destruct (sql_text W db_path version_statement) as [rows|e]; [|reflexivity].
  cbn [and_then]. unfold bind at 1. unfold lift at 1.
  destruct (fetchone_0 rows) as [version|e]; [|reflexivity].
  step_with @execute_connected.
  destruct (sql_text W db_path (names_statement "table")) as [tables|e]; [|reflexivity].
  cbn [and_then]. step_with reflect_loop_run.
  step_with @execute_connected.
  destruct (sql_text W db_path (names_statement "index")) as [indexes|e]; [|reflexivity].
  cbn [and_then]. step_with @execute_connected.
  destruct (sql_text W db_path (names_statement "trigger")) as [triggers|e]; [|reflexivity].
  reflexivity.
Qed.

Lemma get_database_info_exact (W : world) (db_path : Path) (s : state) :
  get_database_info W db_path s
  = (Return (info_value W db_path),
     after_conn W db_path (is_return (info_body W db_path)) s).
Proof.
  unfold get_database_info, try_except, info_value, guarded, after_conn.
  rewrite get_database_info_try_run.
  destruct (connect_error W db_path) as [e|]; [reflexivity|].
  now destruct (info_body W db_path).
Qed.

Lemma write_file_run (W : world) (p : Path) (content : file_content) (s : state) :
  write_file W p content s
  = match open_w_error W p with
    | Some e => (Raise e, s)
    | None =>
        match write_error W p content with
        | Some e => (Raise e, with_file p (Partial content) s)
        | None => (Return tt, with_file p content s)
        end
    end.
Proof. reflexivity. Qed.

Lemma export_table_data_try_run (W : world) (db_path : Path) (table_name : string)
    (output_path : Path) (s : state) :
  export_table_data_try W db_path table_name output_path s
  = (match connect_error W db_path with
     | Some e => Raise e
     | None =>
         and_then (export_outcome W db_path table_name output_path) (fun _ =>
         Return (str (csv_path_of db_path table_name output_path)))
     end,
     after_export W db_path table_name output_path s).
Proof.
  unfold export_table_data_try, export_outcome, export_body, after_export, export_body.
  step_with sqlite3_connect_run.
  destruct (connect_error W db_path) as [e|]; [reflexivity|].
  step_with @execute_connected.
  destruct (sql_rows W db_path (select_all_statement table_name)) as [rows|e];
    [|reflexivity].
  cbn [and_then]. step_with @execute_connected.
  destruct (sql_table_info W db_path (table_info_statement table_name)) as [infos|e];
    [|reflexivity].
  cbn [and_then]. step_with write_file_run.
  destruct (open_w_error W _) as [e|]; [reflexivity|].
  destruct (write_error W _ _) as [e|]; reflexivity.
Qed.

Lemma export_table_data_exact (W : world) (db_path : Path) (table_name : string)
    (output_path : Path) (s : state) :
  export_table_data W db_path table_name output_path s
  = (Return (export_value W db_path table_name output_path),
     after_export W db_path table_name output_path s).
Proof.
  unfold export_table_data, try_except, export_value, guarded.
  rewrite export_table_data_try_run.
  destruct (connect_error W db_path) as [e|]; [reflexivity|].
  now destruct (export_outcome W db_path table_name output_path).
Qed.

(** ** Dictionaries filled in a loop *)

(** A dictionary filled item by item, each under its key, holds a value
    for every key it was given, each key once, and nothing else. *)
Lemma dict_fold_keys {A V} (key : A -> string) (val : A -> V) (xs : list A)
    (acc : dict V) :
  (NoDup (dict_keys acc) ->
   NoDup (dict_keys (fold_left (fun d x => dict_set d (key x) (val x)) xs acc))) /\
  (forall k, k ∈ dict_keys (fold_left (fun d x => dict_set d (key x) (val x)) xs acc) <->
             k ∈ dict_keys acc \/ k ∈ map key xs) /\
  (NoDup (dict_keys acc ++ map key xs) ->
   dict_keys (fold_left (fun d x => dict_set d (key x) (val x)) xs acc)
   = dict_keys acc ++ map key xs).
Proof.
  revert acc. induction xs as [|x xs IH]; intros acc.
  - cbn [fold_left map]. split; [tauto|]. split.
    + intros k. rewrite elem_of_nil. tauto.
    + intros _. now rewrite app_nil_r.
  - cbn [fold_left map].
    destruct (IH (dict_set acc (key x) (val x))) as (Hnd & Hkeys & Hord).
    split; [|split].
    + intros Hacc. now apply Hnd, dict_set_NoDup.
    + intros k. rewrite Hkeys, dict_set_keys_elem, elem_of_cons. tauto.
    + intros Hall.
      assert (Hfresh : key x ∉ dict_keys acc).
      { apply NoDup_app in Hall as (_ & Hdisj & _). intros Hin.
        apply (Hdisj _ Hin). left. }
      assert (Hset : dict_keys (dict_set acc (key x) (val x)) = dict_keys acc ++ [key x]).
      { rewrite dict_keys_set. now rewrite bool_decide_eq_false_2. }
      rewrite Hord; rewrite Hset, <- app_assoc; [reflexivity | exact Hall].
Qed.

(** Every entry comes from the dictionary the loop started with or from
    an item of the loop. *)
Lemma dict_fold_origin {A V} (key : A -> string) (val : A -> V) (xs : list A)
    (acc : dict V) (k : string) (v : V) :
  dict_get (fold_left (fun d x => dict_set d (key x) (val x)) xs acc) k = Some v ->
  dict_get acc k = Some v \/ exists x, x ∈ xs /\ k = key x /\ v = val x.
Proof.
  revert acc. induction xs as [|x xs IH]; intros acc Hget; [now left|].
  cbn [fold_left] in Hget. apply IH in Hget as [Hget|(y & Hy & -> & ->)].
  - destruct (decide (key x = k)) as [<-|Hne].
    + rewrite dict_get_set_eq in Hget. injection Hget as <-.
      right. exists x. split; [left | split; reflexivity].
    + rewrite dict_get_set_ne in Hget by exact Hne. now left.
  - right. exists y. split; [now right | split; reflexivity].
Qed.

(** When the value is a function of the key, the entry under the key of an
    item is the value of that key. *)
Lemma dict_fold_get {A V} (key : A -> string) (val : A -> V) (xs : list A)
    (acc : dict V) (x : A) :
  (forall y, y ∈ xs -> key y = key x -> val y = val x) ->
  x ∈ xs \/ dict_get acc (key x) = Some (val x) ->
  dict_get (fold_left (fun d y => dict_set d (key y) (val y)) xs acc) (key x)
  = Some (val x).
Proof.
  revert acc. induction xs as [|y xs IH]; intros acc Hval Hin.
  - destruct Hin as [Hin|Hacc]; [now apply elem_of_nil in Hin | exact Hacc].
  - cbn [fold_left]. apply IH.
    + intros z Hz. apply Hval. now right.
    + destruct (decide (key y = key x)) as [Heq|Hne].
      * right. rewrite Heq, <- (Hval y) by (left || exact Heq). apply dict_get_set_eq.
      * destruct Hin as [Hin|Hacc].
        -- left. apply elem_of_cons in Hin as [->|Hin]; [congruence | exact Hin].
        -- right. now rewrite dict_get_set_ne.
Qed.

(** ** The loops of the analysis *)

Lemma after_conn_made_dirs (W : world) (p : Path) (b : bool) (s : state) :
  made_dirs (after_conn W p b s) = made_dirs s.
Proof. unfold after_conn. destruct (connect_error W p); [reflexivity|]. now destruct b. Qed.

(** An operation that only reads leaves the files alone, but for the file
    that [connect] makes where there is none. *)
Lemma after_conn_written (W : world) (p : Path) (b : bool) (s : state) :
  written (after_conn W p b s)
  = match connect_error W p with
    | Some _ => written s
    | None => written (connected W p s)
    end.
Proof. unfold after_conn. destruct (connect_error W p); [reflexivity|]. now destruct b. Qed.

Lemma after_conn_written_present (W : world) (p : Path) (b : bool) (s : state) :
  present W s p = true -> written (after_conn W p b s) = written s.
Proof.
  intros Hp. rewrite after_conn_written.
  destruct (connect_error W p); [reflexivity | now apply connected_written].
Qed.

Lemma after_conn_present (W : world) (p q : Path) (b : bool) (s : state) :
  present W s q = true -> present W (after_conn W p b s) q = true.
Proof.
  intros Hq. unfold present. rewrite after_conn_written.
  destruct (connect_error W p); [exact Hq|].
  now apply (connected_present W p q s).
Qed.

Lemma after_export_made_dirs (W : world) (p : Path) (t : string) (out : Path) (s : state) :
  made_dirs (after_export W p t out s) = made_dirs s.
Proof.
  unfold after_export. destruct (connect_error W p); [reflexivity|].
  destruct (export_body W p t); [|reflexivity].
  destruct (open_w_error W _); [reflexivity|].
  now destruct (write_error W _ _).
Qed.

Lemma export_into_run (W : world) (p out : Path) (acc : dict string) (t : string)
    (s : state) :
  export_into W p out acc t s
  = (and_then (said W ("  Експортовано: " +:+ t)) (fun _ =>
     Return (dict_set acc t (export_value W p t out))),
     after_export W p t out s).
Proof.
  unfold export_into. step_with export_table_data_exact.
  step_with print_run. now destruct (said W _).
Qed.

(** The loop over the tables: its value is read off the world, and it
    makes no directory. *)
Lemma export_loop_run (W : world) (p out : Path) (tables : list string)
    (acc : dict string) (s : state) :
  exists s',
    for_each tables acc (export_into W p out) s
    = (exports_outcome W p out tables acc, s') /\
    made_dirs s' = made_dirs s.
Proof.
  revert acc s. induction tables as [|t tables IH]; intros acc s.
  - now exists s.
  - cbn [for_each exports_outcome]. step_with export_into_run.
    destruct (said W _) as [[]|e]; cbn [and_then].
    + destruct (IH (dict_set acc t (export_value W p t out)) (after_export W p t out s))
        as (s' & -> & Hdirs).
      exists s'. split; [reflexivity|]. now rewrite Hdirs, after_export_made_dirs.
    + eexists. split; [reflexivity|]. apply after_export_made_dirs.
Qed.

(** When the loop over the tables runs to its end, the dictionary is the
    one filled table by table with what the export returns. *)
Lemma exports_outcome_fold (W : world) (p out : Path) (tables : list string)
    (acc acc' : dict string) :
  exports_outcome W p out tables acc = Return acc' ->
  acc' = exports_value W p tables out acc.
Proof.
  revert acc. induction tables as [|t tables IH]; intros acc.
  - now intros [= <-].
  - cbn [exports_outcome exports_value fold_left]. destruct (said W _); [|discriminate].
    cbn [and_then]. apply IH.
Qed.


(** An exception of the loop over the tables is one of the console. *)
Lemma exports_outcome_raise (W : world) (p out : Path) (tables : list string)
    (acc : dict string) (e : exn) :
  exports_outcome W p out tables acc = Raise e ->
  exists t, t ∈ tables /\ print_error W ("  Експортовано: " +:+ t) = Some e.
Proof.
  revert acc. induction tables as [|t tables IH]; intros acc; [discriminate|].
  cbn [exports_outcome]. destruct (said W _) as [[]|e'] eqn:Hsaid; cbn [and_then].
  - intros Hrest. apply IH in Hrest as (t' & Ht' & He). exists t'. split; [now right | exact He].
  - intros [= ->]. exists t. split; [left | now apply said_refused].
Qed.

(** The value of an analysis is read off the world alone. *)
Lemma analyze_database_value (W : world) (self : SQLiteForensics) (db_path : Path)
    (s : state) :
  fst (analyze_database W self db_path s) = analysis_outcome W self db_path.
Proof.
  unfold analyze_database, analysis_outcome.
  do 4 (step_with print_run; destruct (said W _) as [[]|?]; [|reflexivity]; cbn [and_then]).
  step_with get_file_metadata_exact.
  destruct (metadata_outcome W db_path) as [md|e]; [|reflexivity]. cbn [and_then].
  step_with print_run; destruct (said W _) as [[]|?]; [|reflexivity]; cbn [and_then].
  step_with check_database_integrity_exact.
  step_with print_run; destruct (said W _) as [[]|?]; [|reflexivity]; cbn [and_then].
  step_with get_database_info_exact.
  step_with print_run; destruct (said W _) as [[]|?]; [|reflexivity]; cbn [and_then].
  step_with search_deleted_records_exact.
  destruct (info_value W db_path) as [ver cnt tables ti idx trg|e0] eqn:Hinfo.
  - unfold bind at 1. step_with print_run.
    destruct (said W _) as [[]|?]; [|reflexivity]; cbn [and_then].
    unfold bind at 1. unfold mkdir.
    destruct (mkdir_error W _) as [e1|]; [reflexivity|].
    unfold bind at 1.
    match goal with |- context [for_each tables [] ?body ?t] =>
      destruct (export_loop_run W db_path
                  (truediv (output_dir self) "exported_data") tables [] t)
        as (s' & -> & _) end.
    now destruct (exports_outcome W db_path _ tables []).
  - reflexivity.
Qed.

Lemma analyze_into_value (W : world) (self : SQLiteForensics) (dbs : dict artifact)
    (db_file : Path) (s : state) :
  fst (analyze_into W self dbs db_file s)
  = and_then
      match analysis_outcome W self db_file with
      | Return _ => Return tt
      | Raise e => said W (handler_line db_file e)
      end (fun _ =>
    Return (dict_set dbs (str db_file) (artifact_of (analysis_outcome W self db_file)))).
Proof.
  unfold analyze_into, try_except. unfold bind at 1.
  rewrite <- (analyze_database_value W self db_file s).
  destruct (analyze_database W self db_file s) as [[r|e] s1]; cbn [fst]; [reflexivity|].
  step_with print_run. unfold handler_line. now destruct (said W _) as [[]|?].
Qed.

(** The mapping the loop of [generate_report] builds. *)
Lemma analyze_loop_value (W : world) (self : SQLiteForensics) (db_files : list Path)
    (dbs : dict artifact) (s : state) :
  fst (for_each db_files dbs (analyze_into W self) s)
  = entries_outcome W self db_files dbs.
Proof.
  revert dbs s. induction db_files as [|p db_files IH]; intros dbs s; [reflexivity|].
  cbn [for_each entries_outcome]. unfold bind.
  pose proof (analyze_into_value W self dbs p s) as Hturn.
  destruct (analyze_into W self dbs p s) as [o s1]. cbn [fst] in Hturn. subst o.
  destruct (analysis_outcome W self p) as [r|e]; cbn [and_then].
  - apply IH.
  - destruct (said W _) as [[]|e']; cbn [and_then]; [apply IH | reflexivity].
Qed.

(** When the loop over the files runs to its end, the mapping is the one
    filled file by file with the analysis of each. *)
Lemma entries_outcome_fold (W : world) (self : SQLiteForensics) (db_files : list Path)
    (dbs dbs' : dict artifact) :
  entries_outcome W self db_files dbs = Return dbs' ->
  dbs' = fold_left
           (fun dbs db_file =>
              dict_set dbs (str db_file) (artifact_of (analysis_outcome W self db_file)))
           db_files dbs.
Proof.
  revert dbs. induction db_files as [|p db_files IH]; intros dbs.
  - now intros [= <-].
  - cbn [entries_outcome fold_left].
    destruct (match analysis_outcome W self p with
              | Return _ => Return tt
              | Raise e => said W (handler_line p e)
              end); [|discriminate].
    cbn [and_then]. apply IH.
Qed.

Lemma entries_outcome_accepted (W : world) (self : SQLiteForensics)
    (db_files : list Path) (dbs : dict artifact) :
  console_accepts W ->
  exists dbs', entries_outcome W self db_files dbs = Return dbs'.
Proof.
  intros Hok. revert dbs. induction db_files as [|p db_files IH]; intros dbs.
  - now exists dbs.
  - cbn [entries_outcome]. destruct (analysis_outcome W self p) as [r|e]; cbn [and_then].
    + apply IH.
    + rewrite said_accepted by exact Hok. apply IH.
Qed.


(** ** The integrity checker *)

Lemma ascii_not_error_wrapped (msg : string) :
  starts_ascii msg = true -> error_wrapped msg = false.
Proof.
  destruct msg as [|c msg]; [reflexivity|].
  unfold error_wrapped, error_prefix. cbn [starts_ascii String.prefix]. intros Hc.
  destruct (ascii_dec _ c) as [<-|]; [discriminate Hc | reflexivity].
Qed.

(** C2, as stated, fails: on a database with a damaged page the catalog
    reads and the consistency check itself raises; the verdict is the
    error wrapper, although the file opens as a database. *)
Lemma wrapped_verdict_on_a_database :
  ~ verdict_tells_not_a_database Cases.malformed_page (of_str "/evidence/a/app.db").
Proof.
  intros Hclaim.
  destruct (check_database_integrity Cases.malformed_page (of_str "/evidence/a/app.db")
              Sample.s0) as [o s'] eqn:Hrun.
  assert (Ho : o = Return "Помилка: database disk image is malformed").
  { apply (f_equal fst) in Hrun. cbn [fst] in Hrun. now rewrite <- Hrun. }
  subst o. destruct (Hclaim _ _ _ Hrun) as [Hok|[(_ & _ & more & Hrows)|[_ Hnot]]].
  - discriminate Hok.
  - discriminate Hrows.
  - apply Hnot. split; [reflexivity|]. now exists ["users"; "log"; "fts"].
Qed.

(** C2, amended: [check_database_integrity] always returns a string.  It
    is exactly ["ok"] when the engine's consistency check passes; it is
    the first anomaly, word for word, when the engine reports anomalies;
    and it is the error wrapper around the exception whenever the check
    could not be made, because the connection does not open or because
    the check itself raises, as it does on a file that is no database and
    also on a damaged database whose catalog still reads: the wrapper
    does not tell the one from the other.  There is no fourth case.  The
    wrapper is told from an anomaly by its prefix, which no engine wording
    (text that starts with an ASCII character) carries. *)
Theorem check_database_integrity_verdict (W : world) (db_path : Path) (s : state) :
  exists v s',
    check_database_integrity W db_path s = (Return v, s') /\
    (check_passes W db_path -> v = "ok") /\
    (forall msg, reported_anomaly W db_path msg ->
       v = msg /\ (starts_ascii msg = true -> error_wrapped v = false)) /\
    (forall e, check_raises W db_path e ->
       v = error_prefix +:+ e /\ error_wrapped v = true) /\
    (check_passes W db_path \/ (exists msg, reported_anomaly W db_path msg) \/
     exists e, check_raises W db_path e).
Proof.
  eexists _, _. split; [apply check_database_integrity_exact|].
  unfold integrity_value, guarded, integrity_body, check_passes, reported_anomaly,
    check_raises.
  destruct (connect_error W db_path) as [e0|].
  { split; [intros [[=] _]|]. split; [intros msg ([=] & _)|]. split.
    - intros e [[= ->]|[[=] _]]. split; [reflexivity | apply prefix_app].
    - right. right. exists e0. now left. }
  destruct (sql_text W db_path integrity_check_statement) as [[|first rows]|e0];
    cbn [and_then fetchone_0].
  - split; [intros (_ & more & [=])|]. split; [intros msg (_ & _ & more & [=])|]. split.
    + intros e [[=]|(_ & [[=]|[_ ->]])]. split; [reflexivity | apply prefix_app].
    + right. right. eexists. right. split; [reflexivity|]. right. now split.
  - split; [now intros (_ & more & [= ->])|]. split; [|split].
    + intros msg (_ & _ & more & [= -> _]). split; [reflexivity|].
      apply ascii_not_error_wrapped.
    + intros e [[=]|(_ & [[=]|[[=] _]])].
    + destruct (decide (first = "ok")) as [->|Hne].
      * left. split; [reflexivity | now exists rows].
      * right. left. exists first. split; [reflexivity|]. split; [exact Hne | now exists rows].
  - split; [intros (_ & more & [=])|]. split; [intros msg (_ & _ & more & [=])|]. split.
    + intros e [[=]|(_ & [[= ->]|[[=] _]])]. split; [reflexivity | apply prefix_app].
    + right. right. exists e0. right. split; [reflexivity | now left].
Qed.

Lemma check_database_integrity_verdict_witness :
  fst (check_database_integrity Sample.W (of_str "/evidence/b/app.db") Sample.s0)
  = Return "*** in database main ***" /\
  fst (check_database_integrity Cases.malformed_page (of_str "/evidence/a/app.db") Sample.s0)
  = Return (error_prefix +:+ "database disk image is malformed").
Proof.
  split.
  - destruct (check_database_integrity_verdict Sample.W (of_str "/evidence/b/app.db")
                Sample.s0) as (v & s' & -> & _ & Hanomaly & _).
    cbn [fst]. f_equal. apply (Hanomaly "*** in database main ***").
    split; [reflexivity|]. split; [discriminate|]. now exists ["Page 3 is never used"].
  - destruct (check_database_integrity_verdict Cases.malformed_page
                (of_str "/evidence/a/app.db") Sample.s0) as (v & s' & -> & _ & _ & Hraise & _).
    cbn [fst]. f_equal. apply (Hraise "database disk image is malformed").
    right. split; [reflexivity | now left].
Defined.

(** ** Release of the connections *)

(** An operation that only reads releases as [released_on_success] says. *)
Lemma reader_releases {A B} (W : world) (db_path : Path) (op_try : M A) (op : M B)
    (body : outcome A) :
  (forall s, op_try s
             = match connect_error W db_path with
               | Some e => (Raise e, s)
               | None =>
                   (body, if is_return body
                          then closed (next_conn s) (connected W db_path s)
                          else connected W db_path s)
               end) ->
  (forall s, snd (op s) = snd (op_try s)) ->
  released_on_success W db_path op_try op.
Proof.
  intros Htry Hop s Hfresh. split; [apply Hop|]. rewrite Htry.
  destruct (connect_error W db_path) as [e|]; [now left|].
  destruct body as [a|e]; cbn [is_return].
  - unfold closed, connected. cbn [open_conns]. now apply close_fresh.
  - now right.
Qed.

Lemma check_database_integrity_releases (W : world) (db_path : Path) :
  released_on_success W db_path
    (check_database_integrity_try W db_path) (check_database_integrity W db_path).
Proof.
  apply (reader_releases W db_path _ _ (integrity_body W db_path)).
  - apply check_database_integrity_try_run.
  - intros s. unfold check_database_integrity. unfold_monad.
    now destruct (check_database_integrity_try W db_path s) as [[a|e] s'].
Qed.

Lemma search_deleted_records_releases (W : world) (db_path : Path) :
  released_on_success W db_path
    (search_deleted_records_try W db_path) (search_deleted_records W db_path).
Proof.
  apply (reader_releases W db_path _ _ (deleted_body W db_path)).
  - apply search_deleted_records_try_run.
  - intros s. unfold search_deleted_records. unfold_monad.
    now destruct (search_deleted_records_try W db_path s) as [[a|e] s'].
Qed.

Lemma get_database_info_releases (W : world) (db_path : Path) :
  released_on_success W db_path
    (get_database_info_try W db_path) (get_database_info W db_path).
Proof.
  apply (reader_releases W db_path _ _ (info_body W db_path)).
  - apply get_database_info_try_run.
  - intros s. unfold get_database_info. unfold_monad.
    now destruct (get_database_info_try W db_path s) as [[a|e] s'].
Qed.

Lemma export_table_data_releases (W : world) (db_path : Path)
    (table_name : string) (output_path : Path) :
  released_on_success W db_path
    (export_table_data_try W db_path table_name output_path)
    (export_table_data W db_path table_name output_path).
Proof.
  intros s Hfresh. split.
  { unfold export_table_data. unfold_monad.
    now destruct (export_table_data_try W db_path _ _ _) as [[a|e] s']. }
  rewrite export_table_data_try_run. unfold after_export, export_outcome.
  destruct (connect_error W db_path) as [e|]; [now left|].
  destruct (export_body W db_path table_name) as [content|e]; cbn [and_then];
    [|now right].
  destruct (open_w_error W _) as [e|]; [now right|].
  destruct (write_error W _ _) as [e|]; cbn [and_then]; [now right|].
  unfold closed, with_file, connected. cbn [open_conns]. now apply close_fresh.
Qed.

(** C4 fails on the code: on a file that is not a database the connection
    opens, the statement raises, and [check_database_integrity] returns
    its error string with the connection still open.  The [close] that
    the operation does reach when nothing raises is missed on the way
    through [except]. *)
Lemma connection_left_open_on_error :
  ~ released_on_every_path
      (check_database_integrity Sample.W (of_str "/evidence/notes.sqlite")) Sample.s0.
Proof.
  unfold released_on_every_path. intros Hclosed. apply Hclosed.
  vm_compute. left.
Qed.

(** ** The names of the exported files *)

Lemma csv_path_of_parts (db_path : Path) (table_name : string) (output_path : Path) :
  slash_free (stem db_path) = true ->
  exists c0 tl,
    (forall db', slash_free (stem db') = true ->
       csv_path_of db' table_name output_path
       = mkPath (root output_path)
           (parts output_path ++ ((stem db' +:+ "_") +:+ c0) :: tl)).
Proof.
  intros Hfree.
  destruct (parse_parts_stem (stem db_path) (table_name +:+ ".csv") Hfree)
    as (c0 & tl & Hall & _).
  exists c0, tl. intros db' Hfree'.
  unfold csv_path_of, truediv, of_str, root_of, is_absolute.
  rewrite (stem_name_relative _ _ Hfree'). cbn [root parts].
  rewrite bool_decide_eq_true_2 by reflexivity. cbn [negb].
  now rewrite (Hall _ Hfree').
Qed.

(** With a table name that holds no slash the file is a single entry of
    the output directory. *)
Lemma csv_path_of_single (db_path : Path) (table_name : string) (output_path : Path) :
  slash_free (stem db_path) = true -> slash_free table_name = true ->
  csv_path_of db_path table_name output_path
  = mkPath (root output_path)
      (parts output_path ++ [stem db_path +:+ "_" +:+ table_name +:+ ".csv"]).
Proof.
  intros Hstem Htable. unfold csv_path_of. apply truediv_single.
  - rewrite !slash_free_app. now rewrite Hstem, Htable.
  - rewrite <- string_app_assoc. apply kept_stem.
Qed.

(** What a successful run of the exporter's [try] body has done. *)
Lemma export_table_data_try_returns (W : world) (db_path : Path) (table_name : string)
    (output_path : Path) (s s' : state) (v : string) :
  export_table_data_try W db_path table_name output_path s = (Return v, s') ->
  exists rows infos,
    connect_error W db_path = None /\
    sql_rows W db_path (select_all_statement table_name) = Return rows /\
    sql_table_info W db_path (table_info_statement table_name) = Return infos /\
    v = str (csv_path_of db_path table_name output_path) /\
    written s'
    = <[ v := CsvFile (map VText (map cname infos) :: rows) ]>
        (written (connected W db_path s)).
Proof.
  rewrite export_table_data_try_run. unfold after_export, export_outcome, export_body.
  destruct (connect_error W db_path) as [e|]; [discriminate|].
  destruct (sql_rows W db_path (select_all_statement table_name)) as [rows|e];
    [|discriminate].
  destruct (sql_table_info W db_path (table_info_statement table_name)) as [infos|e];
    [|discriminate].
  cbn [and_then].
  destruct (open_w_error W _) as [e|]; [discriminate|].
  destruct (write_error W _ _) as [e|]; [discriminate|].
  cbn [and_then]. intros [= <- <-]. exists rows, infos. now repeat split.
Qed.

(** C3, as stated, fails: two databases called [app.db] in different
    directories are exported to one and the same file. *)
Lemma same_stem_exports_collide :
  ~ exports_never_collide (of_str "/evidence/a/app.db") (of_str "/evidence/b/app.db")
      "users" (of_str "/opt/tools/forensic_report/exported_data").
Proof.
  intros Hdistinct. apply Hdistinct; [discriminate | reflexivity | reflexivity].
Qed.

(** Run one after the other, the second export replaces the rows of the
    first. *)
Example second_export_overwrites_first :
  let out := of_str "/opt/tools/forensic_report/exported_data" in
  let s1 := snd (export_table_data Sample.W (of_str "/evidence/a/app.db") "users" out Sample.s0) in
  let s2 := snd (export_table_data Sample.W (of_str "/evidence/b/app.db") "users" out s1) in
  written s1 !! "/opt/tools/forensic_report/exported_data/app_users.csv"
  = Some (CsvFile [[VText "id"; VText "name"]; [VInt 1; VText "ann"];
                   [VInt 2; VText "bob"]; [VInt 3; VText "eve"]]) /\
  written s2 !! "/opt/tools/forensic_report/exported_data/app_users.csv"
  = Some (CsvFile [[VText "id"; VText "name"]; [VInt 7; VText "zoe"]]).
Proof. split; vm_compute; reflexivity. Qed.

(** Different stems do not keep the exports apart either, once the table
    names differ: the name of the file is all that counts. *)
Example different_stems_collide :
  stem (of_str "/evidence/a.db") <> stem (of_str "/evidence/a_b.db") /\
  str (csv_path_of (of_str "/evidence/a.db") "b_c" (of_str "out"))
  = str (csv_path_of (of_str "/evidence/a_b.db") "c" (of_str "out")).
Proof. split; [discriminate | reflexivity]. Qed.

(** C3, amended: [export_table_data] writes a table to
    [<output_path>/<stem>_<table>.csv], a name that knows the source only
    through its stem.  For one table name the output paths of two source
    databases are the same exactly when their stems are the same, so two
    files with one base name in different locations share the output
    file.  For two table names (without a slash) the output paths are the
    same exactly when [<stem>_<table>] is the same text for both.  A
    successful export has written the file at that path. *)
Theorem export_paths_collide_by_stem (W : world) (db1 db2 : Path) (output_path : Path) :
  slash_free (stem db1) = true ->
  slash_free (stem db2) = true ->
  (forall table_name,
     str (csv_path_of db1 table_name output_path)
     = str (csv_path_of db2 table_name output_path) <-> stem db1 = stem db2) /\
  (forall table1 table2,
     slash_free table1 = true -> slash_free table2 = true ->
     (str (csv_path_of db1 table1 output_path)
      = str (csv_path_of db2 table2 output_path)
      <-> stem db1 +:+ "_" +:+ table1 = stem db2 +:+ "_" +:+ table2)) /\
  (forall (table_name : string) (s s' : state) (v : string),
      export_table_data_try W db1 table_name output_path s = (Return v, s') ->
      v = str (csv_path_of db1 table_name output_path) /\ is_Some (written s' !! v)).
Proof.
  intros Hfree1 Hfree2. split; [|split].
  - intros table_name. split.
    + destruct (csv_path_of_parts db1 table_name output_path Hfree1) as (c0 & tl & Hall).
      rewrite (Hall db1 Hfree1), (Hall db2 Hfree2), !str_nonempty_parts.
      intros Heq. apply String.app_inj, join_prefix_inj in Heq.
      now repeat apply string_app_inv_tail in Heq.
    + intros Hstem. unfold csv_path_of. now rewrite Hstem.
  - intros table1 table2 Ht1 Ht2.
    rewrite (csv_path_of_single db1 table1 output_path Hfree1 Ht1).
    rewrite (csv_path_of_single db2 table2 output_path Hfree2 Ht2).
    rewrite !str_nonempty_parts. split.
    + intros Heq. apply String.app_inj, join_prefix_inj in Heq.
      rewrite <- !string_app_assoc in Heq. apply string_app_inv_tail in Heq.
      now rewrite !string_app_assoc in Heq.
    + intros Heq. do 3 f_equal. rewrite <- !string_app_assoc.
      rewrite (string_app_assoc (stem db1)), (string_app_assoc (stem db2)).
      now rewrite Heq.
  - intros table_name s s' v Hrun.
    destruct (export_table_data_try_returns _ _ _ _ _ _ _ Hrun)
      as (rows & infos & _ & _ & _ & Hv & Hw).
    split; [exact Hv|]. rewrite Hw, lookup_insert_eq. eauto.
Qed.

Lemma export_paths_collide_by_stem_witness :
  str (csv_path_of (of_str "/evidence/a/app.db") "users" (of_str "out"))
  = str (csv_path_of (of_str "/evidence/notes.sqlite") "users" (of_str "out"))
  <-> "app" = "notes".
Proof.
  apply (export_paths_collide_by_stem Sample.W (of_str "/evidence/a/app.db")
           (of_str "/evidence/notes.sqlite") (of_str "out")); reflexivity.
Defined.

(** ** The exporter against the introspector *)

Lemma tables_value_get (W : world) (p : Path) (tables : list string)
    (acc : dict table_entry) (table : string) :
  table ∈ tables ->
  dict_get (tables_value W p tables acc) table = Some (table_value W p table).
Proof.
  intros Hin. unfold tables_value.
  apply (dict_fold_get (fun t => t) (table_value W p) tables acc table).
  - now intros y _ ->.
  - now left.
Qed.

(** What [get_database_info] has read when it returns a structure. *)
Lemma get_database_info_returns (W : world) (db_path : Path) (s s' : state)
    (version : string) (count : nat) (tables : list string)
    (tables_info : dict table_entry) (indexes triggers : list string) :
  get_database_info W db_path s
  = (Return (DatabaseInfo version count tables tables_info indexes triggers), s') ->
  connect_error W db_path = None /\
  sql_text W db_path (names_statement "table") = Return tables /\
  sql_text W db_path (names_statement "index") = Return indexes /\
  sql_text W db_path (names_statement "trigger") = Return triggers /\
  (exists more, sql_text W db_path version_statement = Return (version :: more)) /\
  count = length tables /\
  tables_info = tables_value W db_path tables [].
Proof.
  rewrite get_database_info_exact. unfold info_value, guarded, info_body.
  destruct (connect_error W db_path) as [e|]; [discriminate|].
  destruct (sql_text W db_path version_statement) as [[|v more]|e];
    cbn [and_then fetchone_0]; [discriminate| |discriminate].
  destruct (sql_text W db_path (names_statement "table")) as [ts|e];
    cbn [and_then]; [|discriminate].
  destruct (sql_text W db_path (names_statement "index")) as [ixs|e];
    cbn [and_then]; [|discriminate].
  destruct (sql_text W db_path (names_statement "trigger")) as [gs|e];
    cbn [and_then]; [|discriminate].
  intros [= <- <- <- <- <- <- _]. repeat split. now exists more.
Qed.

(** C6, as stated, fails: on a database whose index is damaged the engine
    answers the count from the index and delivers the rows from the
    table; three rows are exported for a table whose [row_count] is 0. *)
Lemma counted_rows_differ :
  ~ export_matches_row_count Cases.damaged_index (of_str "/evidence/a/app.db")
      "users" (of_str "out").
Proof.
  intros Hclaim.
  destruct (export_table_data Cases.damaged_index (of_str "/evidence/a/app.db")
              "users" (of_str "out") Sample.s0) as [o s'] eqn:Hexport.
  assert (Ho : o = Return "out/app_users.csv" /\
               written s' !! "out/app_users.csv"
               = Some (CsvFile [[VText "id"; VText "name"]; [VInt 1; VText "ann"];
                                [VInt 2; VText "bob"]; [VInt 3; VText "eve"]])).
  { apply (f_equal fst) in Hexport as Hv. apply (f_equal snd) in Hexport as Hs.
    cbn [fst snd] in Hv, Hs. rewrite <- Hv, <- Hs. split; vm_compute; reflexivity. }
  destruct Ho as [-> Hfile].
  destruct (get_database_info Cases.damaged_index (of_str "/evidence/a/app.db")
              Sample.s0) as [i s1'] eqn:Hinfo.
  assert (Hi : exists tables_info,
             i = Return (DatabaseInfo "3.45.1" 3 ["users"; "log"; "fts"] tables_info
                           ["idx_users"] []) /\
             dict_get tables_info "users"
             = Some (TableInfo 0 [mkColumn 0 "id" "INTEGER" 0 None 1;
                                  mkColumn 1 "name" "TEXT" 0 None 0])).
  { apply (f_equal fst) in Hinfo. cbn [fst] in Hinfo. rewrite <- Hinfo.
    vm_compute. eauto. }
  destruct Hi as (tables_info & -> & Hentry).
  discriminate (Hclaim _ _ _ _ _ _ _ _ _ _ _ _ _ _ _ Hexport Hfile Hinfo Hentry).
Qed.

(** C6, amended: when [export_table_data] has exported a table, the file
    it wrote starts with the header row, made of the column names that
    [PRAGMA table_info] gives for the table, in that order; these are the
    columns, in the same order, that [get_database_info] reports for the
    table on the same database, also when the table has no row.  The rows
    after the header are the rows that [SELECT *] delivers; they are as
    many as the reported [row_count] whenever the engine's count for the
    table agrees with the rows it delivers, and the script does nothing
    to reconcile the two when it does not. *)
Theorem export_agrees_with_schema (W : world) (db_path : Path)
    (table_name : string) (output_path : Path) (s s' : state) (v : string) :
  export_table_data_try W db_path table_name output_path s = (Return v, s') ->
  export_table_data W db_path table_name output_path s = (Return v, s') /\
  exists infos data_rows,
    sql_table_info W db_path (table_info_statement table_name) = Return infos /\
    sql_rows W db_path (select_all_statement table_name) = Return data_rows /\
    written s' !! v = Some (CsvFile (map VText (map cname infos) :: data_rows)) /\
    forall s1 s1' version count tables tables_info indexes triggers,
      get_database_info W db_path s1
      = (Return (DatabaseInfo version count tables tables_info indexes triggers), s1') ->
      table_name ∈ tables ->
      (forall n more,
         sql_int W db_path (count_statement table_name) = Return (n :: more) ->
         dict_get tables_info table_name = Some (TableInfo n infos)) /\
      (forall row_count columns,
         dict_get tables_info table_name = Some (TableInfo row_count columns) ->
         columns = infos /\
         (count_agrees W db_path table_name ->
          Z.of_nat (length data_rows) = row_count)).
Proof.
  intros Hrun. split.
  { unfold export_table_data, try_except. now rewrite Hrun. }
  destruct (export_table_data_try_returns _ _ _ _ _ _ _ Hrun)
    as (rows & infos & _ & Hrows & Hinfos & _ & Hw).
  exists infos, rows. split; [exact Hinfos|]. split; [exact Hrows|].
  split; [rewrite Hw; apply lookup_insert_eq|].
  intros s1 s1' version count tables tables_info indexes triggers Hinfo Hin.
  apply get_database_info_returns in Hinfo as (_ & _ & _ & _ & _ & _ & ->).
  rewrite (tables_value_get W db_path tables [] table_name Hin).
  unfold table_value. rewrite Hinfos. split.
  - intros n more ->. reflexivity.
  - intros row_count columns.
    destruct (sql_int W db_path (count_statement table_name)) as [[|n more]|e] eqn:Hcount;
      cbn [and_then fetchone_0]; [discriminate| |discriminate].
    intros [= <- <-]. split; [reflexivity|].
    intros Hagree. symmetry. exact (Hagree n more rows Hcount Hrows).
Qed.

Lemma export_agrees_with_schema_witness :
  export_table_data Sample.W (of_str "/evidence/a/app.db") "log" (of_str "out") Sample.s0
  = (Return "out/app_log.csv",
     snd (export_table_data_try Sample.W (of_str "/evidence/a/app.db") "log"
            (of_str "out") Sample.s0)) /\
  written (snd (export_table_data_try Sample.W (of_str "/evidence/a/app.db") "log"
                  (of_str "out") Sample.s0)) !! "out/app_log.csv"
  = Some (CsvFile [[VText "line"]]).
Proof.
  split.
  - apply (export_agrees_with_schema Sample.W (of_str "/evidence/a/app.db") "log"
             (of_str "out") Sample.s0). vm_compute. reflexivity.
  - vm_compute. reflexivity.
Defined.

(** ** The discovery walker *)

(** Induction over a directory tree. *)
Lemma entry_tree_ind (P : entry -> Prop)
    (HFile : forall n, P (File n))
    (HDir : forall n cs, Forall P cs -> P (Dir n cs)) :
  forall e, P e.
Proof.
  fix IH 1. intros [n|n cs]; [apply HFile|].
  apply HDir. induction cs as [|c cs IHcs]; constructor; [apply IH | exact IHcs].
Qed.

Lemma beneath_cons (e : entry) (x : list string) :
  In x (beneath e) -> exists r, x = entry_name e :: r /\ In r (walk (children_of e)).
Proof.
  destruct e as [n|n cs]; cbn [beneath]; [contradiction|].
  intros Hin. apply in_map_iff in Hin as (r & <- & Hr). now exists r.
Qed.

Lemma walk_nonempty (cs : list entry) (x : list string) : In x (walk cs) -> x <> [].
Proof.
  unfold walk. intros Hin. apply in_app_or in Hin as [Hin|Hin].
  - apply in_map_iff in Hin as (c & <- & _). discriminate.
  - apply in_flat_map in Hin as (c & _ & Hin).
    apply beneath_cons in Hin as (r & -> & _). discriminate.
Qed.

Lemma NoDup_singletons (l : list string) : NoDup l -> NoDup (map (fun n => [n]) l).
Proof. apply (NoDup_fmap_2 (fun n : string => [n])). Qed.

Lemma walk_NoDup (cs : list entry) :
  NoDup (map entry_name cs) ->
  Forall (fun c => NoDup (beneath c)) cs ->
  NoDup (walk cs).
Proof.
  intros Hnames Hsub. unfold walk. apply NoDup_app. split; [|split].
  - rewrite <- (map_map entry_name (fun n => [n])). now apply NoDup_singletons.
  - intros x Hx Hx'. apply list_elem_of_In in Hx, Hx'.
    apply in_map_iff in Hx as (c & <- & _).
    apply in_flat_map in Hx' as (c' & _ & Hx').
    apply beneath_cons in Hx' as (r & [= _ <-] & Hr).
    now apply walk_nonempty in Hr.
  - induction cs as [|c cs IH]; [constructor|].
    cbn [flat_map map] in *. apply NoDup_cons in Hnames as [Hc Hnames].
    apply Forall_cons in Hsub as [Hbc Hsub].
    apply NoDup_app. split; [exact Hbc|]. split; [|now apply IH].
    intros x Hx Hx'. apply list_elem_of_In in Hx, Hx'.
    apply beneath_cons in Hx as (r & -> & _).
    apply in_flat_map in Hx' as (c' & Hc' & Hx').
    apply beneath_cons in Hx' as (r' & [= Hname _] & _).
    apply Hc. rewrite Hname. apply list_elem_of_In, in_map, Hc'.
Qed.

Lemma beneath_NoDup (e : entry) : wf_entry e = true -> NoDup (beneath e).
Proof.
  induction e as [n|n cs IH] using entry_tree_ind; intros Hwf; [constructor|].
  cbn [wf_entry beneath] in *.
  apply andb_prop in Hwf as [_ Hwf]. apply andb_prop in Hwf as [Hnames Hcs].
  apply bool_decide_eq_true in Hnames.
  apply (NoDup_fmap_2 (cons n)).
  apply walk_NoDup; [exact Hnames|].
  rewrite forallb_forall in Hcs. rewrite Forall_forall in IH |- *.
  intros c Hc. apply IH; [exact Hc|]. apply Hcs, list_elem_of_In, Hc.
Qed.

Lemma walk_wf_NoDup (cs : list entry) : wf_listing cs = true -> NoDup (walk cs).
Proof.
  unfold wf_listing. intros Hwf. apply andb_prop in Hwf as [Hnames Hcs].
  apply bool_decide_eq_true in Hnames. apply walk_NoDup; [exact Hnames|].
  rewrite forallb_forall in Hcs. apply Forall_forall.
  intros c Hc. apply beneath_NoDup, Hcs, list_elem_of_In, Hc.
Qed.

(** What a pattern [*<literal>] accepts ends with the literal. *)
Lemma glob_match_literal (lit s : list ascii) :
  star_free lit = true -> glob_match lit s = true -> s = lit.
Proof.
  revert s. induction lit as [|p lit IH]; intros s Hfree Hm.
  - now destruct s.
  - cbn [star_free] in Hfree. apply andb_prop in Hfree as [Hp Hfree].
    apply negb_true_iff, bool_decide_eq_false in Hp.
    cbn [glob_match] in Hm. destruct (decide (p = "*"%char)); [contradiction|].
    destruct s as [|c s]; [discriminate|].
    apply andb_prop in Hm as [Hc Hm]. apply bool_decide_eq_true in Hc.
    subst c. f_equal. now apply IH.
Qed.

Lemma glob_match_star (lit s : list ascii) :
  star_free lit = true ->
  glob_match ("*"%char :: lit) s = true -> lit `suffix_of` s.
Proof.
  intros Hfree. cbn [glob_match]. destruct (decide ("*"%char = "*"%char)); [|congruence].
  induction s as [|c s IH]; intros Hm.
  - apply orb_prop in Hm as [Hm|Hm]; [|discriminate].
    apply glob_match_literal in Hm; [|exact Hfree]. now subst lit.
  - apply orb_prop in Hm as [Hm|Hm].
    + apply glob_match_literal in Hm; [|exact Hfree]. now subst lit.
    + apply suffix_cons_r. now apply IH.
Qed.

(** The four patterns exclude one another: no name matches two of them. *)
Lemma patterns_exclusive (n p1 p2 : string) :
  In p1 patterns -> In p2 patterns ->
  fnmatch n p1 = true -> fnmatch n p2 = true -> p1 = p2.
Proof.
  unfold fnmatch. intros H1 H2 Hm1 Hm2.
  assert (Hsuffix : forall p, In p patterns -> glob_match (list_ascii_of_string p)
                      (list_ascii_of_string n) = true ->
            exists lit, list_ascii_of_string p = "*"%char :: lit /\
                        lit `suffix_of` list_ascii_of_string n).
  { intros p Hp Hm. cbn in Hp.
    destruct Hp as [<-|[<-|[<-|[<-|[]]]]];
      (eexists; split; [reflexivity|]; apply glob_match_star; [reflexivity | exact Hm]). }
  destruct (Hsuffix p1 H1 Hm1) as (l1 & Hp1 & Hs1).
  destruct (Hsuffix p2 H2 Hm2) as (l2 & Hp2 & Hs2).
  pose proof (suffix_weak_total _ _ _ Hs1 Hs2) as Htotal.
  cbn in H1, H2.
  destruct H1 as [<-|[<-|[<-|[<-|[]]]]]; destruct H2 as [<-|[<-|[<-|[<-|[]]]]];
    try reflexivity; exfalso;
    injection Hp1 as <-; injection Hp2 as <-;
    destruct Htotal as [Ht|Ht]; revert Ht; apply (bool_decide_unpack _); vm_compute; exact I.
Qed.

Lemma rglob_in_spec (cs : list entry) (d : Path) (pattern : string) (p : Path) :
  In p (rglob_in cs d pattern) <->
  exists rel, p = mkPath (root d) (parts d ++ rel) /\ In rel (walk cs) /\
              fnmatch (List.last rel "") pattern = true.
Proof.
  unfold rglob_in. rewrite in_map_iff. split.
  - intros (rel & <- & Hrel). apply filter_In in Hrel as [Hin Hm]. now exists rel.
  - intros (rel & -> & Hin & Hm). exists rel. split; [reflexivity|].
    apply filter_In. now split.
Qed.

Lemma rglob_in_NoDup (cs : list entry) (d : Path) (pattern : string) :
  NoDup (walk cs) -> NoDup (rglob_in cs d pattern).
Proof.
  intros Hw. unfold rglob_in.
  assert (Hinj : Inj eq eq (fun rel => mkPath (root d) (parts d ++ rel))).
  { intros x y [= Heq]. now apply app_inv_head in Heq. }
  apply (NoDup_fmap_2 _).
  now apply NoDup_ListNoDup, List.NoDup_filter, NoDup_ListNoDup.
Qed.

Lemma rglob_all_NoDup (cs : list entry) (d : Path) (ps : list string) :
  NoDup (walk cs) -> NoDup ps -> (forall p, In p ps -> In p patterns) ->
  NoDup (flat_map (rglob_in cs d) ps).
Proof.
  intros Hw. induction ps as [|pat ps IH]; intros Hps Hsub; [constructor|].
  cbn [flat_map]. apply NoDup_cons in Hps as [Hpat Hps].
  apply NoDup_app. split; [now apply rglob_in_NoDup|]. split.
  - intros p Hp Hp'. apply list_elem_of_In in Hp, Hp'.
    apply rglob_in_spec in Hp as (rel & -> & _ & Hm).
    apply in_flat_map in Hp' as (pat' & Hpat' & Hp').
    apply rglob_in_spec in Hp' as (rel' & [= Heq] & _ & Hm').
    apply app_inv_head in Heq. subst rel'.
    apply Hpat. apply list_elem_of_In.
    rewrite (patterns_exclusive (List.last rel "") pat pat');
      [exact Hpat' | | | exact Hm | exact Hm'].
    + apply Hsub. now left.
    + apply Hsub. now right.
  - apply IH; [exact Hps|]. intros p Hp. apply Hsub. now right.
Qed.

Lemma find_sqlitedb_files_NoDup (W : world) (self : SQLiteForensics) :
  wf_listing (scandir_tree W (directory_path self)) = true ->
  NoDup (find_sqlitedb_files W self).
Proof.
  intros Hwf. unfold find_sqlitedb_files.
  apply rglob_all_NoDup; [now apply walk_wf_NoDup | | tauto].
  apply (bool_decide_unpack _). vm_compute. exact I.
Qed.

Lemma beneath_slash_free (e : entry) (rel : list string) :
  wf_entry e = true -> In rel (beneath e) -> forallb slash_free rel = true.
Proof.
  revert rel. induction e as [n|n cs IH] using entry_tree_ind; intros rel Hwf Hin;
    [contradiction|].
  cbn [wf_entry beneath entry_name] in *.
  apply andb_prop in Hwf as [Hn Hwf]. apply andb_prop in Hwf as [_ Hcs].
  rewrite forallb_forall in Hcs. rewrite Forall_forall in IH.
  apply in_map_iff in Hin as (r & <- & Hr). cbn [forallb]. rewrite Hn. cbn [andb].
  apply in_app_or in Hr as [Hr|Hr].
  - apply in_map_iff in Hr as (c & <- & Hc). cbn [forallb].
    specialize (Hcs c Hc). destruct c; cbn [wf_entry entry_name] in *;
      apply andb_prop in Hcs as [-> _]; reflexivity.
  - apply in_flat_map in Hr as (c & Hc & Hr).
    apply (IH c); [now apply list_elem_of_In | now apply Hcs | exact Hr].
Qed.

Lemma walk_slash_free (cs : list entry) (rel : list string) :
  wf_listing cs = true -> In rel (walk cs) -> forallb slash_free rel = true.
Proof.
  unfold wf_listing, walk. intros Hwf Hin. apply andb_prop in Hwf as [_ Hcs].
  rewrite forallb_forall in Hcs. apply in_app_or in Hin as [Hr|Hr].
  - apply in_map_iff in Hr as (c & <- & Hc). cbn [forallb].
    specialize (Hcs c Hc). destruct c; cbn [wf_entry entry_name] in *;
      apply andb_prop in Hcs as [-> _]; reflexivity.
  - apply in_flat_map in Hr as (c & Hc & Hr).
    apply (beneath_slash_free c); [now apply Hcs | exact Hr].
Qed.

(** On a well-formed tree the discovered paths have pairwise distinct
    strings. *)
Lemma find_sqlitedb_files_str_NoDup (W : world) (self : SQLiteForensics) :
  wf_listing (scandir_tree W (directory_path self)) = true ->
  NoDup (map str (find_sqlitedb_files W self)).
Proof.
  intros Hwf.
  pose proof (find_sqlitedb_files_NoDup W self Hwf) as Hfiles.
  apply NoDup_fmap_2_strong; [|exact Hfiles].
  intros p q Hp Hq Hstr. unfold find_sqlitedb_files in Hp, Hq.
  apply list_elem_of_In, in_flat_map in Hp as (pat & _ & Hp).
  apply list_elem_of_In, in_flat_map in Hq as (pat' & _ & Hq).
  apply rglob_in_spec in Hp as (rel & -> & Hrel & _).
  apply rglob_in_spec in Hq as (rel' & -> & Hrel' & _).
  pose proof (walk_nonempty _ _ Hrel) as Hne.
  pose proof (walk_nonempty _ _ Hrel') as Hne'.
  destruct rel as [|x rel]; [congruence|]. destruct rel' as [|x' rel']; [congruence|].
  rewrite !str_nonempty_parts in Hstr. apply String.app_inj in Hstr.
  f_equal. f_equal.
  apply (join_common_prefix_inj (parts (directory_path self))); try assumption.
  - now apply (walk_slash_free _ _ Hwf).
  - now apply (walk_slash_free _ _ Hwf).
Qed.

(** C7, as stated, fails: the walker does not make the directory it is
    given absolute, so a relative directory yields relative paths. *)
Lemma relative_directory_yields_relative_paths :
  ~ walker_returns_absolute Sample.W Sample.self_rel.
Proof.
  intros [_ Habs].
  specialize (Habs (of_str "evidence/notes.sqlite")).
  discriminate Habs. vm_compute. left.
Qed.

(** C7, amended: on a directory tree in which no two entries of one
    directory share a name (and no name holds a slash),
    [find_sqlitedb_files] returns an ordered sequence in which no path
    occurs twice, neither as a path nor as the string of a path, and
    every returned path extends the directory path the walker was given
    by at least one component: it is absolute exactly when that directory
    path is. *)
Theorem find_sqlitedb_files_distinct_under_directory
    (W : world) (self : SQLiteForensics) :
  wf_listing (scandir_tree W (directory_path self)) = true ->
  NoDup (find_sqlitedb_files W self) /\
  NoDup (map str (find_sqlitedb_files W self)) /\
  forall p, p ∈ find_sqlitedb_files W self ->
    (exists rel, rel <> [] /\
       p = mkPath (root (directory_path self)) (parts (directory_path self) ++ rel)) /\
    is_absolute p = is_absolute (directory_path self).
Proof.
  intros Hwf. split; [now apply find_sqlitedb_files_NoDup|].
  split; [now apply find_sqlitedb_files_str_NoDup|].
  intros p Hp. unfold find_sqlitedb_files in Hp.
  apply list_elem_of_In, in_flat_map in Hp as (pat & _ & Hp).
  apply rglob_in_spec in Hp as (rel & -> & Hrel & _).
  split; [|reflexivity]. exists rel. split; [|reflexivity].
  now apply walk_nonempty in Hrel.
Qed.

Lemma find_sqlitedb_files_distinct_under_directory_witness :
  NoDup (find_sqlitedb_files Sample.W Sample.self_abs) /\
  NoDup (map str (find_sqlitedb_files Sample.W Sample.self_abs)) /\
  forall p, p ∈ find_sqlitedb_files Sample.W Sample.self_abs ->
    (exists rel, rel <> [] /\ p = mkPath "/" (["evidence"] ++ rel)) /\
    is_absolute p = true.
Proof.
  apply (find_sqlitedb_files_distinct_under_directory Sample.W Sample.self_abs).
  vm_compute. reflexivity.
Defined.

(** ** The report synthesizer *)

(** A line that must have been taken for the run to return. *)
Ltac pass_print :=
  unfold bind at 1; rewrite print_run;
  destruct (said _ _) as [[]|?]; [|discriminate].

(** A line that the console takes. *)
Ltac take_print Hok :=
  unfold bind at 1; rewrite print_run, (said_accepted _ _ Hok).

(** What [generate_report] returns when it returns a report, and the state
    it leaves. *)
Lemma generate_report_returns (W : world) (self : SQLiteForensics) (s s' : state)
    (r : full_report) :
  generate_report W self s = (Return (Some r), s') ->
  r = mkFullReport (now_strftime W "%Y-%m-%d %H:%M:%S") (str (directory_path self))
        (str (resolve W (output_dir self))) (length (find_sqlitedb_files W self))
        (fold_left
           (fun dbs db_file =>
              dict_set dbs (str db_file) (artifact_of (analysis_outcome W self db_file)))
           (find_sqlitedb_files W self) []) /\
  find_sqlitedb_files W self <> [] /\
  fst (for_each (find_sqlitedb_files W self) [] (analyze_into W self) s)
  = Return (databases r) /\
  written s'
  = <[ str (truediv (output_dir self)
              ("text_report_" +:+ now_strftime W "%Y%m%d_%H%M%S" +:+ ".txt"))
       := TextReport r ]>
      (<[ str (truediv (output_dir self)
                 ("forensic_report_" +:+ now_strftime W "%Y%m%d_%H%M%S" +:+ ".json"))
          := JsonReport r ]>
         (written (snd (for_each (find_sqlitedb_files W self) [] (analyze_into W self) s)))).
Proof.
  unfold generate_report. do 7 pass_print.
  destruct (find_sqlitedb_files W self) as [|p ps] eqn:Hfiles.
  { unfold bind at 1. rewrite print_run. now destruct (said W _). }
  unfold bind at 1.
  pose proof (analyze_loop_value W self (p :: ps) [] s) as Hloop.
  destruct (for_each (p :: ps) [] (analyze_into W self) s) as [o s1].
  cbn [fst snd] in *. subst o.
  destruct (entries_outcome W self (p :: ps) []) as [dbs|e] eqn:Hdbs; [|discriminate].
  apply entries_outcome_fold in Hdbs. subst dbs.
  step_with write_file_run.
  destruct (open_w_error W _); [discriminate|].
  destruct (write_error W _ _); [discriminate|].
  do 4 pass_print.
  unfold generate_text_report. unfold bind at 1. step_with write_file_run.
  destruct (open_w_error W _); [discriminate|].
  destruct (write_error W _ _); [discriminate|].
  rewrite print_run. destruct (said W _) as [[]|?]; [|discriminate].
  unfold ret. intros [= <- <-]. split; [reflexivity|]. split; [discriminate|].
  split; reflexivity.
Qed.





(** An empty run on a console that takes every line. *)
Lemma generate_report_empty (W : world) (self : SQLiteForensics) (s : state) :
  find_sqlitedb_files W self = [] -> console_accepts W ->
  generate_report W self s = (Return None, s).
Proof.
  intros Hnone Hok. unfold generate_report. rewrite Hnone.
  unfold bind, print, lift, ret. now rewrite !(said_accepted _ _ Hok).
Qed.

(** C10: when the walker finds no file, [generate_report] leaves the state
    as it was: no report is built, no file is written, no directory is
    made.  It returns [None]; the only other way out is an exception of
    the console on one of the lines it prints. *)
Theorem empty_run_writes_nothing (W : world) (self : SQLiteForensics) (s : state) :
  find_sqlitedb_files W self = [] ->
  snd (generate_report W self s) = s /\
  (console_accepts W -> generate_report W self s = (Return None, s)) /\
  (fst (generate_report W self s) = Return None \/
   exists line e, print_error W line = Some e /\
                  fst (generate_report W self s) = Raise e).
Proof.
  intros Hnone. split; [|split].
  - unfold generate_report. rewrite Hnone.
    unfold bind, print, lift, ret. now repeat destruct (said W _).
  - intros Hok. now apply generate_report_empty.
  - unfold generate_report. rewrite Hnone. unfold bind, print, lift, ret.
    repeat match goal with
           | |- context [said W ?line] =>
               let Hline := fresh "Hline" in
               destruct (said W line) as [[]|?] eqn:Hline;
               [|right; eexists _, _; split;
                 [apply said_refused; exact Hline | reflexivity]]
           end.
    now left.
Qed.

Lemma empty_run_writes_nothing_witness :
  generate_report Sample.W Sample.self_none Sample.s0 = (Return None, Sample.s0).
Proof.
  apply (empty_run_writes_nothing Sample.W Sample.self_none Sample.s0);
    [reflexivity | intros line; reflexivity].
Defined.

(** By contrast a run that finds files writes both reports. *)
Example run_with_files_persists :
  let s' := snd (generate_report Sample.W Sample.self_abs Sample.s0) in
  is_Some (written s' !! "/opt/tools/forensic_report/forensic_report_20251107_101500.json") /\
  is_Some (written s' !! "/opt/tools/forensic_report/text_report_20251107_101500.txt").
Proof. split; vm_compute; eauto. Qed.

(** ** The parts of an analysis *)

(** The parts of an analysis that returned. *)
Lemma analysis_outcome_parts (W : world) (self : SQLiteForensics) (p : Path)
    (rep : db_report) :
  analysis_outcome W self p = Return rep ->
  metadata_outcome W p = Return (r_metadata rep) /\
  r_integrity rep = integrity_value W p /\
  r_database_info rep = info_value W p /\
  r_deleted_records rep = deleted_value W p /\
  r_exported_tables rep
  = match info_value W p with
    | DatabaseInfo _ _ tables _ _ _ =>
        Some (exports_value W p tables (truediv (output_dir self) "exported_data") [])
    | DatabaseInfoError _ => None
    end /\
  match info_value W p with
  | DatabaseInfo _ _ _ _ _ _ =>
      mkdir_error W (truediv (output_dir self) "exported_data") = None
  | DatabaseInfoError _ => True
  end.
Proof.
  unfold analysis_outcome.
  do 4 (destruct (said W _) as [[]|?]; [|discriminate]; cbn [and_then]).
  destruct (metadata_outcome W p) as [md|e]; [|discriminate]. cbn [and_then].
  do 3 (destruct (said W _) as [[]|?]; [|discriminate]; cbn [and_then]).
  destruct (info_value W p) as [ver cnt tables ti idx trg|e0].
  - destruct (said W _) as [[]|?]; [|discriminate]; cbn [and_then].
    destruct (mkdir_error W _); [discriminate|].
    destruct (exports_outcome W p _ tables []) as [ex|e] eqn:Hex; [|discriminate].
    apply exports_outcome_fold in Hex. subst ex. cbn [and_then].
    now intros [= <-].
  - now intros [= <-].
Qed.


Lemma metadata_outcome_names (W : world) (p : Path) (md : metadata) :
  metadata_outcome W p = Return md -> filename md = name p /\ full_path md = str p.
Proof.
  unfold metadata_outcome, and_then.
  destruct (os_stat W p) as [st|]; [|discriminate].
  destruct (local_time W (st_ctime st)); [|discriminate].
  destruct (local_time W (st_mtime st)); [|discriminate].
  destruct (local_time W (st_atime st)); [|discriminate].
  destruct (hash_outcome W p "md5"); [|discriminate].
  destruct (hash_outcome W p "sha1"); [|discriminate].
  destruct (hash_outcome W p "sha256"); [|discriminate].
  now intros [= <-].
Qed.

(** When the metadata cannot be collected, the analysis on a console that
    takes every line raises the exception of the collector, nothing
    having been done, and the handler files it. *)
Lemma metadata_failure_is_filed (W : world) (self : SQLiteForensics) (db_file : Path)
    (dbs : dict artifact) (e : exn) (s : state) :
  metadata_outcome W db_file = Raise e -> console_accepts W ->
  analyze_database W self db_file s = (Raise e, s) /\
  analyze_into W self dbs db_file s
  = (Return (dict_set dbs (str db_file) (Failed e)), s).
Proof.
  intros Hmd Hok.
  assert (Han : analyze_database W self db_file s = (Raise e, s)).
  { unfold analyze_database. do 4 take_print Hok.
    step_with get_file_metadata_exact. now rewrite Hmd. }
  split; [exact Han|].
  unfold analyze_into, try_except. unfold bind at 1. rewrite Han.
  take_print Hok. reflexivity.
Qed.

(** ** Failures of the metadata collector *)


Lemma metadata_outcome_dates (W : world) (p : Path) (st : stat_result) :
  os_stat W p = Return st ->
  metadata_outcome W p
  = and_then (dates_of W st) (fun '(created, modified, accessed) =>
    and_then (hash_outcome W p "md5") (fun md5 =>
    and_then (hash_outcome W p "sha1") (fun sha1 =>
    and_then (hash_outcome W p "sha256") (fun sha256 =>
    Return (mkMetadata (name p) (str p) (st_size st)
              created modified accessed md5 sha1 sha256))))).
Proof.
  intros Hstat. unfold metadata_outcome, dates_of. rewrite Hstat. cbn [and_then].
  destruct (local_time W (st_ctime st)); [|reflexivity]. cbn [and_then].
  destruct (local_time W (st_mtime st)); [|reflexivity]. cbn [and_then].
  now destruct (local_time W (st_atime st)).
Qed.



(** * Further properties *)

(** ** The run report *)

Lemma NoDup_map_inj_on {A B} (f : A -> B) (l : list A) (x y : A) :
  NoDup (map f l) -> x ∈ l -> y ∈ l -> f x = f y -> x = y.
Proof.
  induction l as [|a l IH]; intros Hnd Hx Hy Heq; [now apply elem_of_nil in Hx|].
  cbn [map] in Hnd. apply NoDup_cons in Hnd as [Ha Hnd].
  apply elem_of_cons in Hx as [->|Hx]; apply elem_of_cons in Hy as [->|Hy].
  - reflexivity.
  - exfalso. apply Ha. rewrite Heq. now apply list_elem_of_fmap_2.
  - exfalso. apply Ha. rewrite <- Heq. now apply list_elem_of_fmap_2.
  - now apply IH.
Qed.



(** X2: when [generate_report] returns a report (the timestamp in the file
    names being free of slashes, as [strftime] makes it), the structured
    snapshot and the narrative are two different files, each a single
    entry of the output directory, and both hold exactly the report that
    is returned. *)
Theorem both_reports_hold_the_returned_report (W : world) (self : SQLiteForensics)
    (s s' : state) (r : full_report) :
  slash_free (now_strftime W "%Y%m%d_%H%M%S") = true ->
  generate_report W self s = (Return (Some r), s') ->
  let json := truediv (output_dir self)
                ("forensic_report_" +:+ now_strftime W "%Y%m%d_%H%M%S" +:+ ".json") in
  let txt := truediv (output_dir self)
               ("text_report_" +:+ now_strftime W "%Y%m%d_%H%M%S" +:+ ".txt") in
  parts json
  = parts (output_dir self)
    ++ ["forensic_report_" +:+ now_strftime W "%Y%m%d_%H%M%S" +:+ ".json"] /\
  parts txt
  = parts (output_dir self)
    ++ ["text_report_" +:+ now_strftime W "%Y%m%d_%H%M%S" +:+ ".txt"] /\
  str json <> str txt /\
  written s' !! str json = Some (JsonReport r) /\
  written s' !! str txt = Some (TextReport r).
Proof.
  intros Hts Hrun json txt.
  apply generate_report_returns in Hrun as (_ & _ & _ & Hw). fold json txt in Hw.
  assert (Hjson : json = mkPath (root (output_dir self))
            (parts (output_dir self)
             ++ ["forensic_report_" +:+ now_strftime W "%Y%m%d_%H%M%S" +:+ ".json"])).
  { apply (report_name_single (output_dir self) "forensic_report_" _ ".json" _ _ _ eq_refl
             eq_refl Hts eq_refl). }
  assert (Htxt : txt = mkPath (root (output_dir self))
            (parts (output_dir self)
             ++ ["text_report_" +:+ now_strftime W "%Y%m%d_%H%M%S" +:+ ".txt"])).
  { apply (report_name_single (output_dir self) "text_report_" _ ".txt" _ _ _ eq_refl
             eq_refl Hts eq_refl). }
  assert (Hne : str json <> str txt).
  { rewrite Hjson, Htxt, !str_nonempty_parts. intros Heq.
    apply String.app_inj, join_prefix_inj in Heq. discriminate Heq. }
  split; [now rewrite Hjson|]. split; [now rewrite Htxt|].
  split; [exact Hne|]. rewrite Hw. split.
  - rewrite lookup_insert_ne by congruence. apply lookup_insert_eq.
  - apply lookup_insert_eq.
Qed.

Lemma both_reports_hold_the_returned_report_witness :
  exists r,
    fst (generate_report Sample.W Sample.self_abs Sample.s0) = Return (Some r) /\
    written (snd (generate_report Sample.W Sample.self_abs Sample.s0))
      !! "/opt/tools/forensic_report/forensic_report_20251107_101500.json"
    = Some (JsonReport r).
Proof.
  destruct (generate_report Sample.W Sample.self_abs Sample.s0) as [o s'] eqn:Hrun.
  assert (Ho : exists r, o = Return (Some r)).
  { apply (f_equal fst) in Hrun. cbn [fst] in Hrun. rewrite <- Hrun.
    vm_compute. eauto. }
  destruct Ho as [r ->]. exists r. split; [reflexivity|]. cbn [snd].
  exact (proj1 (proj2 (proj2 (proj2
           (both_reports_hold_the_returned_report Sample.W Sample.self_abs
              Sample.s0 s' r eq_refl Hrun))))).
Defined.

(** X3: an output file that cannot be written is fatal to a run that found
    files (the console taking every line).  When the structured snapshot
    cannot be opened, [generate_report] raises with the state as the
    analysis left it: the exported tables stay, no report is written.
    When it opens and the writing raises, the exception leaves with an
    unfinished snapshot on the disk.  When the snapshot is written and it
    is the narrative that cannot be opened, the snapshot stays, and the
    exception is raised all the same. *)
Theorem unwritable_report_is_fatal (W : world) (self : SQLiteForensics)
    (s : state) (e : exn) :
  find_sqlitedb_files W self <> [] ->
  console_accepts W ->
  let json := truediv (output_dir self)
                ("forensic_report_" +:+ now_strftime W "%Y%m%d_%H%M%S" +:+ ".json") in
  let txt := truediv (output_dir self)
               ("text_report_" +:+ now_strftime W "%Y%m%d_%H%M%S" +:+ ".txt") in
  let analysed := for_each (find_sqlitedb_files W self) [] (analyze_into W self) s in
  (open_w_error W json = Some e ->
     generate_report W self s = (Raise e, snd analysed)) /\
  (open_w_error W json = None ->
     exists r,
       fst analysed = Return (databases r) /\
       total_files r = length (find_sqlitedb_files W self) /\
       (write_error W json (JsonReport r) = Some e ->
          generate_report W self s
          = (Raise e, with_file json (Partial (JsonReport r)) (snd analysed))) /\
       (write_error W json (JsonReport r) = None -> open_w_error W txt = Some e ->
          generate_report W self s
          = (Raise e, with_file json (JsonReport r) (snd analysed)))).
Proof.
  intros Hfound Hok json txt analysed. subst analysed. unfold generate_report.
  destruct (find_sqlitedb_files W self) as [|p ps] eqn:Hfiles; [contradiction|].
  pose proof (analyze_loop_value W self (p :: ps) [] s) as Hloop.
  destruct (for_each (p :: ps) [] (analyze_into W self) s) as [o s1] eqn:Hrun.
  destruct (entries_outcome_accepted W self (p :: ps) [] Hok) as [dbs Hdbs].
  rewrite Hdbs in Hloop. cbn [fst snd] in *. subst o. fold json. split.
  - intros Hjson. do 7 take_print Hok. step_with Hrun.
    step_with write_file_run. now rewrite Hjson.
  - intros Hjson.
    exists (mkFullReport (now_strftime W "%Y-%m-%d %H:%M:%S") (str (directory_path self))
              (str (resolve W (output_dir self))) (length (p :: ps)) dbs).
    split; [reflexivity|]. split; [reflexivity|]. split.
    + intros Hwrite. do 7 take_print Hok. step_with Hrun.
      step_with write_file_run. now rewrite Hjson, Hwrite.
    + intros Hwrite Htxt. do 7 take_print Hok. step_with Hrun.
      step_with write_file_run. rewrite Hjson, Hwrite. do 4 take_print Hok.
      unfold generate_text_report. fold txt. unfold bind at 1.
      step_with write_file_run. now rewrite Htxt.
Qed.

Lemma unwritable_report_is_fatal_witness :
  (exists s',
     generate_report Cases.full_disk Sample.self_abs Sample.s0
     = (Raise "[Errno 28] No space left on device", s')) /\
  (exists s',
     generate_report Cases.no_encoding Sample.self_abs Sample.s0
     = (Raise "'utf-8' codec can't encode character '\udcff'", s') /\
     exists c,
       written s' !! "/opt/tools/forensic_report/forensic_report_20251107_101500.json"
       = Some (Partial c)).
Proof.
  split.
  - eexists.
    apply (unwritable_report_is_fatal Cases.full_disk Sample.self_abs Sample.s0
             "[Errno 28] No space left on device").
    + vm_compute. discriminate.
    + intros line. reflexivity.
    + reflexivity.
  - destruct (unwritable_report_is_fatal Cases.no_encoding Sample.self_abs Sample.s0
                "'utf-8' codec can't encode character '\udcff'") as [_ Hopen].
    + vm_compute. discriminate.
    + intros line. reflexivity.
    + destruct (Hopen eq_refl) as (r & _ & _ & Hwrite & _).
      eexists. split; [apply Hwrite; reflexivity|].
      eexists. cbn [written with_file]. apply lookup_insert_eq.
Defined.

(** ** The analysis of one file *)

(** The directories after an analysis that returned: the export directory
    has been made when there were tables to export, and no other. *)
Lemma analyze_database_dirs (W : world) (self : SQLiteForensics) (db_path : Path)
    (s s' : state) (a : db_report) :
  analyze_database W self db_path s = (Return a, s') ->
  made_dirs s'
  = match info_value W db_path with
    | DatabaseInfo _ _ _ _ _ _ =>
        {[ str (truediv (output_dir self) "exported_data") ]} ∪ made_dirs s
    | DatabaseInfoError _ => made_dirs s
    end.
Proof.
  unfold analyze_database. do 4 pass_print.
  step_with get_file_metadata_exact.
  destruct (metadata_outcome W db_path) as [md|e]; [|discriminate].
  pass_print. step_with check_database_integrity_exact.
  pass_print. step_with get_database_info_exact.
  pass_print. step_with search_deleted_records_exact.
  destruct (info_value W db_path) as [ver cnt tables ti idx trg|e0] eqn:Hinfo.
  - unfold bind at 1. pass_print.
    unfold bind at 1. unfold mkdir.
    destruct (mkdir_error W _) as [e1|]; [discriminate|].
    unfold bind at 1.
    match goal with |- context [for_each tables [] ?body ?t] =>
      destruct (export_loop_run W db_path
                  (truediv (output_dir self) "exported_data") tables [] t)
        as (s2 & -> & Hdirs) end.
    destruct (exports_outcome W db_path _ tables []); [|discriminate].
    unfold ret. intros [= _ <-]. rewrite Hdirs. cbn [made_dirs].
    now rewrite !after_conn_made_dirs.
  - unfold bind at 1. unfold ret. intros [= _ <-].
    now rewrite !after_conn_made_dirs.
Qed.

(** X4: a file that is no database is not a terminal error of its
    artifact.  Once its metadata are collected (the file is there, the
    console takes every line), [analyze_database] returns a full record
    in which the integrity verdict, the structure and the free-space
    signal all carry the reason for which the engine refused the file,
    and which has no [exported_tables]; no file is written and no
    directory made; and [generate_report] files the record as an
    analysis, not as an error entry. *)
Theorem not_a_database_is_analysed (W : world) (self : SQLiteForensics)
    (db_path : Path) (dbs : dict artifact) (md : metadata) (e : exn) (s : state) :
  console_accepts W ->
  get_file_metadata W db_path s = (Return md, s) ->
  present W s db_path = true ->
  not_a_database W db_path e ->
  let record := mkDbReport md (error_prefix +:+ e) (DatabaseInfoError e)
                  (DeletedError e) None in
  exists s',
    analyze_database W self db_path s = (Return record, s') /\
    written s' = written s /\ made_dirs s' = made_dirs s /\
    analyze_into W self dbs db_path s
    = (Return (dict_set dbs (str db_path) (Analysed record)), s').
Proof.
  intros Hok Hmd Hthere Hnot record.
  assert (Hvalues : integrity_value W db_path = error_prefix +:+ e /\
                    info_value W db_path = DatabaseInfoError e /\
                    deleted_value W db_path = DeletedError e).
  { unfold integrity_value, info_value, deleted_value, guarded, integrity_body,
      info_body, deleted_body.
    destruct Hnot as [->|(-> & (version & more & ->) & -> & Hnames & ->)];
      [now repeat split|].
    cbn [and_then fetchone_0]. now rewrite Hnames. }
  destruct Hvalues as (Hintegrity & Hinfo & Hdeleted).
  assert (Han : exists s',
            analyze_database W self db_path s = (Return record, s') /\
            written s' = written s /\ made_dirs s' = made_dirs s).
  { unfold analyze_database. do 4 take_print Hok. step_with Hmd.
    take_print Hok. step_with check_database_integrity_exact.
    take_print Hok. step_with get_database_info_exact.
    take_print Hok. step_with search_deleted_records_exact.
    rewrite Hintegrity, Hinfo, Hdeleted. unfold bind at 1. unfold ret.
    eexists. split; [reflexivity|]. split.
    - rewrite !after_conn_written_present; try reflexivity;
        repeat apply after_conn_present; exact Hthere.
    - now rewrite !after_conn_made_dirs. }
  destruct Han as (s' & Han & Hw & Hd). exists s'.
  split; [exact Han|]. split; [exact Hw|]. split; [exact Hd|].
  unfold analyze_into, try_except. unfold bind at 1. now rewrite Han.
Qed.

Lemma not_a_database_is_analysed_witness :
  exists md s',
    analyze_into Sample.W Sample.self_abs [] (of_str "/evidence/notes.sqlite") Sample.s0
    = (Return [("/evidence/notes.sqlite",
                Analysed (mkDbReport md "Помилка: file is not a database"
                            (DatabaseInfoError "file is not a database")
                            (DeletedError "file is not a database") None))], s') /\
    written s' = ∅.
Proof.
  destruct (get_file_metadata Sample.W (of_str "/evidence/notes.sqlite") Sample.s0)
    as [o s1] eqn:Hmd.
  assert (Ho : exists md, o = Return md /\ s1 = Sample.s0).
  { apply (f_equal fst) in Hmd as Hv. apply (f_equal snd) in Hmd as Hs.
    cbn [fst snd] in Hv, Hs. rewrite <- Hv, <- Hs. eexists. split; reflexivity. }
  destruct Ho as (md & -> & ->).
  destruct (not_a_database_is_analysed Sample.W Sample.self_abs
              (of_str "/evidence/notes.sqlite") [] md "file is not a database"
              Sample.s0 (fun line => eq_refl) Hmd eq_refl)
    as (s' & _ & Hw & _ & Hinto).
  - right. split; [reflexivity|]. split; [now exists "3.45.1", []|]. now repeat split.
  - exists md, s'. split; [exact Hinto | exact Hw].
Defined.

(** X5: in every record that [analyze_database] returns, [exported_tables]
    is there exactly when the introspection succeeded; it then has one
    entry for each table the introspection lists and no other, each
    holding either the path of the CSV file of that table or a string
    that begins with the export error prefix; and the export directory
    has been made. *)
Theorem exported_tables_follow_introspection (W : world) (self : SQLiteForensics)
    (db_path : Path) (s s' : state) (a : db_report) :
  analyze_database W self db_path s = (Return a, s') ->
  match r_database_info a with
  | DatabaseInfoError _ => r_exported_tables a = None
  | DatabaseInfo _ _ tables _ _ _ =>
      let export_dir := truediv (output_dir self) "exported_data" in
      exists exported,
        r_exported_tables a = Some exported /\
        NoDup (dict_keys exported) /\
        (forall t, t ∈ dict_keys exported <-> t ∈ tables) /\
        (forall t, t ∈ tables ->
           exists v, dict_get exported t = Some v /\
             (v = str (csv_path_of db_path t export_dir) \/
              String.prefix export_error_prefix v = true)) /\
        str export_dir ∈ made_dirs s'
  end.
Proof.
  intros Hrun.
  pose proof (analyze_database_value W self db_path s) as Hval.
  pose proof (analyze_database_dirs W self db_path s s' a Hrun) as Hdirs.
  rewrite Hrun in Hval. cbn [fst] in Hval. symmetry in Hval.
  apply analysis_outcome_parts in Hval as (_ & _ & Hinfo & _ & Hexported & _).
  rewrite Hinfo. rewrite Hexported.
  destruct (info_value W db_path) as [ver cnt tables ti idx trg|e0]; [|reflexivity].
  eexists. split; [reflexivity|].
  destruct (dict_fold_keys (fun t => t)
              (fun t => export_value W db_path t (truediv (output_dir self) "exported_data"))
              tables []) as (Hnd & Hkeys & _).
  split; [apply Hnd, NoDup_nil_2|]. split; [|split].
  - intros t. unfold exports_value. rewrite Hkeys, map_id. cbn [dict_keys map].
    rewrite elem_of_nil. tauto.
  - intros t Ht. eexists. split.
    { unfold exports_value.
      apply (dict_fold_get (fun t => t)
               (fun t => export_value W db_path t
                           (truediv (output_dir self) "exported_data")) tables [] t);
        [now intros y _ -> | now left]. }
    unfold export_value, guarded.
    destruct (connect_error W db_path); [right; apply prefix_app|].
    destruct (export_outcome W db_path t _); cbn [and_then];
      [now left | right; apply prefix_app].
  - rewrite Hdirs. apply elem_of_union_l, elem_of_singleton. reflexivity.
Qed.

Lemma exported_tables_follow_introspection_witness :
  match fst (analyze_database Sample.W Sample.self_abs (of_str "/evidence/a/app.db")
               Sample.s0) with
  | Return a =>
      exists exported,
        r_exported_tables a = Some exported /\
        forall t, t ∈ dict_keys exported <-> t ∈ ["users"; "log"; "fts"]
  | Raise _ => False
  end.
Proof.
  destruct (analyze_database Sample.W Sample.self_abs (of_str "/evidence/a/app.db")
              Sample.s0) as [o s'] eqn:Hrun.
  assert (Ho : exists a, o = Return a /\
                 exists v c ti ix tr,
                   r_database_info a = DatabaseInfo v c ["users"; "log"; "fts"] ti ix tr).
  { apply (f_equal fst) in Hrun. cbn [fst] in Hrun. rewrite <- Hrun.
    vm_compute. eexists. split; [reflexivity|]. eexists _, _, _, _, _. reflexivity. }
  destruct Ho as (a & -> & v & c & ti & ix & tr & Hinfo). cbn [fst].
  pose proof (exported_tables_follow_introspection Sample.W Sample.self_abs
                (of_str "/evidence/a/app.db") Sample.s0 s' a Hrun) as Hshape.
  rewrite Hinfo in Hshape. destruct Hshape as (exported & Hsome & _ & Hkeys & _).
  exists exported. split; [exact Hsome | exact Hkeys].
Defined.

(** ** The introspector and the exporter *)

(** X6: [get_database_info] reflects each table on its own.  When the
    connection opens and the catalog reads, the tables are listed in
    catalog order and counted, and [tables_info] has an entry for each
    listed name and no other.  The entry of a table is made of the
    answers to its own two statements, in which the name stands between
    single quotes just as the catalog gives it: the error when the count
    or the column listing raises, the counted rows and the columns in the
    order of the listing otherwise.  What happens on one table changes
    nothing for another, and the indexes and triggers are reported all
    the same. *)
Theorem get_database_info_isolates_tables (W : world) (db_path : Path)
    (version : string) (more tables indexes triggers : list string) (s : state) :
  connect_error W db_path = None ->
  sql_text W db_path version_statement = Return (version :: more) ->
  sql_text W db_path (names_statement "table") = Return tables ->
  sql_text W db_path (names_statement "index") = Return indexes ->
  sql_text W db_path (names_statement "trigger") = Return triggers ->
  exists tables_info s',
    get_database_info W db_path s
    = (Return (DatabaseInfo version (length tables) tables tables_info indexes triggers),
       s') /\
    NoDup (dict_keys tables_info) /\
    (forall t, t ∈ dict_keys tables_info <-> t ∈ tables) /\
    (NoDup tables -> dict_keys tables_info = tables) /\
    (forall t, t ∈ tables ->
       (forall e, sql_int W db_path (count_statement t) = Raise e ->
          dict_get tables_info t = Some (TableError e)) /\
       (forall n rest e,
          sql_int W db_path (count_statement t) = Return (n :: rest) ->
          sql_table_info W db_path (table_info_statement t) = Raise e ->
          dict_get tables_info t = Some (TableError e)) /\
       (forall n rest columns,
          sql_int W db_path (count_statement t) = Return (n :: rest) ->
          sql_table_info W db_path (table_info_statement t) = Return columns ->
          dict_get tables_info t = Some (TableInfo n columns))).
Proof.
  intros Hconn Hversion Htables Hindexes Htriggers.
  exists (tables_value W db_path tables []). eexists. split.
  { rewrite get_database_info_exact. unfold info_value, guarded, info_body.
    rewrite Hconn, Hversion, Htables, Hindexes, Htriggers. reflexivity. }
  destruct (dict_fold_keys (fun t => t) (table_value W db_path) tables [])
    as (Hnd & Hkeys & Hord).
  fold (tables_value W db_path tables []) in Hnd, Hkeys, Hord.
  rewrite map_id in Hkeys, Hord.
  split; [apply Hnd, NoDup_nil_2|]. split; [|split].
  - intros t. rewrite Hkeys. cbn [dict_keys map]. rewrite elem_of_nil. tauto.
  - intros Hdistinct. now apply Hord.
  - intros t Ht. rewrite (tables_value_get W db_path tables [] t Ht).
    unfold table_value. split; [|split].
    + now intros e ->.
    + now intros n rest e -> ->.
    + now intros n rest columns -> ->.
Qed.

Lemma get_database_info_isolates_tables_witness :
  exists tables_info s',
    get_database_info Sample.W (of_str "/evidence/a/app.db") Sample.s0
    = (Return (DatabaseInfo "3.45.1" 3 ["users"; "log"; "fts"] tables_info
                 ["idx_users"] []), s') /\
    dict_get tables_info "fts" = Some (TableError "no such module: fts9") /\
    dict_get tables_info "log"
    = Some (TableInfo 0 [mkColumn 0 "line" "TEXT" 0 None 0]).
Proof.
  destruct (get_database_info_isolates_tables Sample.W (of_str "/evidence/a/app.db")
              "3.45.1" [] ["users"; "log"; "fts"] ["idx_users"] [] Sample.s0
              eq_refl eq_refl eq_refl eq_refl eq_refl)
    as (tables_info & s' & Hrun & _ & _ & _ & Hentries).
  exists tables_info, s'. split; [exact Hrun|]. split.
  - apply (Hentries "fts"); [|reflexivity].
    apply (bool_decide_unpack _). vm_compute. exact I.
  - apply (proj2 (proj2 (Hentries "log" ltac:(apply (bool_decide_unpack _);
                                               vm_compute; exact I))) 0%Z []);
      reflexivity.
Defined.

(** X7: exporting is idempotent.  When a table has been exported, exporting
    it again from the same database to the same directory succeeds,
    returns the same path and leaves the written files exactly as they
    were: the file is rewritten with the same rows. *)
Theorem export_is_idempotent (W : world) (db_path : Path) (table_name : string)
    (output_path : Path) (s s1 : state) (v : string) :
  export_table_data_try W db_path table_name output_path s = (Return v, s1) ->
  exists s2,
    export_table_data_try W db_path table_name output_path s1 = (Return v, s2) /\
    written s2 = written s1 /\ made_dirs s2 = made_dirs s1.
Proof.
  intros Hrun.
  pose proof (export_table_data_try_run W db_path table_name output_path s) as H1.
  pose proof (export_table_data_try_run W db_path table_name output_path s1) as H2.
  rewrite Hrun in H1. unfold after_export in H1, H2.
  destruct (connect_error W db_path) as [e|]; [discriminate|].
  unfold export_outcome in H1, H2.
  destruct (export_body W db_path table_name) as [content|e]; [|discriminate].
  cbn [and_then] in H1, H2.
  destruct (open_w_error W _) as [e|]; [discriminate|].
  destruct (write_error W _ _) as [e|]; [discriminate|].
  cbn [and_then] in H1, H2. injection H1 as -> ->.
  eexists. split; [exact H2|]. split; [|reflexivity].
  set (csv := csv_path_of db_path table_name output_path).
  set (s1 := closed (next_conn s) (with_file csv content (connected W db_path s))).
  assert (Hthere : present W s1 db_path = true).
  { pose proof (connected_there W db_path s) as Hp. unfold present in Hp |- *.
    apply orb_true_iff in Hp as [Hp|Hp]; [now rewrite Hp|].
    apply orb_true_iff. right. apply bool_decide_eq_true in Hp.
    apply bool_decide_eq_true. subst s1. cbn [written closed with_file].
    destruct (decide (str csv = str db_path)) as [->|Hne];
      [rewrite lookup_insert_eq; eauto | now rewrite lookup_insert_ne]. }
  cbn [written closed with_file]. rewrite (connected_written W db_path s1 Hthere).
  subst s1. cbn [written closed with_file]. apply insert_insert_eq.
Qed.

Lemma export_is_idempotent_witness :
  exists s2,
    export_table_data_try Sample.W (of_str "/evidence/a/app.db") "users" (of_str "out")
      (snd (export_table_data_try Sample.W (of_str "/evidence/a/app.db") "users"
              (of_str "out") Sample.s0))
    = (Return "out/app_users.csv", s2) /\
    written s2
    = written (snd (export_table_data_try Sample.W (of_str "/evidence/a/app.db") "users"
                      (of_str "out") Sample.s0)).
Proof.
  destruct (export_is_idempotent Sample.W (of_str "/evidence/a/app.db") "users"
              (of_str "out") Sample.s0
              (snd (export_table_data_try Sample.W (of_str "/evidence/a/app.db") "users"
                      (of_str "out") Sample.s0))
              "out/app_users.csv") as (s2 & Hrun & Hw & _).
  - vm_compute. reflexivity.
  - exists s2. split; [exact Hrun | exact Hw].
Defined.



(** X16: each of the four operations that open a connection (integrity
    check, schema introspection, free-space query, table export) ends in
    the state in which the body of its [try] ends.  When the body runs to
    its end the connection has been closed, the connections open
    afterwards being those open before; when [sqlite3.connect] itself
    raises nothing was opened; when a later step raises, the connection
    opened by the body is still open when the operation returns. *)
Theorem connections_released_on_success (W : world) (db_path : Path) :
  released_on_success W db_path
    (check_database_integrity_try W db_path) (check_database_integrity W db_path) /\
  released_on_success W db_path
    (get_database_info_try W db_path) (get_database_info W db_path) /\
  released_on_success W db_path
    (search_deleted_records_try W db_path) (search_deleted_records W db_path) /\
  (forall (table_name : string) (output_path : Path),
      released_on_success W db_path
        (export_table_data_try W db_path table_name output_path)
        (export_table_data W db_path table_name output_path)).
Proof.
  split; [apply check_database_integrity_releases|].
  split; [apply get_database_info_releases|].
  split; [apply search_deleted_records_releases|].
  intros. apply export_table_data_releases.
Qed.

Lemma connections_released_on_success_witness :
  open_conns (snd (get_database_info Sample.W (of_str "/evidence/a/app.db") Sample.s0)) = [] /\
  open_conns (snd (get_database_info Sample.W (of_str "/evidence/notes.sqlite") Sample.s0)) = [0%nat].
Proof.
  assert (Hfresh : next_conn Sample.s0 ∉ open_conns Sample.s0) by apply not_elem_of_nil.
  split.
  - destruct (connections_released_on_success Sample.W (of_str "/evidence/a/app.db"))
      as (_ & Hinfo & _).
    destruct (Hinfo Sample.s0 Hfresh) as [-> Hrun]. exact Hrun.
  - destruct (connections_released_on_success Sample.W (of_str "/evidence/notes.sqlite"))
      as (_ & Hinfo & _).
    destruct (Hinfo Sample.s0 Hfresh) as [-> Hrun].
    destruct Hrun as [[Hcontra _]|Hopen]; [discriminate Hcontra | exact Hopen].
Defined.

(** ** The hasher, at its edges *)

(** X9: a digest algorithm that [hashlib] does not provide is not turned
    into an error string: [calculate_hash] lets the exception through.
    The metadata collector never returns a record then; once [stat] and
    the three dates have succeeded it is this exception that leaves it,
    and on a console that takes every line the artifact becomes an error
    entry of the run, with nothing opened or written; this for every
    file, whatever its contents. *)
Theorem unsupported_digest_fails_the_artifact (W : world) (self : SQLiteForensics)
    (db_file : Path) (dbs : dict artifact) (s : state) (e : exn) :
  hashlib_new W "md5" = Raise e ->
  calculate_hash W db_file "md5" s = (Raise e, s) /\
  (exists e', get_file_metadata W db_file s = (Raise e', s)) /\
  (forall st dates,
     os_stat W db_file = Return st -> dates_of W st = Return dates ->
     get_file_metadata W db_file s = (Raise e, s) /\
     (console_accepts W ->
      analyze_into W self dbs db_file s
      = (Return (dict_set dbs (str db_file) (Failed e)), s))).
Proof.
  intros Hnew.
  assert (Hhash : hash_outcome W db_file "md5" = Raise e).
  { unfold hash_outcome. now rewrite Hnew. }
  split; [now rewrite calculate_hash_exact, Hhash|]. split.
  - rewrite get_file_metadata_exact. unfold metadata_outcome, and_then.
    destruct (os_stat W db_file) as [st|]; [|eauto].
    destruct (local_time W (st_ctime st)); [|eauto].
    destruct (local_time W (st_mtime st)); [|eauto].
    destruct (local_time W (st_atime st)); [|eauto].
    rewrite Hhash. eauto.
  - intros st [[created modified] accessed] Hstat Hdates.
    assert (Hmd : metadata_outcome W db_file = Raise e).
    { rewrite (metadata_outcome_dates W db_file st Hstat), Hdates. cbn [and_then].
      now rewrite Hhash. }
    split; [now rewrite get_file_metadata_exact, Hmd|].
    intros Hok. now apply metadata_failure_is_filed.
Qed.

Lemma unsupported_digest_fails_the_artifact_witness :
  analyze_into Cases.no_digest Sample.self_abs [] (of_str "/evidence/a/app.db") Sample.s0
  = (Return [("/evidence/a/app.db", Failed "unsupported hash type md5")], Sample.s0).
Proof.
  destruct (unsupported_digest_fails_the_artifact Cases.no_digest
              Sample.self_abs (of_str "/evidence/a/app.db") [] Sample.s0
              "unsupported hash type md5" eq_refl) as (_ & _ & Hfiled).
  destruct (Hfiled (mkStat 8192 1700000000 1700000500 1700000900)
              ("2023-11-14 22:13:20", "2023-11-14 22:13:20", "2023-11-14 22:13:20")
              eq_refl eq_refl) as [_ Hinto].
  exact (Hinto (fun line => eq_refl)).
Defined.


(** One turn of the read loop. *)
Lemma feed_turn (H : Hasher) (bad_read : option (nat * exn)) (k : nat)
    (st : hstate H) (rest : list byte) :
  feed H bad_read k st rest
  = match read_fails bad_read k with
    | Some e => Raise e
    | None =>
        match take chunk_size rest with
        | [] => Return st
        | chunk =>
            feed H bad_read (S k) (h_update H st chunk) (drop chunk_size rest)
        end
    end.
Proof.
  funelim (feed H bad_read k st rest);
    repeat match goal with
           | Hr : read_fails _ _ = _ |- _ => rewrite Hr
           | Ht : take _ _ = _ |- _ => rewrite Ht
           end; reflexivity.
Qed.

(** The read loop when the read number [k] is the one that raises: the
    loop gets to that read exactly when the reads before it all delivered
    bytes. *)
Lemma feed_failing_read (H : Hasher) (k : nat) (e : exn) (j : nat)
    (st : hstate H) (rest : list byte) :
  (j <= k)%nat ->
  feed H (Some (k, e)) j st rest
  = if ((k - j =? 0) || ((k - j - 1) * chunk_size <? length rest))%nat
    then Raise e else Return (h_update H st rest).
Proof.
  remember (length rest) as n eqn:Hn. revert rest j st Hn.
  induction n as [n IH] using lt_wf_ind. intros rest j st Hn Hjk. subst n.
  rewrite feed_turn. unfold read_fails.
  destruct (decide (k = j)) as [->|Hne]; [now rewrite Nat.sub_diag|].
  destruct (Nat.eqb_spec (k - j) 0) as [|_]; [lia|]. cbn [orb].
  destruct (take chunk_size rest) as [|b bs] eqn:Htake.
  - apply take_chunk_nil in Htake. subst rest. rewrite h_update_nil. cbn [length].
    destruct (Nat.ltb_spec ((k - j - 1) * chunk_size) 0) as [Hlt|_];
      [inversion Hlt | reflexivity].
  - assert (Hlen : (0 < length rest)%nat).
    { destruct rest; [rewrite take_nil in Htake; discriminate | cbn; lia]. }
    pose proof chunk_size_pos as Hcs.
    rewrite (IH (length (drop chunk_size rest)));
      [|rewrite length_drop; lia | reflexivity | lia].
    rewrite h_update_app, <- Htake, take_drop, length_drop.
    unfold chunk_size in *.
    destruct (Nat.eqb_spec (k - S j) 0); cbn [orb];
      repeat match goal with
             | |- context [(?a <? ?b)%nat] => destruct (Nat.ltb_spec a b)
             end; try reflexivity; lia.
Qed.

(** X10: a read that raises in the middle of the file.  When the read
    number [k] (counted from 0) is the one that fails, [calculate_hash]
    meets it exactly when [k] is 0 or the file is longer than [k - 1]
    chunks of 4096 bytes; it then returns the error string, never a digest
    of the part already read.  When the file ends before that read, the
    digest is that of the whole file. *)
Theorem failing_read_is_met_or_not (W : world) (filepath : Path) (hash_type : string)
    (H : Hasher) (data : list byte) (k : nat) (e : exn) (s : state) :
  hashlib_new W hash_type = Return H ->
  open_rb W filepath = Opened data (Some (k, e)) ->
  calculate_hash W filepath hash_type s
  = (Return (if ((k =? 0) || ((k - 1) * 4096 <? length data))%nat
             then error_prefix +:+ e
             else whole_file_digest H data), s).
Proof.
  intros Hnew Hopen. rewrite calculate_hash_exact. unfold hash_outcome.
  rewrite Hnew, Hopen, feed_failing_read by lia.
  rewrite Nat.sub_0_r. fold chunk_size.
  now destruct ((k =? 0) || ((k - 1) * chunk_size <? length data))%nat.
Qed.

Lemma failing_read_is_met_or_not_witness :
  calculate_hash Sample.W (of_str "/evidence/notes.sqlite") "sha1" Sample.s0
  = (Return "Помилка: [Errno 5] Input/output error", Sample.s0).
Proof.
  apply (failing_read_is_met_or_not Sample.W (of_str "/evidence/notes.sqlite") "sha1"
           (Sample.buffering Sample.checksum) ["n"; "o"; "t"; "e"]%byte 1
           "[Errno 5] Input/output error" Sample.s0); reflexivity.
Defined.

(** ** The walker, by endings *)

Lemma glob_match_same (lit : list ascii) :
  star_free lit = true -> glob_match lit lit = true.
Proof.
  induction lit as [|p lit IH]; [reflexivity|]. cbn [star_free glob_match].
  intros Hfree. apply andb_prop in Hfree as [Hp Hfree].
  apply negb_true_iff, bool_decide_eq_false in Hp.
  destruct (decide (p = "*"%char)); [contradiction|].
  rewrite bool_decide_eq_true_2 by reflexivity. now apply IH.
Qed.

Lemma glob_match_star_turn (pat s : list ascii) :
  glob_match ("*"%char :: pat) s =
  glob_match pat s ||
  match s with [] => false | _ :: s' => glob_match ("*"%char :: pat) s' end.
Proof. now destruct s. Qed.

Lemma glob_match_star_suffix (lit s : list ascii) :
  star_free lit = true -> lit `suffix_of` s ->
  glob_match ("*"%char :: lit) s = true.
Proof.
  intros Hfree [pre ->].
  induction pre as [|c pre IH]; cbn [app]; rewrite glob_match_star_turn.
  - now rewrite glob_match_same.
  - rewrite IH. apply orb_true_r.
Qed.

Lemma last_app_nonempty {A} (l rel : list A) (d : A) :
  rel <> [] -> List.last (l ++ rel) d = List.last rel d.
Proof.
  intros Hne. induction l as [|x l IH]; [reflexivity|].
  cbn [app]. cbn [List.last]. destruct (l ++ rel) eqn:Happ; [|exact IH].
  now apply app_eq_nil in Happ as [_ ->].
Qed.

Lemma fnmatch_ending (n ext : string) :
  ext ∈ extensions -> (fnmatch n ("*" +:+ ext) = true <-> ends_with n ext).
Proof.
  intros Hext. unfold fnmatch, ends_with.
  change (list_ascii_of_string ("*" +:+ ext)) with ("*"%char :: list_ascii_of_string ext).
  assert (Hfree : star_free (list_ascii_of_string ext) = true).
  { unfold extensions in Hext. rewrite !elem_of_cons, elem_of_nil in Hext.
    destruct Hext as [->|[->|[->|[->|[]]]]]; reflexivity. }
  split; [now apply glob_match_star | now apply glob_match_star_suffix].
Qed.

(** X11: what the walker finds.  A path is returned by
    [find_sqlitedb_files] exactly when it is the path of an entry (a file
    or a directory) at any depth below the directory given to the walker,
    and its name ends with [.sqlitedb], [.sqlite], [.db] or [.sqlite3]
    (a name that is nothing but the ending included). *)
Theorem find_sqlitedb_files_by_ending (W : world) (self : SQLiteForensics) (p : Path) :
  p ∈ find_sqlitedb_files W self <->
  (exists rel, In rel (walk (scandir_tree W (directory_path self))) /\
     p = mkPath (root (directory_path self)) (parts (directory_path self) ++ rel)) /\
  (exists ext, ext ∈ extensions /\ ends_with (name p) ext).
Proof.
  unfold find_sqlitedb_files. rewrite list_elem_of_In, in_flat_map. split.
  - intros (pat & Hpat & Hp). apply rglob_in_spec in Hp as (rel & -> & Hrel & Hm).
    split; [now exists rel|].
    assert (Hname : name (mkPath (root (directory_path self))
                            (parts (directory_path self) ++ rel)) = List.last rel "").
    { unfold name. cbn [parts]. apply last_app_nonempty. now apply walk_nonempty in Hrel. }
    rewrite Hname. cbn in Hpat.
    destruct Hpat as [<-|[<-|[<-|[<-|[]]]]].
    + exists ".sqlitedb". split; [unfold extensions; set_solver|].
      now apply (fnmatch_ending _ ".sqlitedb"); [unfold extensions; set_solver|].
    + exists ".sqlite". split; [unfold extensions; set_solver|].
      now apply (fnmatch_ending _ ".sqlite"); [unfold extensions; set_solver|].
    + exists ".db". split; [unfold extensions; set_solver|].
      now apply (fnmatch_ending _ ".db"); [unfold extensions; set_solver|].
    + exists ".sqlite3". split; [unfold extensions; set_solver|].
      now apply (fnmatch_ending _ ".sqlite3"); [unfold extensions; set_solver|].
  - intros ((rel & Hrel & ->) & ext & Hext & Hends).
    assert (Hname : name (mkPath (root (directory_path self))
                            (parts (directory_path self) ++ rel)) = List.last rel "").
    { unfold name. cbn [parts]. apply last_app_nonempty. now apply walk_nonempty in Hrel. }
    rewrite Hname in Hends. exists ("*" +:+ ext). split.
    + unfold extensions in Hext. rewrite !elem_of_cons, elem_of_nil in Hext.
      destruct Hext as [->|[->|[->|[->|[]]]]]; cbn; tauto.
    + apply rglob_in_spec. exists rel. split; [reflexivity|]. split; [exact Hrel|].
      now apply fnmatch_ending.
Qed.

Lemma find_sqlitedb_files_by_ending_witness :
  of_str "/evidence/a/app.db" ∈ find_sqlitedb_files Sample.W Sample.self_abs.
Proof.
  apply (find_sqlitedb_files_by_ending Sample.W Sample.self_abs (of_str "/evidence/a/app.db")).
  split.
  - exists ["a"; "app.db"]. split; [|reflexivity]. vm_compute. tauto.
  - exists ".db". split; [unfold extensions; set_solver|]. now exists ["a"; "p"; "p"]%char.
Defined.

(** ** The entries of a run's report *)

(** Every entry of a returned report is the analysis of a discovered file,
    filed under the string of that file's path. *)
Lemma report_entry_origin (W : world) (self : SQLiteForensics) (s s' : state)
    (r : full_report) (k : string) (a : artifact) :
  generate_report W self s = (Return (Some r), s') ->
  dict_get (databases r) k = Some a ->
  exists p, p ∈ find_sqlitedb_files W self /\ k = str p /\
            a = artifact_of (analysis_outcome W self p).
Proof.
  intros Hrun Hget. apply generate_report_returns in Hrun as (-> & _ & _).
  cbn [databases] in Hget.
  apply dict_fold_origin in Hget as [Hnil|Hp]; [discriminate | exact Hp].
Qed.

(** X12: the caveat of the free-space count reaches the report word for
    word.  In a report returned by [generate_report], an analysed entry
    whose [deleted_records] holds a count holds the first number that the
    engine gave for [PRAGMA freelist_count] beside the fixed note,
    unaltered; one that holds an error holds the exception of the
    connection or of that statement. *)
Theorem free_space_note_is_verbatim (W : world) (self : SQLiteForensics) (s s' : state)
    (r : full_report) (k : string) (a : db_report) :
  generate_report W self s = (Return (Some r), s') ->
  dict_get (databases r) k = Some (Analysed a) ->
  exists p, p ∈ find_sqlitedb_files W self /\ k = str p /\
    match r_deleted_records a with
    | Freelist n note =>
        note = freelist_note /\ connect_error W p = None /\
        exists more, sql_int W p freelist_statement = Return (n :: more)
    | DeletedError e =>
        connect_error W p = Some e \/
        (connect_error W p = None /\
         (sql_int W p freelist_statement = Raise e \/
          (sql_int W p freelist_statement = Return [] /\
           e = "'NoneType' object is not subscriptable")))
    end.
Proof.
  intros Hrun Hget.
  destruct (report_entry_origin W self s s' r k _ Hrun Hget) as (p & Hp & -> & Ha).
  exists p. split; [exact Hp|]. split; [reflexivity|].
  destruct (analysis_outcome W self p) as [rep|e] eqn:Hout; [|discriminate].
  injection Ha as ->.
  apply analysis_outcome_parts in Hout as (_ & _ & _ & -> & _).
  unfold deleted_value, guarded, deleted_body.
  destruct (connect_error W p) as [e|]; [now left|].
  destruct (sql_int W p freelist_statement) as [[|n more]|e]; cbn [and_then fetchone_0].
  - right. split; [reflexivity|]. right. now split.
  - split; [reflexivity|]. split; [reflexivity|]. now exists more.
  - right. split; [reflexivity|]. now left.
Qed.

Lemma free_space_note_is_verbatim_witness :
  match fst (generate_report Sample.W Sample.self_abs Sample.s0) with
  | Return (Some r) =>
      match dict_get (databases r) "/evidence/b/app.db" with
      | Some (Analysed a) => r_deleted_records a = Freelist 2 freelist_note
      | _ => False
      end
  | _ => False
  end.
Proof.
  destruct (generate_report Sample.W Sample.self_abs Sample.s0) as [o s'] eqn:Hrun.
  assert (Ho : exists r, o = Return (Some r) /\
                 exists a n note,
                   dict_get (databases r) "/evidence/b/app.db" = Some (Analysed a) /\
                   r_deleted_records a = Freelist n note).
  { apply (f_equal fst) in Hrun. cbn [fst] in Hrun. rewrite <- Hrun.
    vm_compute. eexists. split; [reflexivity|]. eexists _, _, _. split; reflexivity. }
  destruct Ho as (r & -> & a & n & note & Hget & Hdel). cbn [fst]. rewrite Hget.
  destruct (free_space_note_is_verbatim Sample.W Sample.self_abs Sample.s0 s' r
              "/evidence/b/app.db" a Hrun Hget) as (p & Hp & Hk & Hnote).
  rewrite Hdel in Hnote |- *. destruct Hnote as (-> & _ & more & Hrows).
  assert (Hpath : p = of_str "/evidence/b/app.db").
  { apply (NoDup_map_inj_on str (find_sqlitedb_files Sample.W Sample.self_abs));
      [| exact Hp | | now rewrite <- Hk];
      apply (bool_decide_unpack _); vm_compute; exact I. }
  subst p. now injection Hrows as <- _.
Defined.

(** X13: an analysed entry names the file it is filed under.  In a report
    returned by [generate_report], the metadata of the entry under a key
    carry that key as [full_path] and the last component of that
    discovered path as [filename]; the integrity verdict and the structure
    in the entry are those of that same file. *)
Theorem analysed_entry_names_its_key (W : world) (self : SQLiteForensics) (s s' : state)
    (r : full_report) (k : string) (a : db_report) :
  generate_report W self s = (Return (Some r), s') ->
  dict_get (databases r) k = Some (Analysed a) ->
  full_path (r_metadata a) = k /\
  exists p, p ∈ find_sqlitedb_files W self /\ k = str p /\
    filename (r_metadata a) = name p /\
    fst (check_database_integrity W p s) = Return (r_integrity a) /\
    fst (get_database_info W p s) = Return (r_database_info a).
Proof.
  intros Hrun Hget.
  destruct (report_entry_origin W self s s' r k _ Hrun Hget) as (p & Hp & -> & Ha).
  destruct (analysis_outcome W self p) as [rep|e] eqn:Hout; [|discriminate].
  injection Ha as ->.
  apply analysis_outcome_parts in Hout as (Hmd & -> & -> & _).
  apply metadata_outcome_names in Hmd as [Hname Hfull].
  split; [exact Hfull|]. exists p.
  rewrite check_database_integrity_exact, get_database_info_exact. cbn [fst].
  now repeat split.
Qed.

Lemma analysed_entry_names_its_key_witness :
  match fst (generate_report Sample.W Sample.self_abs Sample.s0) with
  | Return (Some r) =>
      match dict_get (databases r) "/evidence/b/app.db" with
      | Some (Analysed a) => full_path (r_metadata a) = "/evidence/b/app.db"
      | _ => False
      end
  | _ => False
  end.
Proof.
  destruct (generate_report Sample.W Sample.self_abs Sample.s0) as [o s'] eqn:Hrun.
  assert (Ho : exists r, o = Return (Some r) /\
                 exists a, dict_get (databases r) "/evidence/b/app.db" = Some (Analysed a)).
  { apply (f_equal fst) in Hrun. cbn [fst] in Hrun. rewrite <- Hrun.
    vm_compute. eauto. }
  destruct Ho as (r & -> & a & Hget). cbn [fst]. rewrite Hget.
  exact (proj1 (analysed_entry_names_its_key Sample.W Sample.self_abs Sample.s0 s' r
                  "/evidence/b/app.db" a Hrun Hget)).
Defined.

(** Why the metadata collector raises. *)
Lemma metadata_outcome_raise (W : world) (p : Path) (e : exn) :
  metadata_outcome W p = Raise e ->
  os_stat W p = Raise e \/
  (exists st, os_stat W p = Return st /\ dates_of W st = Raise e) \/
  (exists hash_type, hash_type ∈ ["md5"; "sha1"; "sha256"] /\
     hashlib_new W hash_type = Raise e).
Proof.
  assert (Hhash : forall t e1, hash_outcome W p t = Raise e1 -> hashlib_new W t = Raise e1).
  { intros t e1. unfold hash_outcome. destruct (hashlib_new W t); [discriminate|].
    now intros [= ->]. }
  destruct (os_stat W p) as [st|e0] eqn:Hstat.
  2:{ unfold metadata_outcome. rewrite Hstat. intros [= ->]. now left. }
  rewrite (metadata_outcome_dates W p st Hstat).
  destruct (dates_of W st) as [[[created modified] accessed]|e0] eqn:Hdates.
  2:{ intros [= ->]. right. left. now exists st. }
  cbn [and_then].
  destruct (hash_outcome W p "md5") as [h1|e1] eqn:H1.
  2:{ intros [= ->]. right. right. exists "md5".
      split; [rewrite !elem_of_cons; tauto | now apply Hhash]. }
  destruct (hash_outcome W p "sha1") as [h2|e2] eqn:H2.
  2:{ intros [= ->]. right. right. exists "sha1".
      split; [rewrite !elem_of_cons; tauto | now apply Hhash]. }
  destruct (hash_outcome W p "sha256") as [h3|e3] eqn:H3.
  2:{ intros [= ->]. right. right. exists "sha256".
      split; [rewrite !elem_of_cons; tauto | now apply Hhash]. }
  discriminate.
Qed.

(** The next line of an analysis is taken, or the analysis raises what the
    console raised. *)
Ltac refused_or_taken W :=
  match goal with
  | |- context [said W ?line] =>
      let Hline := fresh "Hline" in
      destruct (said W line) as [[]|?] eqn:Hline;
      [|intros [= ->]; right; right; eexists; apply said_refused; exact Hline];
      cbn [and_then]
  end.

(** Why an analysis raises. *)
Lemma analysis_outcome_raise (W : world) (self : SQLiteForensics) (p : Path) (e : exn) :
  analysis_outcome W self p = Raise e ->
  metadata_outcome W p = Raise e \/
  ((exists version count tables tables_info indexes triggers,
      info_value W p = DatabaseInfo version count tables tables_info indexes triggers) /\
   mkdir_error W (truediv (output_dir self) "exported_data") = Some e) \/
  (exists line, print_error W line = Some e).
Proof.
  unfold analysis_outcome.
  do 4 refused_or_taken W.
  destruct (metadata_outcome W p) as [md|e0]; [|intros [= ->]; now left].
  cbn [and_then].
  do 3 refused_or_taken W.
  destruct (info_value W p) as [ver cnt tables ti idx trg|e0]; [|discriminate].
  refused_or_taken W.
  destruct (mkdir_error W _) as [e1|] eqn:Hmk.
  { intros [= ->]. right. left. split; [|reflexivity]. now eexists _, _, _, _, _, _. }
  destruct (exports_outcome W p _ tables []) as [ex|e1] eqn:Hex; [discriminate|].
  cbn [and_then]. intros [= ->].
  apply exports_outcome_raise in Hex as (t & _ & He). right. right. eexists. exact He.
Qed.

(** X14: what makes an artifact an error entry.  In a report returned by
    [generate_report], an entry [{'error': e}] stands for a discovered file
    for which [stat] raised [e], or one of the three dates could not be
    formatted, or [hashlib.new] raised [e] for one of [md5], [sha1] and
    [sha256], or the directory [exported_data] could not be made (with
    [e]) although the structure of the file had been read, or the console
    refused a line of the analysis with [e].  A file that SQLite refuses
    is therefore never an error entry on that account. *)
Theorem error_entry_causes (W : world) (self : SQLiteForensics) (s s' : state)
    (r : full_report) (k e : string) :
  generate_report W self s = (Return (Some r), s') ->
  dict_get (databases r) k = Some (Failed e) ->
  exists p, p ∈ find_sqlitedb_files W self /\ k = str p /\
    (os_stat W p = Raise e \/
     (exists st, os_stat W p = Return st /\ dates_of W st = Raise e) \/
     (exists hash_type, hash_type ∈ ["md5"; "sha1"; "sha256"] /\
        hashlib_new W hash_type = Raise e) \/
     ((exists version count tables tables_info indexes triggers,
         fst (get_database_info W p s)
         = Return (DatabaseInfo version count tables tables_info indexes triggers)) /\
      mkdir_error W (truediv (output_dir self) "exported_data") = Some e) \/
     (exists line, print_error W line = Some e)).
Proof.
  intros Hrun Hget.
  destruct (report_entry_origin W self s s' r k _ Hrun Hget) as (p & Hp & -> & Ha).
  exists p. split; [exact Hp|]. split; [reflexivity|].
  destruct (analysis_outcome W self p) as [rep|e'] eqn:Hout; [discriminate|].
  injection Ha as ->.
  apply analysis_outcome_raise in Hout as [Hmd|[[Hinfo Hmk]|Hline]].
  - apply metadata_outcome_raise in Hmd as [Hstat|[Hdates|Hhash]]; tauto.
  - right. right. right. left. split; [|exact Hmk].
    destruct Hinfo as (v & c & ts & ti & ix & tr & Hinfo).
    exists v, c, ts, ti, ix, tr. now rewrite get_database_info_exact, Hinfo.
  - tauto.
Qed.

Lemma error_entry_causes_witness :
  match fst (generate_report Cases.no_date Sample.self_abs Sample.s0) with
  | Return (Some r) =>
      dict_get (databases r) "/evidence/a/app.db"
      = Some (Failed "year 33658 is out of range") /\
      exists p, p ∈ find_sqlitedb_files Cases.no_date Sample.self_abs /\
                "/evidence/a/app.db" = str p
  | _ => False
  end.
Proof.
  destruct (generate_report Cases.no_date Sample.self_abs Sample.s0) as [o s'] eqn:Hrun.
  assert (Ho : exists r, o = Return (Some r) /\
                 dict_get (databases r) "/evidence/a/app.db"
                 = Some (Failed "year 33658 is out of range")).
  { apply (f_equal fst) in Hrun. cbn [fst] in Hrun. rewrite <- Hrun.
    vm_compute. eauto. }
  destruct Ho as (r & -> & Hget). cbn [fst]. split; [exact Hget|].
  destruct (error_entry_causes Cases.no_date Sample.self_abs Sample.s0 s' r
              "/evidence/a/app.db" _ Hrun Hget) as (p & Hp & Hk & _).
  now exists p.
Defined.

(** ** The entry point *)

(** X15: where [main] stops.  When the chosen directory does not exist,
    [main] makes no directory and writes no file, and returns (the
    console taking every line).  When it exists, the report directory is
    [forensic_report] beside the script whatever the invocation: if it
    cannot be made, nothing has changed when the exception leaves [main],
    before any file is looked for; if it can, [main] ends as
    [generate_report] does from the state with that directory made,
    dropping the report it returns; on a directory without database files
    that directory is all that the run leaves. *)
Theorem main_stops_or_reports (W : world) (inv : invocation) (s : state) :
  let directory := chosen_directory inv in
  let out := truediv (script_dir W) "forensic_report" in
  let self := mkSelf (of_str directory) out in
  let made := mkState (open_conns s) (next_conn s) (written s)
                ({[ str out ]} ∪ made_dirs s) in
  (path_exists inv directory = false ->
   snd (main W inv s) = s /\
   (console_accepts W -> main W inv s = (Return tt, s))) /\
  (path_exists inv directory = true ->
   forall e, mkdir_error W out = Some e ->
     snd (main W inv s) = s /\
     (console_accepts W -> main W inv s = (Raise e, s))) /\
  (path_exists inv directory = true -> mkdir_error W out = None ->
   console_accepts W ->
   main W inv s
   = (match fst (generate_report W self made) with
      | Return _ => Return tt
      | Raise e => Raise e
      end, snd (generate_report W self made)) /\
   (find_sqlitedb_files W self = [] -> main W inv s = (Return tt, made))).
Proof.
  intros directory out self made. unfold main. fold directory.
  split; [|split].
  - intros ->. cbn [negb]. split.
    + unfold bind, print, lift, ret.
      destruct (bool_decide (DIRECTORY_PATH inv = "")); now repeat destruct (said W _).
    + intros Hok. unfold bind, print, lift, ret.
      destruct (bool_decide (DIRECTORY_PATH inv = ""));
        now rewrite !(said_accepted _ _ Hok).
  - intros -> e He. cbn [negb]. split.
    + unfold init, bind, print, lift, ret, mkdir. fold out. rewrite He.
      destruct (bool_decide (DIRECTORY_PATH inv = "")); now repeat destruct (said W _).
    + intros Hok. unfold init, bind, print, lift, ret, mkdir. fold out. rewrite He.
      destruct (bool_decide (DIRECTORY_PATH inv = ""));
        now rewrite !(said_accepted _ _ Hok).
  - intros Hthere Hmk Hok.
    assert (Hmain : forall k : M unit,
              (forensics <- init W directory None ;;
               generate_report W forensics ;; k) s
              = match generate_report W self made with
                | (Return _, s') => k s'
                | (Raise e, s') => (Raise e, s')
                end).
    { intros k. unfold init. unfold bind at 1. unfold bind at 1. unfold mkdir. fold out.
      rewrite Hmk. unfold ret at 1. fold made. fold self. unfold bind.
      now destruct (generate_report W self made) as [[r|e] s1]. }
    assert (Hsays : (if bool_decide (DIRECTORY_PATH inv = "") then ret tt
                     else print W ("Використовується шлях з коду: " +:+ directory)) s
                    = (Return tt, s)).
    { destruct (bool_decide (DIRECTORY_PATH inv = "")); [reflexivity|].
      now rewrite print_run, (said_accepted _ _ Hok). }
    assert (Hrun : main W inv s
                   = (match fst (generate_report W self made) with
                      | Return _ => Return tt
                      | Raise e => Raise e
                      end, snd (generate_report W self made))).
    { unfold main. fold directory. do 3 take_print Hok.
      step_with Hsays. rewrite Hthere. cbn [negb]. do 2 take_print Hok.
      fold out. rewrite Hmain.
      destruct (generate_report W self made) as [[r|e] s1]; cbn [fst snd];
        [|reflexivity].
      now rewrite print_run, (said_accepted _ _ Hok). }
    split; [exact Hrun|].
    intros Hnone. change (main W inv s = (Return tt, made)). rewrite Hrun.
    now rewrite (generate_report_empty W self made Hnone Hok).
Qed.

Lemma main_stops_or_reports_witness :
  main Sample.W (Cases.run_on "/missing") Sample.s0 = (Return tt, Sample.s0) /\
  main Cases.no_report_dir (Cases.run_on "/evidence") Sample.s0
  = (Raise "[Errno 13] Permission denied", Sample.s0) /\
  main Sample.W (Cases.run_on "/empty") Sample.s0
  = (Return tt, mkState [] 0 ∅ ({[ "/opt/tools/forensic_report" ]} ∪ ∅)).
Proof.
  split; [|split].
  - exact (proj2 (proj1 (main_stops_or_reports Sample.W (Cases.run_on "/missing")
                           Sample.s0) eq_refl) (fun line => eq_refl)).
  - exact (proj2 (proj1 (proj2 (main_stops_or_reports Cases.no_report_dir
                                  (Cases.run_on "/evidence") Sample.s0))
                    eq_refl "[Errno 13] Permission denied" eq_refl)
             (fun line => eq_refl)).
  - exact (proj2 (proj2 (proj2 (main_stops_or_reports Sample.W (Cases.run_on "/empty")
                                  Sample.s0))
                    eq_refl eq_refl (fun line => eq_refl)) eq_refl).
Defined.
